(** * Smart Doc Checker: clause normalisation and contradiction detection

    A shallow embedding of the two analysis stages of the repository:

    - [backend/nlp/clause_parser.py]: [_clean_text],
      [_extract_notice_period], [_extract_working_hours],
      [_post_process_clauses];
    - [backend/checker/contradiction_detector.py]: the seven value
      comparators, [_compare_clause_values], [_detect_clause_contradictions],
      [_group_clauses_by_type], [_prioritize_contradictions],
      [detect_contradictions] and [generate_contradiction_report].

    Conventions of the embedding.

    - A Python [str] is a Rocq [string], one character per code point; the
      256 values of [ascii] are read as the code points 0..255 (Latin-1), and
      the character classes below ([\s], [\d], [\w], [str.lower]) follow
      CPython's Unicode tables on that range.
    - A Python [float] is a binary64 value of [spec_float]; conversions from
      decimal text and integer division round to nearest-even.
    - A [dict] is an association list in insertion order; a [set] of strings
      is a [gset string].
    - Code that may raise returns an [outcome]; the comparators, which fill
      the shared [details] dictionary while they run, live in the state and
      exception monad [Cmp]. *)

From Stdlib Require Import ZArith NArith String Ascii List Bool Lia.
From Stdlib Require Import DecimalString Floats.SpecFloat Sorting.Sorted.
From stdpp Require Import base gmap strings list.

Local Open Scope string_scope.

(* ===================================================================== *)
(** * Python strings                                                      *)
(* ===================================================================== *)

Module PyStr.

Definition code (c : ascii) : N := N_of_ascii c.

Definition in_range (lo hi : N) (c : ascii) : bool :=
  ((lo <=? code c) && (code c <=? hi))%N.

(** [str.isspace] and the regex class [\s]:
    U+0009..U+000D, U+001C..U+001F, U+0020, U+0085, U+00A0. *)
Definition is_space (c : ascii) : bool :=
  in_range 9 13 c || in_range 28 32 c || (code c =? 133)%N || (code c =? 160)%N.

(** The regex class [\d] (decimal digits; on this range only [0-9]). *)
Definition is_digit (c : ascii) : bool := in_range 48 57 c.

(** The regex class [\w]: [str.isalnum] or the underscore. *)
Definition is_word (c : ascii) : bool :=
  is_digit c || in_range 65 90 c || in_range 97 122 c || (code c =? 95)%N
  || (code c =? 170)%N || (code c =? 178)%N || (code c =? 179)%N
  || (code c =? 181)%N || (code c =? 185)%N || (code c =? 186)%N
  || in_range 188 190 c || in_range 192 214 c || in_range 216 246 c
  || in_range 248 255 c.

(** [str.lower] on one code point: A..Z, and U+00C0..U+00DE but U+00D7. *)
Definition lower_char (c : ascii) : ascii :=
  if in_range 65 90 c || (in_range 192 222 c && negb (code c =? 215)%N)
  then ascii_of_N (code c + 32) else c.

(** [str.upper] restricted to the ASCII letters (used by [title]). *)
Definition upper_ascii (c : ascii) : ascii :=
  if in_range 97 122 c then ascii_of_N (code c - 32) else c.

Definition is_ascii_letter (c : ascii) : bool :=
  in_range 65 90 c || in_range 97 122 c.

Fixpoint map_chars (f : ascii -> ascii) (s : string) : string :=
  match s with
  | "" => ""
  | String c s' => String (f c) (map_chars f s')
  end.

Fixpoint all_chars (p : ascii -> bool) (s : string) : bool :=
  match s with
  | "" => true
  | String c s' => p c && all_chars p s'
  end.

Fixpoint any_char (p : ascii -> bool) (s : string) : bool :=
  match s with
  | "" => false
  | String c s' => p c || any_char p s'
  end.

Fixpoint filter_chars (p : ascii -> bool) (s : string) : string :=
  match s with
  | "" => ""
  | String c s' => if p c then String c (filter_chars p s') else filter_chars p s'
  end.

(** [s.lower()] *)
Definition lower (s : string) : string := map_chars lower_char s.

(** [s[n:]] *)
Fixpoint drop (n : nat) (s : string) : string :=
  match n, s with
  | O, _ => s
  | S _, "" => ""
  | S k, String _ s' => drop k s'
  end.

(** [s[:n]] *)
Fixpoint take (n : nat) (s : string) : string :=
  match n, s with
  | O, _ => ""
  | S _, "" => ""
  | S k, String c s' => String c (take k s')
  end.

(** The longest prefix of characters in the class [p], and what follows:
    a greedy [p*]. *)
Fixpoint span (p : ascii -> bool) (s : string) : string * string :=
  match s with
  | "" => ("", "")
  | String c s' =>
      if p c then let '(a, b) := span p s' in (String c a, b) else ("", s)
  end.

(** [s.lstrip()], [s.rstrip()], [s.strip()] *)
Fixpoint lstrip (s : string) : string :=
  match s with
  | "" => ""
  | String c s' => if is_space c then lstrip s' else s
  end.

Fixpoint rstrip_chars (p : ascii -> bool) (s : string) : string :=
  match s with
  | "" => ""
  | String c s' =>
      match rstrip_chars p s' with
      | "" => if p c then "" else String c ""
      | r => String c r
      end
  end.

Definition rstrip (s : string) : string := rstrip_chars is_space s.

Definition strip (s : string) : string := rstrip (lstrip s).

(** [s.startswith(p)], returning what follows the prefix. *)
Fixpoint strip_prefix (p s : string) : option string :=
  match p, s with
  | "", _ => Some s
  | String _ _, "" => None
  | String a p', String c s' =>
      if Ascii.eqb a c then strip_prefix p' s' else None
  end.

(** A literal of lower-case ASCII letters matched under [re.IGNORECASE]:
    a text character matches the pattern character when its lower-case
    form does.  Returns what follows the match. *)
Fixpoint strip_prefix_ci (p s : string) : option string :=
  match p, s with
  | "", _ => Some s
  | String _ _, "" => None
  | String a p', String c s' =>
      if Ascii.eqb a (lower_char c) then strip_prefix_ci p' s' else None
  end.

(** [t in s] *)
Fixpoint contains (t s : string) : bool :=
  match strip_prefix t s with
  | Some _ => true
  | None => match s with
            | "" => false
            | String _ s' => contains t s'
            end
  end.

(** [s.split()]: the maximal runs of non-whitespace characters.  [cur]
    is the run being read. *)
Fixpoint split_go (cur : string) (s : string) : list string :=
  match s with
  | "" => match cur with "" => [] | _ => [cur] end
  | String c s' =>
      if is_space c
      then match cur with "" => split_go "" s' | _ => cur :: split_go "" s' end
      else split_go (cur ++ String c "") s'
  end.

Definition split (s : string) : list string := split_go "" s.

(** [s.replace(a, b)] for single characters. *)
Definition replace_char (a b : ascii) (s : string) : string :=
  map_chars (fun c => if Ascii.eqb c a then b else c) s.

(** [s.title()] on ASCII letters: the first letter of every run of
    letters is upper-cased, the others lower-cased.  Clause-type names are
    ASCII identifiers; characters outside the ASCII letters are kept and
    end a run. *)
Fixpoint title_go (prev_cased : bool) (s : string) : string :=
  match s with
  | "" => ""
  | String c s' =>
      String (if prev_cased then lower_char c else upper_ascii c)
             (title_go (is_ascii_letter c) s')
  end.

Definition title (s : string) : string := title_go false s.

(** Decimal text of a natural number, [str(n)]. *)
Definition of_nat (n : nat) : string := NilZero.string_of_uint (Nat.to_uint n).

Definition hex_digit (n : N) : ascii :=
  if (n <? 10)%N then ascii_of_N (48 + n) else ascii_of_N (87 + n).

(** [repr(s)]: in single quotes, unless the text has a single quote and
    no double quote; backslash, the chosen quote, tab, newline and carriage
    return escaped; other non-printable code points written as a
    backslash, x and two hexadecimal digits. *)
Definition squote : ascii := ascii_of_N 39.
Definition dquote : ascii := ascii_of_N 34.

Definition printable (c : ascii) : bool :=
  in_range 32 126 c || (in_range 161 255 c && negb (code c =? 173)%N).

Definition repr_char (q : ascii) (c : ascii) : string :=
  if Ascii.eqb c q || Ascii.eqb c "\" then String "\" (String c "")
  else if (code c =? 9)%N then "\t"
  else if (code c =? 10)%N then "\n"
  else if (code c =? 13)%N then "\r"
  else if printable c then String c ""
  else String "\" (String "x" (String (hex_digit (code c / 16))
                                (String (hex_digit (code c mod 16)) ""))).

Fixpoint flat_map_chars (f : ascii -> string) (s : string) : string :=
  match s with
  | "" => ""
  | String c s' => f c ++ flat_map_chars f s'
  end.

Definition repr (s : string) : string :=
  let q : ascii :=
    if any_char (Ascii.eqb squote) s && negb (any_char (Ascii.eqb dquote) s)
    then dquote else squote in
  String q (flat_map_chars (repr_char q) s ++ String q "").

(** [sep.join(l)] *)
Definition join (sep : string) (l : list string) : string := String.concat sep l.

Definition head (s : string) : option ascii :=
  match s with "" => None | String c _ => Some c end.

Definition is_word_opt (c : option ascii) : bool :=
  match c with Some c => is_word c | None => false end.

(** The character before offset [n] of a text whose own predecessor is
    [prev]. *)
Fixpoint prev_at (n : nat) (prev : option ascii) (s : string) : option ascii :=
  match n, s with
  | O, _ => prev
  | S _, "" => prev
  | S k, String c s' => prev_at k (Some c) s'
  end.

End PyStr.

(* ===================================================================== *)
(** * Exceptions, integers and floats                                     *)
(* ===================================================================== *)

Inductive py_exception : Type :=
| ValueError (msg : string)
| ZeroDivisionError (msg : string).

(** [str(e)] *)
Definition exn_str (e : py_exception) : string :=
  match e with
  | ValueError m => m
  | ZeroDivisionError m => m
  end.

(** The result of code that may raise. *)
Inductive outcome (A : Type) : Type :=
| Return (a : A)
| Raise (e : py_exception).
Arguments Return {A} a.
Arguments Raise {A} e.

Module PyNum.
Import PyStr.

Definition digit_value (c : ascii) : Z := Z.of_N (code c) - 48.

(** The value of a run of decimal digits, most significant first. *)
Fixpoint digits_value_go (acc : Z) (s : string) : Z :=
  match s with
  | "" => acc
  | String c s' => digits_value_go (10 * acc + digit_value c) s'
  end.

Definition digits_value (s : string) : Z := digits_value_go 0 s.

(** CPython's default [sys.int_info.default_max_str_digits]: [int(text)]
    raises [ValueError] on a text of more digits. *)
Definition int_max_str_digits : nat := 4300.

(** [int(s)] for a text [s] matched by [\d+]. *)
Definition int_of_digits (s : string) : outcome Z :=
  if (int_max_str_digits <? String.length s)%nat
  then Raise (ValueError
         ("Exceeds the limit (" ++ of_nat int_max_str_digits
          ++ " digits) for integer string conversion: value has "
          ++ of_nat (String.length s)
          ++ " digits; use sys.set_int_max_str_digits() to increase the limit"))
  else Return (digits_value s).

(** ** binary64 *)

Definition prec : Z := 53.
Definition emax : Z := 1024.

(** The double nearest to [n / d] (ties to even), for [0 <= n], [0 < d]:
    what [float(text)] gives for decimal text and [a / b] for integers. *)
Definition float_of_ratio (n d : Z) : spec_float :=
  match n with
  | Z0 => S754_zero false
  | _ =>
      let '(mz, ez, lz) := SFdiv_core_binary prec emax n 0 d 0 in
      binary_round_aux prec emax false mz ez lz
  end.

(** [float(text)] for [text] of the shape [\d+] ([frac] empty) or
    [\d+\.\d+]. *)
Definition float_of_decimal (int_part frac : string) : spec_float :=
  let scale := Z.pow 10 (Z.of_nat (String.length frac)) in
  float_of_ratio (digits_value int_part * scale + digits_value frac) scale.

Definition float_of_Z (n : Z) : spec_float := float_of_ratio n 1.

Definition fmul : spec_float -> spec_float -> spec_float := SFmul prec emax.
Definition fsub : spec_float -> spec_float -> spec_float := SFsub prec emax.
Definition fabs : spec_float -> spec_float := SFabs.
Definition feqb : spec_float -> spec_float -> bool := SFeqb.
Definition fltb : spec_float -> spec_float -> bool := SFltb.

(** [max(a, b)]: [b] when [b > a], else [a]. *)
Definition fmax (a b : spec_float) : spec_float := if fltb a b then b else a.

Definition is_zero (x : spec_float) : bool :=
  match x with S754_zero _ => true | _ => false end.

(** [a / b] on floats. *)
Definition fdiv (a b : spec_float) : outcome spec_float :=
  if is_zero b then Raise (ZeroDivisionError "float division by zero")
  else Return (SFdiv prec emax a b).

Definition f_0_0 : spec_float := S754_zero false.
Definition f_1_0 : spec_float := float_of_Z 1.
Definition f_0_5 : spec_float := float_of_ratio 1 2.
Definition f_100 : spec_float := float_of_Z 100.
Definition f_1000 : spec_float := float_of_Z 1000.

(** The rational a finite double stands for, as numerator and
    denominator. *)
Definition exact_value (x : spec_float) : option (Z * Z) :=
  match x with
  | S754_zero _ => Some (0, 1)%Z
  | S754_finite s m e =>
      let m' := if s then Z.neg m else Z.pos m in
      Some (if (0 <=? e)%Z then (m' * 2 ^ e, 1)%Z else (m', 2 ^ (- e))%Z)
  | _ => None
  end.

(** [x] is exactly the rational [n / d]. *)
Definition is_exactly (x : spec_float) (n d : Z) : bool :=
  match exact_value x with
  | Some (p, q) => (p * d =? n * q)%Z
  | None => false
  end.

End PyNum.

(* ===================================================================== *)
(** * Regular expressions                                                 *)
(* ===================================================================== *)

(** Each pattern of the source is written as a matcher: a function that,
    given the character before a position and the text from that position
    on, returns the match starting there (its length, or its groups), as
    Python's backtracking engine finds it.  [sub], [search] and [findall]
    then scan the positions from left to right. *)
Module Re.
Import PyStr.

Definition matcher : Type := option ascii -> string -> option nat.

(** [re.sub(pattern, repl, s)]: the leftmost non-overlapping matches are
    replaced by [repl]; [skip] counts the characters of the current match
    still to pass over.  No pattern here matches the empty string. *)
Fixpoint sub_go (m : matcher) (repl : string) (skip : nat)
         (prev : option ascii) (s : string) : string :=
  match s with
  | "" => ""
  | String c s' =>
      match skip with
      | S k => sub_go m repl k (Some c) s'
      | O =>
          match m prev s with
          | Some (S k) => repl ++ sub_go m repl k (Some c) s'
          | _ => String c (sub_go m repl O (Some c) s')
          end
      end
  end.

Definition sub (m : matcher) (repl : string) (s : string) : string :=
  sub_go m repl 0 None s.

(** [re.search(pattern, s)]: the match at the leftmost position that has
    one. *)
Fixpoint search_go {A : Type} (m : option ascii -> string -> option A)
         (prev : option ascii) (s : string) : option A :=
  match m prev s with
  | Some r => Some r
  | None =>
      match s with
      | "" => None
      | String c s' => search_go m (Some c) s'
      end
  end.

Definition search {A : Type} (m : option ascii -> string -> option A)
           (s : string) : option A :=
  search_go m None s.

(** [re.findall(pattern, s)] for a pattern without groups: the texts of
    the leftmost non-overlapping matches. *)
Fixpoint findall_go (m : matcher) (skip : nat) (prev : option ascii)
         (s : string) : list string :=
  match s with
  | "" => []
  | String c s' =>
      match skip with
      | S k => findall_go m k (Some c) s'
      | O =>
          match m prev s with
          | Some (S k) => take (S k) s :: findall_go m k (Some c) s'
          | _ => findall_go m O (Some c) s'
          end
      end
  end.

Definition findall (m : matcher) (s : string) : list string :=
  findall_go m 0 None s.

Definition first_some {A B : Type} (f : A -> option B) : list A -> option B :=
  fix go (l : list A) : option B :=
    match l with
    | [] => None
    | x :: l' => match f x with Some r => Some r | None => go l' end
    end.

(** [\b]: exactly one of the two neighbours is a word character. *)
Definition word_boundary (prev : option ascii) (s : string) : bool :=
  xorb (is_word_opt prev) (is_word_opt (head s)).

(** [\s+] *)
Definition whitespace_run : matcher := fun _ s =>
  match fst (span is_space s) with
  | "" => None
  | w => Some (String.length w)
  end.

(** [--- Page \d+ ---].  The digits are taken greedily; giving one back
    would leave a digit where the pattern wants a space. *)
Definition page_marker : matcher := fun _ s =>
  match strip_prefix "--- Page " s with
  | None => None
  | Some r =>
      let '(d, r') := span is_digit r in
      match d, strip_prefix " ---" r' with
      | String _ _, Some _ => Some (9 + String.length d + 4)%nat
      | _, _ => None
      end
  end.

(** [\b(?:w1|w2|...)\b]: the alternatives are tried in order, each
    followed by the closing boundary test; [ci] is [re.IGNORECASE]. *)
Definition bounded_words (ci : bool) (alts : list string) : matcher :=
  fun prev s =>
    if word_boundary prev s
    then first_some
           (fun w =>
              match (if ci then strip_prefix_ci w s else strip_prefix w s) with
              | Some r =>
                  if word_boundary (prev_at (String.length w) prev s) r
                  then Some (String.length w) else None
              | None => None
              end) alts
    else None.

(** [[$,]] *)
Definition dollar_or_comma : matcher := fun _ s =>
  match s with
  | String c _ => if Ascii.eqb c "$" || Ascii.eqb c "," then Some 1%nat else None
  | "" => None
  end.

(** One of the literals [alts] under [re.IGNORECASE], tried in order;
    returns the matched text and what follows. *)
Definition literal_ci (alts : list string) (s : string) : option (string * string) :=
  first_some
    (fun w => match strip_prefix_ci w s with
              | Some r => Some (take (String.length w) s, r)
              | None => None
              end) alts.

(** [days?|weeks?|months?] at the end of a pattern: the optional [s] is
    taken when present. *)
Definition time_unit (s : string) : option string :=
  first_some
    (fun w => match strip_prefix_ci w s with
              | Some r =>
                  match strip_prefix_ci "s" r with
                  | Some _ => Some (take (S (String.length w)) s)
                  | None => Some (take (String.length w) s)
                  end
              | None => None
              end) ["day"; "week"; "month"].

(** [(\d+)\s+(days?|weeks?|months?)] with [re.IGNORECASE]; the groups.
    [\d+] and [\s+] are greedy, and giving back a digit or a blank leaves
    a character the next item of the pattern cannot match. *)
Definition duration : option ascii -> string -> option (string * string) :=
  fun _ s =>
    match span is_digit s with
    | (String _ _ as number, r) =>
        match span is_space r with
        | (String _ _, r') =>
            match time_unit r' with
            | Some unit => Some (number, unit)
            | None => None
            end
        | _ => None
        end
    | _ => None
    end.

(** The ways [\d{1,2}] can match at the head of [s], longest first,
    each with what follows. *)
Definition one_or_two_digits (s : string) : list (string * string) :=
  match s with
  | String a (String b r) =>
      if is_digit a
      then (if is_digit b then [(String a (String b ""), r)] else [])
           ++ [(String a "", String b r)]
      else []
  | String a "" => if is_digit a then [(String a "", "")] else []
  | "" => []
  end.

(** [(\d{1,2})\s*(am|pm)\s*(?:to|-)\s*(\d{1,2})\s*(am|pm)] with
    [re.IGNORECASE]; the four groups.  Both choices of [\d{1,2}] are
    tried, longest first; the [\s*] are greedy (a blank given back cannot
    start the next item). *)
Definition time_range : option ascii -> string -> option (string * string * string * string) :=
  fun _ s =>
    first_some
      (fun '(h1, r1) =>
         match literal_ci ["am"; "pm"] (snd (span is_space r1)) with
         | None => None
         | Some (p1, r2) =>
             match literal_ci ["to"; "-"] (snd (span is_space r2)) with
             | None => None
             | Some (_, r3) =>
                 first_some
                   (fun '(h2, r4) =>
                      match literal_ci ["am"; "pm"] (snd (span is_space r4)) with
                      | None => None
                      | Some (p2, _) => Some (h1, p1, h2, p2)
                      end)
                   (one_or_two_digits (snd (span is_space r3)))
             end
         end)
      (one_or_two_digits s).

(** [(\d{1,2}):\d{2}]: the number of characters matched and what
    follows.  At most one choice of [\d{1,2}] is followed by a colon. *)
Definition clock_time (s : string) : option (nat * string) :=
  first_some
    (fun '(h, r) =>
       match r with
       | String colon (String a (String b r')) =>
           if Ascii.eqb colon ":" && is_digit a && is_digit b
           then Some (String.length h + 3, r')%nat else None
       | _ => None
       end)
    (one_or_two_digits s).

(** One of the literals [alts], case-sensitive, tried in order. *)
Definition literal (alts : list string) (s : string) : option (string * string) :=
  first_some
    (fun w => match strip_prefix w s with
              | Some r => Some (w, r)
              | None => None
              end) alts.

(** [(\d{1,2}):\d{2}\s*(?:to|-)\s*(\d{1,2}):\d{2}], without
    [re.IGNORECASE]; the text matched. *)
Definition clock_range : option ascii -> string -> option string :=
  fun _ s =>
    match clock_time s with
    | Some (n1, r1) =>
        let '(w1, r2) := span is_space r1 in
        match literal ["to"; "-"] r2 with
        | Some (sep, r3) =>
            let '(w2, r4) := span is_space r3 in
            match clock_time r4 with
            | Some (n2, _) =>
                Some (take (n1 + String.length w1 + String.length sep
                            + String.length w2 + n2) s)
            | None => None
            end
        | None => None
        end
    | None => None
    end.

(** [(\d+(?:\.\d+)?)\s*K] with [re.IGNORECASE]; group 1 as its integer
    and fraction digits (the fraction empty when absent).  With the
    fraction first, then without it; shorter digit runs cannot be followed
    by [\s*K]. *)
Definition k_number : option ascii -> string -> option (string * string) :=
  fun _ s =>
    match span is_digit s with
    | (String _ _ as ip, r) =>
        let followed_by_k (t : string) : bool :=
          match strip_prefix_ci "k" (snd (span is_space t)) with
          | Some _ => true
          | None => false
          end in
        let with_fraction : option (string * string) :=
          match strip_prefix "." r with
          | Some r' =>
              match span is_digit r' with
              | (String _ _ as fp, r'') =>
                  if followed_by_k r'' then Some (ip, fp) else None
              | _ => None
              end
          | None => None
          end in
        match with_fraction with
        | Some g => Some g
        | None => if followed_by_k r then Some (ip, "") else None
        end
    | _ => None
    end.

(** [(\d+(?:\.\d{2})?)]; group 1 as integer and fraction digits. *)
Definition plain_number : option ascii -> string -> option (string * string) :=
  fun _ s =>
    match span is_digit s with
    | (String _ _ as ip, r) =>
        match r with
        | String dot (String a (String b _)) =>
            if Ascii.eqb dot "." && is_digit a && is_digit b
            then Some (ip, String a (String b ""))
            else Some (ip, "")
        | _ => Some (ip, "")
        end
    | _ => None
    end.

End Re.

(* ===================================================================== *)
(** * Dictionaries and the comparator monad                               *)
(* ===================================================================== *)

Module PyDict.

(** [d[k] = v]: the value of an existing key is replaced in place, a new
    key goes to the end. *)
Fixpoint set {V : Type} (k : string) (v : V) (d : list (string * V))
  : list (string * V) :=
  match d with
  | [] => [(k, v)]
  | (k', v') :: d' =>
      if String.eqb k k' then (k, v) :: d' else (k', v') :: set k v d'
  end.

(** [d.get(k)] *)
Fixpoint get {V : Type} (k : string) (d : list (string * V)) : option V :=
  match d with
  | [] => None
  | (k', v') :: d' => if String.eqb k k' then Some v' else get k d'
  end.

Definition keys {V : Type} (d : list (string * V)) : list string := map fst d.

End PyDict.

(** A clause value: a string, or a list of strings ([important_dates]). *)
Inductive ClauseValue : Type :=
| VStr (s : string)
| VList (l : list string).

(** [str(value)] *)
Definition py_str (v : ClauseValue) : string :=
  match v with
  | VStr s => s
  | VList l => "[" ++ PyStr.join ", " (map PyStr.repr l) ++ "]"
  end.

(** The values stored in a comparator's evidence dictionary. *)
Inductive DVal : Type :=
| DNone
| DStr (s : string)
| DBool (b : bool)
| DInt (z : Z)
| DFloat (x : spec_float)
| DIntPair (a b : Z)
| DStrPair (a b : string)
| DStrList (l : list string).

Definition Details : Type := list (string * DVal).

(** Comparators run against the shared [details] dictionary and may raise;
    the dictionary keeps what was written before the exception. *)
Definition Cmp (A : Type) : Type := Details -> outcome A * Details.

Definition ret {A : Type} (a : A) : Cmp A := fun d => (Return a, d).

Definition bind {A B : Type} (c : Cmp A) (k : A -> Cmp B) : Cmp B :=
  fun d =>
    match c d with
    | (Return a, d') => k a d'
    | (Raise e, d') => (Raise e, d')
    end.

Definition lift {A : Type} (o : outcome A) : Cmp A := fun d => (o, d).

(** [details[k] = v] *)
Definition put (k : string) (v : DVal) : Cmp unit :=
  fun d => (Return tt, PyDict.set k v d).

Notation "'let!' x ':=' c 'in' k" := (bind c (fun x => k))
  (at level 10, x name, c at level 100, k at level 200).
Notation "c1 ';;;' c2" := (bind c1 (fun _ => c2))
  (at level 100, c2 at level 200, right associativity).

Definition opt_dval {A : Type} (f : A -> DVal) (o : option A) : DVal :=
  match o with Some a => f a | None => DNone end.

(* ===================================================================== *)
(** * contradiction_detector.py                                           *)
(* ===================================================================== *)

Module ContradictionDetector.
Import PyStr PyNum.

Record Rule : Type := {
  comparison_type : string;
  rule_severity : string;
  rule_description : string
}.

(** [_setup_contradiction_rules] *)
Definition contradiction_rules : list (string * Rule) :=
  [ ("notice_period",
     {| comparison_type := "time_duration"; rule_severity := "high";
        rule_description := "Notice period requirements differ between documents" |});
    ("working_hours",
     {| comparison_type := "time_range"; rule_severity := "medium";
        rule_description := "Working hours specifications are inconsistent" |});
    ("termination_clause",
     {| comparison_type := "text_semantic"; rule_severity := "high";
        rule_description := "Termination conditions conflict between documents" |});
    ("deadline",
     {| comparison_type := "datetime"; rule_severity := "high";
        rule_description := "Deadline requirements are contradictory" |});
    ("salary",
     {| comparison_type := "numeric"; rule_severity := "critical";
        rule_description := "Salary amounts differ between documents" |});
    ("important_dates",
     {| comparison_type := "date_list"; rule_severity := "medium";
        rule_description := "Important dates are inconsistent across documents" |}) ].

(** ** The comparators *)

(** [_calculate_text_similarity]: Jaccard similarity of the word sets. *)
Definition _calculate_text_similarity (text1 text2 : string) : spec_float :=
  match text1, text2 with
  | "", "" => f_1_0
  | "", _ => f_0_0
  | _, "" => f_0_0
  | _, _ =>
      let words1 : gset string := list_to_set (split text1) in
      let words2 : gset string := list_to_set (split text2) in
      let intersection := words1 ∩ words2 in
      let union := words1 ∪ words2 in
      if (size union =? 0)%nat then f_0_0
      else float_of_ratio (Z.of_nat (size intersection)) (Z.of_nat (size union))
  end.

(** The text comparison the duration and time-range comparators fall
    back on: [str(value1).strip().lower() != str(value2).strip().lower()]. *)
Definition text_differs (value1 value2 : ClauseValue) : bool :=
  negb (String.eqb (lower (strip (py_str value1)))
                   (lower (strip (py_str value2)))).

(** [parse_duration] inside [_compare_time_durations] *)
Definition parse_duration (value : ClauseValue) : outcome (option Z) :=
  match Re.search Re.duration (py_str value) with
  | Some (number, unit) =>
      match int_of_digits number with
      | Raise e => Raise e
      | Return number =>
          let unit := lower unit in
          if contains "day" unit then Return (Some number)
          else if contains "week" unit then Return (Some (number * 7)%Z)
          else if contains "month" unit then Return (Some (number * 30)%Z)
          else Return None
      end
  | None => Return None
  end.

Definition _compare_time_durations (value1 value2 : ClauseValue) : Cmp bool :=
  let! days1 := lift (parse_duration value1) in
  let! days2 := lift (parse_duration value2) in
  put "parsed_days1" (opt_dval DInt days1) ;;;
  put "parsed_days2" (opt_dval DInt days2) ;;;
  match days1, days2 with
  | Some d1, Some d2 =>
      let is_different := negb (d1 =? d2)%Z in
      put "difference_days"
          (DInt (if is_different then Z.abs (d1 - d2) else 0)) ;;;
      ret is_different
  | _, _ => ret (text_differs value1 value2)
  end.

(** [parse_time_range] inside [_compare_time_ranges] *)
Definition to_24_hour (hour : Z) (period : string) : Z :=
  if String.eqb (lower period) "pm" && negb (hour =? 12)%Z then (hour + 12)%Z
  else if String.eqb (lower period) "am" && (hour =? 12)%Z then 0%Z
  else hour.

Definition parse_time_range (value : ClauseValue) : option (Z * Z) :=
  match Re.search Re.time_range (py_str value) with
  | Some (start_hour, start_period, end_hour, end_period) =>
      Some (to_24_hour (digits_value start_hour) start_period,
            to_24_hour (digits_value end_hour) end_period)
  | None => None
  end.

Definition _compare_time_ranges (value1 value2 : ClauseValue) : Cmp bool :=
  let range1 := parse_time_range value1 in
  let range2 := parse_time_range value2 in
  put "parsed_range1" (opt_dval (fun '(a, b) => DIntPair a b) range1) ;;;
  put "parsed_range2" (opt_dval (fun '(a, b) => DIntPair a b) range2) ;;;
  match range1, range2 with
  | Some (s1, e1), Some (s2, e2) =>
      let is_different := negb ((s1 =? s2)%Z && (e1 =? e2)%Z) in
      (if is_different
       then put "start_time_diff" (DInt (Z.abs (s1 - s2))) ;;;
            put "end_time_diff" (DInt (Z.abs (e1 - e2)))
       else ret tt) ;;;
      ret is_different
  | _, _ => ret (text_differs value1 value2)
  end.

(** [extract_number] inside [_compare_numeric_values] *)
Definition extract_number (value : ClauseValue) : option spec_float :=
  let cleaned := Re.sub Re.dollar_or_comma "" (py_str value) in
  let plain :=
    match Re.search Re.plain_number cleaned with
    | Some (ip, fp) => Some (float_of_decimal ip fp)
    | None => None
    end in
  (* ['K' in cleaned.upper()]: only [k] and [K] upper-case to [K] *)
  if any_char (fun c => Ascii.eqb (lower_char c) "k") cleaned
  then match Re.search Re.k_number cleaned with
       | Some (ip, fp) => Some (fmul (float_of_decimal ip fp) f_1000)
       | None => plain
       end
  else plain.

Definition _compare_numeric_values (value1 value2 : ClauseValue) : Cmp bool :=
  let num1 := extract_number value1 in
  let num2 := extract_number value2 in
  put "parsed_num1" (opt_dval DFloat num1) ;;;
  put "parsed_num2" (opt_dval DFloat num2) ;;;
  match num1, num2 with
  | Some n1, Some n2 =>
      let is_different := negb (feqb n1 n2) in
      (if is_different
       then put "difference" (DFloat (fabs (fsub n1 n2))) ;;;
            let! q := lift (fdiv (fabs (fsub n1 n2)) (fmax n1 n2)) in
            put "percentage_diff" (DFloat (fmul q f_100))
       else ret tt) ;;;
      ret is_different
  | _, _ =>
      ret (negb (String.eqb (strip (py_str value1)) (strip (py_str value2))))
  end.

Definition _compare_datetime_values (value1 value2 : ClauseValue) : Cmp bool :=
  let normalized1 := Re.sub Re.whitespace_run " " (lower (strip (py_str value1))) in
  let normalized2 := Re.sub Re.whitespace_run " " (lower (strip (py_str value2))) in
  let is_different := negb (String.eqb normalized1 normalized2) in
  put "normalized1" (DStr normalized1) ;;;
  put "normalized2" (DStr normalized2) ;;;
  ret is_different.

Definition _compare_text_exact (value1 value2 : ClauseValue) : Cmp bool :=
  let normalized1 := lower (strip (py_str value1)) in
  let normalized2 := lower (strip (py_str value2)) in
  let is_different := negb (String.eqb normalized1 normalized2) in
  let similarity := _calculate_text_similarity normalized1 normalized2 in
  put "normalized1" (DStr normalized1) ;;;
  put "normalized2" (DStr normalized2) ;;;
  put "similarity_score" (DFloat similarity) ;;;
  ret is_different.

(** The order in which [list(a_set)] lists a set is not fixed by Python;
    the evidence lists below use the order of [elements]. *)
Definition _compare_date_lists (value1 value2 : ClauseValue) : Cmp bool :=
  match value1, value2 with
  | VList l1, VList l2 =>
      let set1 : gset string := list_to_set (map (fun v => lower (strip v)) l1) in
      let set2 : gset string := list_to_set (map (fun v => lower (strip v)) l2) in
      let is_different := negb (bool_decide (set1 = set2)) in
      put "common_dates" (DStrList (elements (set1 ∩ set2))) ;;;
      put "unique_to_doc1" (DStrList (elements (set1 ∖ set2))) ;;;
      put "unique_to_doc2" (DStrList (elements (set2 ∖ set1))) ;;;
      ret is_different
  | _, _ => _compare_text_exact value1 value2
  end.

Definition key_term_pattern : Re.matcher :=
  Re.bounded_words false
    ["terminate"; "end"; "dismiss"; "cause"; "notice"; "party"].

Definition conflicting_pairs : list (string * string) :=
  [ ("with", "without"); ("cause", "no cause");
    ("immediate", "notice"); ("either", "employer only") ].

(** The [for term1, term2 in conflicting_pairs] loop: the first pair that
    cross-matches, if any. *)
Definition find_conflict (text1 text2 : string) : option (string * string) :=
  Re.first_some
    (fun '(term1, term2) =>
       if (contains term1 text1 && contains term2 text2)
          || (contains term2 text1 && contains term1 text2)
       then Some (term1, term2) else None)
    conflicting_pairs.

Definition _compare_text_semantic (value1 value2 : ClauseValue) : Cmp bool :=
  let text1 := strip (lower (py_str value1)) in
  let text2 := strip (lower (py_str value2)) in
  let key_terms1 : gset string := list_to_set (Re.findall key_term_pattern text1) in
  let key_terms2 : gset string := list_to_set (Re.findall key_term_pattern text2) in
  let conflict := find_conflict text1 text2 in
  let has_conflict := match conflict with Some _ => true | None => false end in
  match conflict with
  | Some (term1, term2) => put "conflicting_terms" (DStrPair term1 term2)
  | None => ret tt
  end ;;;
  put "key_terms1" (DStrList (elements key_terms1)) ;;;
  put "key_terms2" (DStrList (elements key_terms2)) ;;;
  put "semantic_conflict" (DBool has_conflict) ;;;
  if has_conflict then ret has_conflict
  else
    let similarity := _calculate_text_similarity text1 text2 in
    put "similarity_score" (DFloat similarity) ;;;
    ret (fltb similarity f_0_5).

(** The [if/elif] chain of [_compare_clause_values], inside its [try]. *)
Definition select_comparator (comparison_type : string)
  : ClauseValue -> ClauseValue -> Cmp bool :=
  if String.eqb comparison_type "time_duration" then _compare_time_durations
  else if String.eqb comparison_type "time_range" then _compare_time_ranges
  else if String.eqb comparison_type "numeric" then _compare_numeric_values
  else if String.eqb comparison_type "datetime" then _compare_datetime_values
  else if String.eqb comparison_type "date_list" then _compare_date_lists
  else if String.eqb comparison_type "text_semantic" then _compare_text_semantic
  else _compare_text_exact.

Definition initial_details (value1 value2 : ClauseValue)
           (comparison_type : string) : Details :=
  [ ("comparison_type", DStr comparison_type);
    ("value1", DStr (py_str value1));
    ("value2", DStr (py_str value2)) ].

Definition _compare_clause_values (value1 value2 : ClauseValue)
           (comparison_type : string) : bool * Details :=
  let details := initial_details value1 value2 comparison_type in
  match select_comparator comparison_type value1 value2 details with
  | (Return is_contradiction, details) => (is_contradiction, details)
  | (Raise e, details) => (false, PyDict.set "error" (DStr (exn_str e)) details)
  end.

(** ** Grouping, pairwise detection and ordering *)

(** A parsed document: a dictionary whose keys may be absent. *)
Record Document : Type := {
  doc_filename : option string;
  doc_doc_id : option Z;
  doc_file_path : option string;
  doc_clauses : option (list (string * ClauseValue))
}.

Record ClauseInstance : Type := {
  filename : string;
  doc_id : option Z;
  file_path : option string;
  value : ClauseValue;
  clause_type : string
}.

Record DocumentRef : Type := {
  ref_filename : string;
  ref_doc_id : option Z;
  ref_value : ClauseValue
}.

Record Contradiction : Type := {
  c_clause_type : string;
  c_severity : string;
  c_description : string;
  c_documents : list DocumentRef;
  c_details : Details;
  c_summary : string;
  c_id : option nat          (* absent until [_prioritize_contradictions] *)
}.

(** [clause_groups[clause_type].append(instance)] on a [defaultdict(list)] *)
Fixpoint group_append (k : string) (x : ClauseInstance)
         (groups : list (string * list ClauseInstance))
  : list (string * list ClauseInstance) :=
  match groups with
  | [] => [(k, [x])]
  | (k', l) :: groups' =>
      if String.eqb k k' then (k', (l ++ [x])%list) :: groups'
      else (k', l) :: group_append k x groups'
  end.

Definition _group_clauses_by_type (documents : list Document)
  : list (string * list ClauseInstance) :=
  fold_left
    (fun clause_groups doc =>
       let filename := default "unknown" (doc_filename doc) in
       let clauses := default [] (doc_clauses doc) in
       fold_left
         (fun clause_groups '(clause_type, clause_value) =>
            group_append clause_type
              {| filename := filename;
                 doc_id := doc_doc_id doc;
                 file_path := doc_file_path doc;
                 value := clause_value;
                 clause_type := clause_type |}
              clause_groups)
         clauses clause_groups)
    documents [].

Definition _generate_contradiction_summary (clause1 clause2 : ClauseInstance)
           (clause_type : string) : string :=
  title (replace_char "_" " " clause_type)
  ++ ": '" ++ py_str (value clause1) ++ "' in " ++ filename clause1
  ++ " vs '" ++ py_str (value clause2) ++ "' in " ++ filename clause2.

Definition default_rule (clause_type : string) : Rule :=
  {| comparison_type := "text_exact"; rule_severity := "medium";
     rule_description := clause_type ++ " values differ between documents" |}.

(** The pairs [(l[i], l[j])], [i < j], in the order of the two nested
    [for] loops. *)
Fixpoint index_pairs {A : Type} (l : list A) : list (A * A) :=
  match l with
  | [] => []
  | x :: l' => (map (pair x) l' ++ index_pairs l')%list
  end.

Definition _detect_clause_contradictions (clause_type : string)
           (clause_instances : list ClauseInstance) : list Contradiction :=
  let rules := default (default_rule clause_type)
                       (PyDict.get clause_type contradiction_rules) in
  flat_map
    (fun '(clause1, clause2) =>
       let '(is_contradiction, details) :=
         _compare_clause_values (value clause1) (value clause2)
                                (comparison_type rules) in
       if is_contradiction
       then [ {| c_clause_type := clause_type;
                 c_severity := rule_severity rules;
                 c_description := rule_description rules;
                 c_documents :=
                   [ {| ref_filename := filename clause1;
                        ref_doc_id := doc_id clause1;
                        ref_value := value clause1 |};
                     {| ref_filename := filename clause2;
                        ref_doc_id := doc_id clause2;
                        ref_value := value clause2 |} ];
                 c_details := details;
                 c_summary :=
                   _generate_contradiction_summary clause1 clause2 clause_type;
                 c_id := None |} ]
       else [])
    (index_pairs clause_instances).

Definition severity_order : list (string * nat) :=
  [ ("critical", 0%nat); ("high", 1%nat); ("medium", 2%nat); ("low", 3%nat) ].

(** The sort key [(severity_order.get(x["severity"], 3), x["clause_type"])] *)
Definition sort_key (x : Contradiction) : nat * string :=
  (default 3%nat (PyDict.get (c_severity x) severity_order), c_clause_type x).

(** Tuple comparison [k1 <= k2]: by rank, then by the clause-type strings,
    which Python compares code point by code point. *)
Definition key_leb (k1 k2 : nat * string) : bool :=
  (fst k1 <? fst k2)%nat
  || ((fst k1 =? fst k2)%nat && String.leb (snd k1) (snd k2)).

(** [list.sort(key=...)] is a stable sort: an element goes before the
    first one with a strictly larger key that follows it. *)
Fixpoint sort_insert (x : Contradiction) (l : list Contradiction)
  : list Contradiction :=
  match l with
  | [] => [x]
  | y :: l' =>
      if key_leb (sort_key x) (sort_key y) then x :: y :: l'
      else y :: sort_insert x l'
  end.

Fixpoint stable_sort (l : list Contradiction) : list Contradiction :=
  match l with
  | [] => []
  | x :: l' => sort_insert x (stable_sort l')
  end.

(** [for i, contradiction in enumerate(contradictions, start)] *)
Fixpoint assign_ids (start : nat) (l : list Contradiction) : list Contradiction :=
  match l with
  | [] => []
  | x :: l' =>
      {| c_clause_type := c_clause_type x;
         c_severity := c_severity x;
         c_description := c_description x;
         c_documents := c_documents x;
         c_details := c_details x;
         c_summary := c_summary x;
         c_id := Some start |} :: assign_ids (S start) l'
  end.

Definition _prioritize_contradictions (contradictions : list Contradiction)
  : list Contradiction :=
  assign_ids 1 (stable_sort contradictions).

(** The contradictions accumulated by the loop over [clause_groups],
    before they are ordered. *)
Definition accumulate_contradictions
           (clause_groups : list (string * list ClauseInstance))
  : list Contradiction :=
  flat_map
    (fun '(clause_type, clause_instances) =>
       if (2 <=? length clause_instances)%nat
       then _detect_clause_contradictions clause_type clause_instances
       else [])
    clause_groups.

Definition detect_contradictions (documents : list Document)
  : list Contradiction :=
  if (length documents <? 2)%nat then []
  else
    let clause_groups := _group_clauses_by_type documents in
    let contradictions := accumulate_contradictions clause_groups in
    _prioritize_contradictions contradictions.

(** The calls of [_compare_clause_values] that [detect_contradictions]
    makes, in order: same control flow, recording the arguments. *)
Definition comparisons_performed (documents : list Document)
  : list (ClauseValue * ClauseValue * string) :=
  if (length documents <? 2)%nat then []
  else
    flat_map
      (fun '(clause_type, clause_instances) =>
         if (2 <=? length clause_instances)%nat
         then
           let rules := default (default_rule clause_type)
                                (PyDict.get clause_type contradiction_rules) in
           map (fun '(clause1, clause2) =>
                  (value clause1, value clause2, comparison_type rules))
               (index_pairs clause_instances)
         else [])
      (_group_clauses_by_type documents).

(** ** The report *)

Record Report : Type := {
  r_summary : string;
  r_total_contradictions : nat;
  r_by_severity : list (string * nat);
  r_by_clause_type : list (string * nat);
  r_recommendations : list string;
  r_most_critical : option Contradiction   (* no such key in the empty report *)
}.

(** [counts[k] += 1] on a [defaultdict(int)] *)
Definition count_up (k : string) (counts : list (string * nat))
  : list (string * nat) :=
  PyDict.set k (default 0%nat (PyDict.get k counts) + 1)%nat counts.

(** Reading [counts[k]] on a [defaultdict(int)]: a missing key is
    inserted with the value 0. *)
Definition read_count (k : string) (counts : list (string * nat))
  : nat * list (string * nat) :=
  match PyDict.get k counts with
  | Some n => (n, counts)
  | None => (0%nat, PyDict.set k 0%nat counts)
  end.

Definition generate_contradiction_report (contradictions : list Contradiction)
  : Report :=
  match contradictions with
  | [] =>
      {| r_summary := "No contradictions found";
         r_total_contradictions := 0;
         r_by_severity := [];
         r_by_clause_type := [];
         r_recommendations := [];
         r_most_critical := None |}
  | first :: _ =>
      (* Count by severity *)
      let '(by_severity, by_clause_type) :=
        fold_left
          (fun '(by_severity, by_clause_type) contradiction =>
             (count_up (c_severity contradiction) by_severity,
              count_up (c_clause_type contradiction) by_clause_type))
          contradictions ([], []) in
      (* Generate recommendations *)
      let '(critical, by_severity) := read_count "critical" by_severity in
      let recommendations1 :=
        if (0 <? critical)%nat
        then ["Address critical contradictions immediately, especially salary or legal terms"]
        else [] in
      let '(high, by_severity) := read_count "high" by_severity in
      let recommendations2 :=
        if (0 <? high)%nat
        then ["Review high-priority contradictions that may affect contract validity"]
        else [] in
      let '(notice_period, by_clause_type) := read_count "notice_period" by_clause_type in
      let recommendations3 :=
        if (0 <? notice_period)%nat
        then ["Standardize notice period requirements across all documents"]
        else [] in
      let '(working_hours, by_clause_type) := read_count "working_hours" by_clause_type in
      let recommendations4 :=
        if (0 <? working_hours)%nat
        then ["Align working hours specifications in all relevant documents"]
        else [] in
      {| r_summary :=
           "Found " ++ of_nat (length contradictions)
           ++ " contradiction(s) across documents";
         r_total_contradictions := length contradictions;
         r_by_severity := by_severity;
         r_by_clause_type := by_clause_type;
         r_recommendations :=
           (recommendations1 ++ recommendations2
            ++ recommendations3 ++ recommendations4)%list;
         r_most_critical := Some first |}
  end.

End ContradictionDetector.

(* ===================================================================== *)
(** * clause_parser.py                                                    *)
(* ===================================================================== *)

Module ClauseParser.
Import PyStr PyNum.

(** [\b(thirty|30)\b] and its three siblings, under [re.IGNORECASE]. *)
Definition number_word (word digits : string) : Re.matcher :=
  Re.bounded_words true [word; digits].

Definition _clean_text (text : string) : string :=
  (* Remove excessive whitespace *)
  let text := Re.sub Re.whitespace_run " " text in
  (* Remove page separators *)
  let text := Re.sub Re.page_marker "" text in
  (* Normalize common variations *)
  let text := Re.sub (number_word "thirty" "30") "30" text in
  let text := Re.sub (number_word "sixty" "60") "60" text in
  let text := Re.sub (number_word "ninety" "90") "90" text in
  let text := Re.sub (number_word "fourteen" "14") "14" text in
  strip text.

Definition written_numbers : list (string * string) :=
  [ ("fourteen", "14"); ("thirty", "30"); ("sixty", "60"); ("ninety", "90") ].

(** The loop over [written_numbers] of [_extract_notice_period]: the
    first word found in the text decides, when a unit is found too. *)
Definition written_notice (text : string) : option string :=
  Re.first_some
    (fun '(word, num) =>
       if contains word (lower text)
       then if contains "day" (lower text) then Some (num ++ " days")
            else if contains "week" (lower text) then Some (num ++ " weeks")
            else if contains "month" (lower text) then Some (num ++ " months")
            else None
       else None)
    written_numbers.

Definition _extract_notice_period (text : string) : outcome string :=
  match Re.search Re.duration text with
  | Some (number, unit) =>
      match int_of_digits number with
      | Raise e => Raise e
      | Return n =>
          let unit :=
            rstrip_chars (Ascii.eqb "s") (lower unit)
            ++ (if (1 <? n)%Z then "s" else "") in
          Return (number ++ " " ++ unit)
      end
  | None =>
      match written_notice text with
      | Some r => Return r
      | None => Return (strip text)
      end
  end.

(** [_extract_working_hours].  The periods are texts matched by
    [(am|pm)], so [.upper()] only meets ASCII letters. *)
Definition _extract_working_hours (text : string) : string :=
  (* Look for time patterns like "9 AM to 5 PM" *)
  match Re.search Re.time_range text with
  | Some (start_hour, start_period, end_hour, end_period) =>
      start_hour ++ " " ++ map_chars upper_ascii start_period
      ++ " to " ++ end_hour ++ " " ++ map_chars upper_ascii end_period
  | None =>
      (* Look for 24-hour format *)
      match Re.search Re.clock_range text with
      | Some m => m
      | None => strip text
      end
  end.

(** [_post_process_clauses]: the loop body, then the loop. *)
Definition post_process_entry (processed : list (string * ClauseValue))
           (key : string) (value : ClauseValue) : list (string * ClauseValue) :=
  match value with
  | VStr value =>
      let value := strip value in
      let value := Re.sub Re.whitespace_run " " value in
      if (String.length value <? 2)%nat || (200 <? String.length value)%nat
      then processed
      else PyDict.set key (VStr value) processed
  | VList value =>
      let cleaned_list :=
        map strip
            (List.filter (fun v => negb (String.eqb (strip v) "")
                              && (2 <? String.length (strip v))%nat) value) in
      match cleaned_list with
      | [] => processed
      | _ => PyDict.set key (VList cleaned_list) processed
      end
  end.

Definition _post_process_clauses (clauses : list (string * ClauseValue))
  : list (string * ClauseValue) :=
  fold_left (fun processed '(key, value) => post_process_entry processed key value)
            clauses [].

End ClauseParser.

(* ===================================================================== *)
(** * Predicates used in the statements                                   *)
(* ===================================================================== *)

Module Vocabulary.
Import PyStr PyNum.

(** A double that is neither negative nor a NaN. *)
Definition nonneg (x : spec_float) : Prop :=
  match x with
  | S754_zero false | S754_infinity false | S754_finite false _ _ => True
  | _ => False
  end.

(** The boolean a comparator run ends with once [_compare_clause_values]
    has caught its exception. *)
Definition verdict (r : outcome bool * Details) : bool :=
  match r with
  | (Return b, _) => b
  | (Raise _, _) => false
  end.

Definition severity_and_id (x : ContradictionDetector.Contradiction)
  : string * option nat :=
  (ContradictionDetector.c_severity x, ContradictionDetector.c_id x).

(** One alternative of the unit group, with its optional plural. *)
Definition unit_alternative (w s : string) : option string :=
  match strip_prefix_ci w s with
  | Some r =>
      match strip_prefix_ci "s" r with
      | Some _ => Some (take (S (String.length w)) s)
      | None => Some (take (String.length w) s)
      end
  | None => None
  end.

(** The unit written by [_extract_notice_period], before the plural. *)
Definition singular (unit : string) : string :=
  rstrip_chars (Ascii.eqb "s") (lower unit).

(** What [_post_process_clauses] keeps of one value, if anything. *)
Definition surviving (value : ClauseValue) : option ClauseValue :=
  match value with
  | VStr s =>
      let s' := Re.sub Re.whitespace_run " " (strip s) in
      if (2 <=? String.length s')%nat && (String.length s' <=? 200)%nat
      then Some (VStr s') else None
  | VList l =>
      match map strip (List.filter (fun v => (2 <? String.length (strip v))%nat) l) with
      | [] => None
      | l' => Some (VList l')
      end
  end.

(** [P] holds at every position of the text [s], each position seen as
    the character before it and the text from it on. *)
Fixpoint everywhere (P : option ascii -> string -> Prop)
         (prev : option ascii) (s : string) : Prop :=
  P prev s /\
  match s with
  | "" => True
  | String c s' => everywhere P (Some c) s'
  end.

(** A blank is the space character: nothing else of the class [\s]. *)
Definition plain_blank (c : ascii) : bool :=
  negb (is_space c) || Ascii.eqb c " ".

(** The text with every maximal run [w] of word characters replaced by
    [f w].  [in_word] says that the text continues a word begun before it,
    which is then left as it is; [fuel] bounds the number of steps. *)
Fixpoint map_words (f : string -> string) (fuel : nat) (in_word : bool)
         (s : string) : string :=
  match fuel with
  | O => ""
  | S fuel' =>
      match s with
      | "" => ""
      | String c s' =>
          if is_word c
          then (if in_word then fst (span is_word s) else f (fst (span is_word s)))
               ++ map_words f fuel' false (snd (span is_word s))
          else String c (map_words f fuel' false s')
      end
  end.

(** What the substitution of [\b(word|digits)\b] by [digits], case
    ignored, does to a whole word. *)
Definition rewrite_word (word digits : string) (w : string) : string :=
  if String.eqb (lower w) word || String.eqb (lower w) digits then digits else w.

Definition word_map (f : string -> string) (s : string) : string :=
  map_words f (String.length s) false s.

(** The four substitutions of [_clean_text] on one word. *)
Definition number_words (w : string) : string :=
  rewrite_word "fourteen" "14"
    (rewrite_word "ninety" "90"
       (rewrite_word "sixty" "60" (rewrite_word "thirty" "30" w))).

(** The first run [map_words] writes for a word. *)
Definition written (f : string -> string) (b : bool) (w : string) : string :=
  if b then w else f w.

(** One alternative of a bounded pattern, then the closing boundary. *)
Definition alternative (prev : option ascii) (s : string) (v : string) : option nat :=
  match strip_prefix_ci v s with
  | Some r =>
      if Re.word_boundary (prev_at (String.length v) prev s) r
      then Some (String.length v) else None
  | None => None
  end.

(** A non-empty run of word characters. *)
Definition wordy (w : string) : Prop := all_chars is_word w = true /\ w <> "".

(** The loop body of [_post_process_clauses] on one item. *)
Definition post_process_step (processed : list (string * ClauseValue))
           (item : string * ClauseValue) : list (string * ClauseValue) :=
  let '(key, value) := item in ClauseParser.post_process_entry processed key value.

(** Every list stored in a clause dictionary is non-empty and has entries
    of three characters or more. *)
Definition lists_long (processed : list (string * ClauseValue)) : Prop :=
  forall k l, PyDict.get k processed = Some (VList l) ->
              l <> [] /\ Forall (fun e => 3 <= String.length e)%nat l.

(** A comparator run that leaves the entry of key [k] as it found it. *)
Definition untouched {A : Type} (k : string) (c : Cmp A) : Prop :=
  forall d, PyDict.get k (snd (c d)) = PyDict.get k d.

(** The rule [_detect_clause_contradictions] works with for a clause
    type. *)
Definition rule_for (clause_type : string) : ContradictionDetector.Rule :=
  default (ContradictionDetector.default_rule clause_type)
          (PyDict.get clause_type ContradictionDetector.contradiction_rules).

(** The clause instances of a document, then of all documents, in the
    order [_group_clauses_by_type] meets them. *)
Definition instances_of (doc : ContradictionDetector.Document)
  : list ContradictionDetector.ClauseInstance :=
  map (fun '(clause_type, clause_value) =>
         {| ContradictionDetector.filename :=
              default "unknown" (ContradictionDetector.doc_filename doc);
            ContradictionDetector.doc_id := ContradictionDetector.doc_doc_id doc;
            ContradictionDetector.file_path := ContradictionDetector.doc_file_path doc;
            ContradictionDetector.value := clause_value;
            ContradictionDetector.clause_type := clause_type |})
      (default [] (ContradictionDetector.doc_clauses doc)).

Definition all_instances (documents : list ContradictionDetector.Document)
  : list ContradictionDetector.ClauseInstance :=
  flat_map instances_of documents.

Definition of_type (k : string) (x : ContradictionDetector.ClauseInstance) : bool :=
  String.eqb k (ContradictionDetector.clause_type x).

(** The entry of the [documents] list written for a clause instance. *)
Definition reference (x : ContradictionDetector.ClauseInstance)
  : ContradictionDetector.DocumentRef :=
  {| ContradictionDetector.ref_filename := ContradictionDetector.filename x;
     ContradictionDetector.ref_doc_id := ContradictionDetector.doc_id x;
     ContradictionDetector.ref_value := ContradictionDetector.value x |}.

(** The comparison [_detect_clause_contradictions] makes of two
    instances of the clause type [k], and the number of pairs of a group
    on which it returns [True]. *)
Definition instances_differ (k : string)
           (x y : ContradictionDetector.ClauseInstance) : bool :=
  fst (ContradictionDetector._compare_clause_values
         (ContradictionDetector.value x) (ContradictionDetector.value y)
         (ContradictionDetector.comparison_type (rule_for k))).

Definition differing_pairs (k : string)
           (l : list ContradictionDetector.ClauseInstance) : nat :=
  length (List.filter (fun '(x, y) => instances_differ k x y)
                      (ContradictionDetector.index_pairs l)).

(** A contradiction as it was before it got its id. *)
Definition without_id (x : ContradictionDetector.Contradiction)
  : ContradictionDetector.Contradiction :=
  {| ContradictionDetector.c_clause_type := ContradictionDetector.c_clause_type x;
     ContradictionDetector.c_severity := ContradictionDetector.c_severity x;
     ContradictionDetector.c_description := ContradictionDetector.c_description x;
     ContradictionDetector.c_documents := ContradictionDetector.c_documents x;
     ContradictionDetector.c_details := ContradictionDetector.c_details x;
     ContradictionDetector.c_summary := ContradictionDetector.c_summary x;
     ContradictionDetector.c_id := None |}.

(** The contradiction has the sort key [k]. *)
Definition has_key (k : nat * string) (x : ContradictionDetector.Contradiction) : bool :=
  (fst k =? fst (ContradictionDetector.sort_key x))%nat
  && String.eqb (snd k) (snd (ContradictionDetector.sort_key x)).

Definition with_severity (k : string) (x : ContradictionDetector.Contradiction) : bool :=
  String.eqb k (ContradictionDetector.c_severity x).

Definition with_clause_type (k : string) (x : ContradictionDetector.Contradiction)
  : bool :=
  String.eqb k (ContradictionDetector.c_clause_type x).

(** What a counter dictionary of the report answers for the key [k]
    when [n] contradictions fall under it: keys the code reads are
    present even with the count 0, other keys only when counted. *)
Definition counter_entry (read : bool) (n : nat) : option nat :=
  if read then Some n
  else match n with O => None | _ => Some n end.

(** The comparison is one that reports a difference. *)
Definition differs (c : ClauseValue * ClauseValue * string) : bool :=
  let '(value1, value2, comparison_type) := c in
  fst (ContradictionDetector._compare_clause_values value1 value2 comparison_type).

(** A text [\d{1,2}] can match: one digit or two. *)
Definition hour_text (h : string) : Prop :=
  (exists a, h = String a "" /\ is_digit a = true)
  \/ (exists a b, h = String a (String b "")
                  /\ is_digit a = true /\ is_digit b = true).

(** The days [parse_duration] counts for one unit, given in the
    singular. *)
Definition days_in (unit : string) : Z :=
  if String.eqb unit "day" then 1%Z
  else if String.eqb unit "week" then 7%Z
  else 30%Z.

(** A comparator run that ends without an exception. *)
Definition returns {A : Type} (c : Cmp A) : Prop :=
  forall d, exists a, fst (c d) = Return a.

(** The keys the comparators write into the evidence. *)
Definition evidence_keys : list string :=
  [ "parsed_days1"; "parsed_days2"; "difference_days";
    "parsed_range1"; "parsed_range2"; "start_time_diff"; "end_time_diff";
    "parsed_num1"; "parsed_num2"; "difference"; "percentage_diff";
    "normalized1"; "normalized2"; "similarity_score";
    "common_dates"; "unique_to_doc1"; "unique_to_doc2";
    "conflicting_terms"; "key_terms1"; "key_terms2"; "semantic_conflict" ].

(** The number matched by the duration pattern has more digits than
    [int] accepts. *)
Definition overlong_number (v : ClauseValue) : bool :=
  match Re.search Re.duration (py_str v) with
  | Some (number, _) => (int_max_str_digits <? String.length number)%nat
  | None => false
  end.

(** [c * n] *)
Fixpoint repeat_char (c : ascii) (n : nat) : string :=
  match n with
  | O => ""
  | S k => String c (repeat_char c k)
  end.

(** The order of [_prioritize_contradictions]: sort keys compared as
    Python compares the tuples. *)
Definition priority_le (x y : ContradictionDetector.Contradiction) : Prop :=
  ContradictionDetector.key_leb (ContradictionDetector.sort_key x)
                                (ContradictionDetector.sort_key y) = true.

End Vocabulary.

(** Concrete inputs used as examples and witnesses. *)
Module Examples.
Import Vocabulary ContradictionDetector.

(** A notice period written with 4301 digits: [int] refuses it. *)
Definition overlong_notice : ClauseValue :=
  VStr (repeat_char "1" 4301 ++ " days").

(** Two documents with the same termination clause, a text the regex
    recogniser of the parser produces. *)
Definition identical_documents : list Document :=
  [ {| doc_filename := Some "doc1.txt"; doc_doc_id := Some 1%Z;
       doc_file_path := None;
       doc_clauses := Some [("termination_clause", VStr "dismissal without cause")] |};
    {| doc_filename := Some "doc2.txt"; doc_doc_id := Some 2%Z;
       doc_file_path := None;
       doc_clauses := Some [("termination_clause", VStr "dismissal without cause")] |} ].

Definition salary_forms : list ClauseValue :=
  [VStr "$75,000"; VStr "75000"; VStr "75K"].

Definition document (name : string) (clauses : list (string * ClauseValue))
  : Document :=
  {| doc_filename := Some name; doc_doc_id := None; doc_file_path := None;
     doc_clauses := Some clauses |}.

(** Two documents that share no clause type. *)
Definition unrelated_documents : list Document :=
  [ document "offer.pdf" [("salary", VStr "$75,000")];
    document "handbook.pdf" [("working_hours", VStr "9 AM to 5 PM")] ].

(** Two contracts that disagree on working hours (medium), salary
    (critical) and notice period (high), the clauses in that order. *)
Definition two_contracts : list Document :=
  [ document "contract1.pdf"
      [ ("working_hours", VStr "9 AM to 5 PM"); ("salary", VStr "$75,000");
        ("notice_period", VStr "30 days") ];
    document "contract2.pdf"
      [ ("working_hours", VStr "8 AM to 6 PM"); ("salary", VStr "$80,000");
        ("notice_period", VStr "2 weeks") ] ].

(** Extracted clauses with a 2-character salary, a 1-character deadline
    and a date list holding a 2-character entry. *)
Definition short_clauses : list (string * ClauseValue) :=
  [ ("salary", VStr " $5 "); ("deadline", VStr "x");
    ("important_dates", VList ["x1"; " 1/2/24 "; "  "]) ].

Definition bare_contradiction (clause_type severity : string) : Contradiction :=
  {| c_clause_type := clause_type; c_severity := severity; c_description := "";
     c_documents := []; c_details := []; c_summary := ""; c_id := None |}.

End Examples.

(* ===================================================================== *)
(** * Facts about binary64 values                                         *)
(* ===================================================================== *)

Module FloatFacts.
Import PyNum Vocabulary.

Lemma iter_pos_invariant {A : Type} (P : A -> Prop) (f : A -> A) :
  (forall x, P x -> P (f x)) ->
  forall (p : positive) (x : A), P x -> P (SpecFloat.iter_pos f p x).
Proof.
  intros Hf. induction p as [p IH | p IH |]; intros x Hx; simpl; auto.
Qed.

Lemma shr_1_nonneg (mrs : shr_record) :
  (0 <= shr_m mrs)%Z -> (0 <= shr_m (shr_1 mrs))%Z.
Proof.
  destruct mrs as [m r s]. simpl.
  destruct m as [| [p | p |] | [p | p |]]; simpl; lia.
Qed.

Lemma shr_nonneg (mrs : shr_record) (e n : Z) :
  (0 <= shr_m mrs)%Z -> (0 <= shr_m (fst (shr mrs e n)))%Z.
Proof.
  intros H. destruct n; simpl; auto.
  apply (iter_pos_invariant (fun x => (0 <= shr_m x)%Z)); auto using shr_1_nonneg.
Qed.

Lemma shr_fexp_nonneg (m e : Z) (l : location) :
  (0 <= m)%Z -> (0 <= shr_m (fst (shr_fexp prec emax m e l)))%Z.
Proof.
  intros H. unfold shr_fexp. apply shr_nonneg.
  destruct l as [| []]; simpl; exact H.
Qed.

Lemma round_nearest_even_nonneg (m : Z) (l : location) :
  (0 <= m)%Z -> (0 <= round_nearest_even m l)%Z.
Proof.
  intros H. destruct l as [| []]; simpl; try lia.
  destruct (Z.even m); lia.
Qed.

Lemma binary_round_aux_nonneg (mx ex : Z) (lx : location) :
  (0 <= mx)%Z -> nonneg (binary_round_aux prec emax false mx ex lx).
Proof.
  intros H. unfold binary_round_aux.
  pose proof (shr_fexp_nonneg mx ex lx H) as H1.
  destruct (shr_fexp prec emax mx ex lx) as [mrs' e'] eqn:E1. simpl in H1.
  pose proof (shr_fexp_nonneg _ e' loc_Exact
                (round_nearest_even_nonneg _ (loc_of_shr_record mrs') H1)) as H2.
  destruct (shr_fexp prec emax (round_nearest_even _ _) e' loc_Exact)
    as [mrs'' e''] eqn:E2.
  simpl in H2.
  destruct (shr_m mrs'') as [| p | p]; simpl; auto; try lia.
  destruct (e'' <=? emax - prec)%Z; simpl; auto.
Qed.

Lemma div_core_nonneg (n d : Z) :
  (0 <= n)%Z -> (0 < d)%Z ->
  (0 <= fst (fst (SFdiv_core_binary prec emax n 0 d 0)))%Z.
Proof.
  intros Hn Hd. unfold SFdiv_core_binary.
  set (s := (0 - 0 - _)%Z).
  set (m' := match s with Zpos _ => Z.shiftl n s | Z0 => n | Zneg _ => 0%Z end).
  assert (Hm : (0 <= m')%Z).
  { subst m'. destruct s; try lia. apply Z.shiftl_nonneg. exact Hn. }
  pose proof (Z.div_pos m' d Hm Hd) as Hq.
  unfold Z.div in Hq.
  destruct (Z.div_eucl m' d) as [q r]. simpl in *. exact Hq.
Qed.

Lemma float_of_ratio_nonneg (n d : Z) :
  (0 <= n)%Z -> (0 < d)%Z -> nonneg (float_of_ratio n d).
Proof.
  intros Hn Hd. unfold float_of_ratio.
  destruct n as [| p | p]; [exact I | | lia].
  pose proof (div_core_nonneg (Zpos p) d Hn Hd) as H.
  destruct (SFdiv_core_binary prec emax (Zpos p) 0 d 0) as [[mz ez] lz].
  simpl in H. apply binary_round_aux_nonneg. exact H.
Qed.

Lemma fmul_nonneg (x y : spec_float) :
  nonneg x -> nonneg y -> y = f_1000 -> nonneg (fmul x y).
Proof.
  intros Hx _ ->.
  destruct x as [[] | [] | | [] m e]; simpl in Hx; try contradiction;
    try exact I.
  unfold fmul, f_1000. 
  change (float_of_Z 1000) with (S754_finite false 8796093022208000 (-43)).
  cbn [SFmul xorb]. apply binary_round_aux_nonneg. lia.
Qed.

Lemma feqb_refl (x : spec_float) : nonneg x -> feqb x x = true.
Proof.
  destruct x as [[] | [] | | [] m e]; simpl; try contradiction; auto.
  intros _. unfold feqb, SFeqb. cbn [SFcompare].
  rewrite Z.compare_refl. 
  replace (Pos.compare_cont Eq m m) with (Pos.compare m m) by reflexivity.
  rewrite Pos.compare_refl. reflexivity.
Qed.

Lemma feqb_sym (x y : spec_float) : nonneg x -> nonneg y -> feqb x y = feqb y x.
Proof.
  destruct x as [[] | [] | | [] m e]; simpl; try contradiction;
    destruct y as [[] | [] | | [] m' e']; simpl; try contradiction; auto.
  intros _ _. unfold feqb, SFeqb. cbn [SFcompare].
  rewrite (Z.compare_antisym e e').
  replace (Pos.compare_cont Eq m m') with (Pos.compare m m') by reflexivity.
  replace (Pos.compare_cont Eq m' m) with (Pos.compare m' m) by reflexivity.
  rewrite (Pos.compare_antisym m m').
  destruct (e ?= e')%Z; simpl; auto.
  destruct (m ?= m')%positive; auto.
Qed.

Lemma fmax_not_zero (x y : spec_float) :
  nonneg x -> nonneg y -> feqb x y = false -> is_zero (fmax x y) = false.
Proof.
  destruct x as [[] | [] | | [] m e]; simpl; try contradiction;
    destruct y as [[] | [] | | [] m' e']; simpl; try contradiction;
    intros _ _; unfold fmax, fltb, SFltb, feqb, SFeqb; cbn [SFcompare];
    try discriminate; try reflexivity.
  intros _.
  destruct (match (e ?= e')%Z with Eq => Pos.compare_cont Eq m m' | Lt => Lt | Gt => Gt end);
    reflexivity.
Qed.

Lemma float_of_ratio_same (n : Z) : (0 < n)%Z -> float_of_ratio n n = f_1_0.
Proof.
  intros Hn. destruct n as [| p | p]; try lia.
  assert (Hdiv : Z.div_eucl (Z.pos p * 2 ^ 53) (Z.pos p) = (2 ^ 53, 0)%Z).
  { pose proof (Z.div_mul (2 ^ 53) (Z.pos p) ltac:(lia)) as Hq.
    pose proof (Z.mod_mul (2 ^ 53) (Z.pos p) ltac:(lia)) as Hr.
    rewrite (Z.mul_comm (2 ^ 53)) in Hq, Hr.
    unfold Z.div, Z.modulo in Hq, Hr.
    destruct (Z.div_eucl (Z.pos p * 2 ^ 53) (Z.pos p)) as [q r].
    simpl in Hq, Hr. congruence. }
  assert (Hcore : SFdiv_core_binary prec emax (Z.pos p) 0 (Z.pos p) 0
                  = (2 ^ 53, -53, loc_Exact)%Z).
  { unfold SFdiv_core_binary.
    replace (Zdigits2 (Z.pos p) + 0 - (Zdigits2 (Z.pos p) + 0))%Z with 0%Z by lia.
    change (Z.min (fexp prec emax 0) (0 - 0)) with (-53)%Z.
    change (0 - 0 - -53)%Z with 53%Z. cbv iota beta.
    rewrite Z.shiftl_mul_pow2 by lia.
    rewrite Hdiv. f_equal.
    unfold new_location, new_location_even, new_location_odd.
    destruct (Z.even (Z.pos p)); reflexivity. }
  unfold float_of_ratio. rewrite Hcore. vm_compute. reflexivity.
Qed.

End FloatFacts.

(* ===================================================================== *)
(** * Facts about strings and matchers                                    *)
(* ===================================================================== *)

Module StrFacts.
Import PyStr PyNum Vocabulary.

Lemma span_all (p : ascii -> bool) (s : string) :
  all_chars p (fst (span p s)) = true.
Proof.
  induction s as [| c s IH]; simpl; auto.
  destruct (p c) eqn:E; simpl; auto.
  destruct (span p s) as [a b]. simpl in *. rewrite E, IH. reflexivity.
Qed.

Lemma digit_value_nonneg (c : ascii) : is_digit c = true -> (0 <= digit_value c)%Z.
Proof.
  unfold is_digit, in_range, digit_value. intros H.
  apply andb_true_iff in H as [H _]. apply N.leb_le in H. lia.
Qed.

Lemma digits_value_go_nonneg (s : string) :
  forall acc, (0 <= acc)%Z -> all_chars is_digit s = true ->
              (0 <= digits_value_go acc s)%Z.
Proof.
  induction s as [| c s IH]; simpl; intros acc Hacc H; auto.
  apply andb_true_iff in H as [Hc Hs].
  apply IH; auto. pose proof (digit_value_nonneg c Hc). lia.
Qed.

Lemma digits_value_nonneg (s : string) :
  all_chars is_digit s = true -> (0 <= digits_value s)%Z.
Proof. apply digits_value_go_nonneg. lia. Qed.

Lemma search_go_some {A : Type} (m : option ascii -> string -> option A) (s : string) :
  forall prev r, Re.search_go m prev s = Some r ->
                 exists prev' s', m prev' s' = Some r.
Proof.
  induction s as [| c s IH]; intros prev r; simpl.
  - destruct (m prev "") eqn:E; [| discriminate].
    intros [= <-]. eauto.
  - destruct (m prev (String c s)) eqn:E.
    + intros [= <-]. eauto.
    + apply IH.
Qed.

Lemma k_number_digits prev s ip fp :
  Re.k_number prev s = Some (ip, fp) ->
  all_chars is_digit ip = true /\ all_chars is_digit fp = true.
Proof.
  unfold Re.k_number.
  pose proof (span_all is_digit s) as H1.
  destruct (span is_digit s) as [[| c ip'] r]; [discriminate |].
  simpl in H1.
  destruct (strip_prefix "." r) as [r' |].
  - pose proof (span_all is_digit r') as H2.
    destruct (span is_digit r') as [[| c' fp'] r''].
    + destruct (strip_prefix_ci "k" (snd (span is_space r))); [| discriminate].
      intros [= <- <-]. auto.
    + simpl in H2.
      destruct (strip_prefix_ci "k" (snd (span is_space r''))).
      * intros [= <- <-]. auto.
      * destruct (strip_prefix_ci "k" (snd (span is_space r))); [| discriminate].
        intros [= <- <-]. auto.
  - destruct (strip_prefix_ci "k" (snd (span is_space r))); [| discriminate].
    intros [= <- <-]. auto.
Qed.

Lemma plain_number_digits prev s ip fp :
  Re.plain_number prev s = Some (ip, fp) ->
  all_chars is_digit ip = true /\ all_chars is_digit fp = true.
Proof.
  unfold Re.plain_number.
  pose proof (span_all is_digit s) as H1.
  destruct (span is_digit s) as [[| c ip'] r]; [discriminate |].
  simpl in H1.
  destruct r as [| dot [| a [| b r']]]; try (intros [= <- <-]; auto; fail).
  destruct (Ascii.eqb dot "." && is_digit a && is_digit b) eqn:E;
    intros [= <- <-]; auto.
  apply andb_true_iff in E as [E Eb]. apply andb_true_iff in E as [_ Ea].
  simpl. rewrite Ea, Eb. auto.
Qed.

Lemma float_of_decimal_nonneg (ip fp : string) :
  all_chars is_digit ip = true -> all_chars is_digit fp = true ->
  nonneg (float_of_decimal ip fp).
Proof.
  intros Hi Hf. unfold float_of_decimal.
  pose proof (digits_value_nonneg ip Hi).
  pose proof (digits_value_nonneg fp Hf).
  assert (0 < 10 ^ Z.of_nat (String.length fp))%Z by (apply Z.pow_pos_nonneg; lia).
  apply FloatFacts.float_of_ratio_nonneg; nia.
Qed.

Lemma string_eqb_sym (a b : string) : String.eqb a b = String.eqb b a.
Proof.
  destruct (String.eqb_spec a b) as [-> | Hne].
  - symmetry. apply String.eqb_refl.
  - symmetry. apply String.eqb_neq. congruence.
Qed.

Lemma rstrip_chars_keeps_one (p : ascii -> bool) (s : string) :
  rstrip_chars p s <> "" ->
  any_char (fun c => negb (p c)) (rstrip_chars p s) = true.
Proof.
  induction s as [| c s IH]; simpl; [congruence |].
  destruct (rstrip_chars p s) as [| c' r] eqn:E.
  - destruct (p c) eqn:Ec; [congruence |]. intros _. simpl. rewrite Ec. reflexivity.
  - intros _. simpl. simpl in IH. rewrite IH by congruence. apply orb_true_r.
Qed.

Lemma split_go_nonempty (s : string) :
  forall cur, cur <> "" \/ any_char (fun c => negb (is_space c)) s = true ->
              split_go cur s <> [].
Proof.
  induction s as [| c s IH]; simpl; intros cur H.
  - destruct H as [H | H]; [| discriminate]. destruct cur; congruence.
  - destruct (is_space c) eqn:Ec; simpl in H.
    + destruct cur as [| c' cur']; [| discriminate].
      apply IH. destruct H as [H | H]; [congruence | auto].
    + apply IH. left. destruct cur; discriminate.
Qed.

Lemma split_strip_nonempty (s : string) : strip s <> "" -> split (strip s) <> [].
Proof.
  intros H. apply split_go_nonempty. right.
  apply (rstrip_chars_keeps_one is_space). exact H.
Qed.

End StrFacts.

Module DictFacts.

Lemma dict_get_set_same {V : Type} (k : string) (v : V) (d : list (string * V)) :
  PyDict.get k (PyDict.set k v d) = Some v.
Proof.
  induction d as [| [k' v'] d IH]; simpl.
  - rewrite String.eqb_refl. reflexivity.
  - destruct (String.eqb k k') eqn:E; simpl; rewrite ?String.eqb_refl, ?E; auto.
Qed.

Lemma dict_get_set_other {V : Type} (k k' : string) (v : V) (d : list (string * V)) :
  k <> k' -> PyDict.get k (PyDict.set k' v d) = PyDict.get k d.
Proof.
  intros Hne. induction d as [| [k0 v0] d IH]; simpl.
  - destruct (String.eqb_spec k k'); [contradiction | reflexivity].
  - destruct (String.eqb_spec k' k0) as [-> | Hk0]; simpl.
    + destruct (String.eqb_spec k k0); [contradiction | reflexivity].
    + destruct (String.eqb_spec k k0); [reflexivity | exact IH].
Qed.

End DictFacts.

(* ===================================================================== *)
(** * Facts about substitution                                            *)
(* ===================================================================== *)

Module SubFacts.
Import PyStr Vocabulary.

#[local] Arguments String.append !s1 s2 / : simpl nomatch.

Lemma take_drop (n : nat) : forall s, take n s ++ drop n s = s.
Proof.
  induction n as [| n IH]; intros [| c s]; simpl; try reflexivity.
  f_equal. apply IH.
Qed.

Lemma append_nil_r (s : string) : s ++ "" = s.
Proof. induction s as [| c s IH]; simpl; [| rewrite IH]; reflexivity. Qed.

Lemma append_assoc (a b c : string) : (a ++ b) ++ c = a ++ (b ++ c).
Proof. induction a as [| x a IH]; simpl; [| rewrite IH]; reflexivity. Qed.

Lemma length_append (a b : string) :
  String.length (a ++ b) = (String.length a + String.length b)%nat.
Proof. induction a as [| x a IH]; simpl; [| rewrite IH]; reflexivity. Qed.

Lemma all_chars_append (p : ascii -> bool) (a b : string) :
  all_chars p (a ++ b) = all_chars p a && all_chars p b.
Proof.
  induction a as [| x a IH]; simpl; [reflexivity |].
  rewrite IH. apply andb_assoc.
Qed.

Lemma everywhere_here P prev s : everywhere P prev s -> P prev s.
Proof. destruct s; simpl; tauto. Qed.

Lemma everywhere_impl (P Q : option ascii -> string -> Prop) :
  (forall prev s, P prev s -> Q prev s) ->
  forall s prev, everywhere P prev s -> everywhere Q prev s.
Proof.
  intros HPQ. induction s as [| c s IH]; intros prev; simpl.
  - intros [H _]. auto.
  - intros [H H']. auto.
Qed.

Section Sub.
Variables (m : Re.matcher) (repl : string).

Lemma sub_go_skip (s : string) :
  forall k prev,
    Re.sub_go m repl k prev s = Re.sub_go m repl 0 (prev_at k prev s) (drop k s).
Proof.
  induction s as [| c s IH]; intros [| k] prev; simpl; auto.
Qed.

Lemma sub_go_match (prev : option ascii) (c : ascii) (s : string) (k : nat) :
  m prev (String c s) = Some (S k) ->
  Re.sub_go m repl 0 prev (String c s)
  = repl ++ Re.sub_go m repl 0 (prev_at k (Some c) s) (drop k s).
Proof.
  intros H. simpl. rewrite H. rewrite sub_go_skip. reflexivity.
Qed.

Lemma sub_go_no_match (prev : option ascii) (c : ascii) (s : string) :
  m prev (String c s) = None ->
  Re.sub_go m repl 0 prev (String c s) = String c (Re.sub_go m repl 0 (Some c) s).
Proof. intros H. simpl. rewrite H. reflexivity. Qed.

(** The characters of the result come from the text or from the
    replacement. *)
Lemma sub_go_all_chars (p : ascii -> bool) (s : string) :
  all_chars p repl = true ->
  forall k prev, all_chars p s = true ->
                 all_chars p (Re.sub_go m repl k prev s) = true.
Proof.
  intros Hr. induction s as [| c s IH]; intros k prev Hs; simpl; auto.
  simpl in Hs. apply andb_true_iff in Hs as [Hc Hs].
  destruct k as [| k]; [| auto].
  destruct (m prev (String c s)) as [[| k] |];
    cbn [all_chars]; rewrite ?all_chars_append, ?Hc, ?Hr; simpl; apply IH; exact Hs.
Qed.

(** Where every match is a copy of the replacement, nothing changes. *)
Lemma sub_go_fixed (s : string) :
  forall k prev,
    everywhere (fun p t => forall n, m p t = Some (S n) -> take (S n) t = repl)
               prev s ->
    Re.sub_go m repl k prev s = drop k s.
Proof.
  induction s as [| c s IH]; intros k prev H; [destruct k; reflexivity |].
  destruct H as [H H']. destruct k as [| k]; simpl.
  - destruct (m prev (String c s)) as [[| n] |] eqn:E.
    + rewrite (IH 0%nat) by exact H'. reflexivity.
    + rewrite (IH n) by exact H'.
      rewrite <- (H n eq_refl). simpl. rewrite take_drop. reflexivity.
    + rewrite (IH 0%nat) by exact H'. reflexivity.
  - apply IH. exact H'.
Qed.

End Sub.

Lemma sub_fixed (m : Re.matcher) (repl s : string) :
  everywhere (fun p t => forall n, m p t = Some (S n) -> take (S n) t = repl) None s ->
  Re.sub m repl s = s.
Proof. intros H. unfold Re.sub. rewrite sub_go_fixed by exact H. reflexivity. Qed.

Lemma search_go_none {A : Type} (m : option ascii -> string -> option A) (s : string) :
  forall prev, Re.search_go m prev s = None ->
               everywhere (fun p t => m p t = None) prev s.
Proof.
  induction s as [| c s IH]; intros prev; simpl.
  - destruct (m prev ""); [discriminate | auto].
  - destruct (m prev (String c s)); [discriminate |]. auto.
Qed.

(** ** Whitespace runs *)

Lemma whitespace_run_head (prev : option ascii) (c : ascii) (s : string) :
  Re.whitespace_run prev (String c s)
  = if is_space c then Some (S (String.length (fst (span is_space s)))) else None.
Proof.
  unfold Re.whitespace_run. simpl.
  destruct (is_space c); [| reflexivity].
  destruct (span is_space s). reflexivity.
Qed.

Lemma collapse_plain_blank (s : string) :
  forall k prev,
    all_chars plain_blank (Re.sub_go Re.whitespace_run " " k prev s) = true.
Proof.
  induction s as [| c s IH]; intros k prev; [reflexivity |].
  destruct k as [| k]; [| apply IH].
  cbn [Re.sub_go]. rewrite whitespace_run_head.
  destruct (is_space c) eqn:Ec.
  - simpl. apply IH.
  - simpl. unfold plain_blank at 1. rewrite Ec. simpl. apply IH.
Qed.

Lemma collapse_fixed (s : string) :
  all_chars plain_blank s = true -> contains "  " s = false ->
  Re.sub Re.whitespace_run " " s = s.
Proof.
  intros Hb Hd. apply sub_fixed.
  generalize (@None ascii). induction s as [| c s IH]; intros prev.
  - simpl. split; [| exact I]. intros n. discriminate.
  - simpl in Hb. apply andb_true_iff in Hb as [Hc Hb].
    assert (Hd' : contains "  " s = false).
    { simpl in Hd. destruct (if Ascii.eqb " " c then _ else _); [discriminate |].
      exact Hd. }
    split; [| apply IH; assumption].
    intros n. rewrite whitespace_run_head.
    destruct (is_space c) eqn:Ec; [| discriminate].
    unfold plain_blank in Hc. rewrite Ec in Hc. simpl in Hc.
    apply Ascii.eqb_eq in Hc. subst c.
    destruct s as [| c' s].
    + simpl. intros [= <-]. reflexivity.
    + destruct (is_space c') eqn:Ec'.
      * simpl in Hb. apply andb_true_iff in Hb as [Hc' _].
        unfold plain_blank in Hc'. rewrite Ec' in Hc'. simpl in Hc'.
        apply Ascii.eqb_eq in Hc'. subst c'.
        simpl in Hd. discriminate.
      * simpl. rewrite Ec'. intros [= <-]. reflexivity.
Qed.

(** ** Lengths *)

(** A replacement of at most one character never lengthens the text. *)
Lemma sub_go_length (m : Re.matcher) (repl : string) (s : string) :
  (String.length repl <= 1)%nat ->
  forall k prev,
    (String.length (Re.sub_go m repl k prev s) <= String.length s - k)%nat.
Proof.
  intros Hr. induction s as [| c s IH]; intros k prev; [simpl; lia |].
  destruct k as [| k]; simpl.
  - destruct (m prev (String c s)) as [[| n] |].
    + simpl. specialize (IH 0%nat (Some c)). lia.
    + rewrite length_append. specialize (IH n (Some c)). lia.
    + simpl. specialize (IH 0%nat (Some c)). lia.
  - apply IH.
Qed.

(** If deleting the matches keeps the length, there was no match. *)
Lemma delete_same_length (m : Re.matcher) (s : string) :
  forall prev,
    String.length (Re.sub_go m "" 0 prev s) = String.length s ->
    everywhere (fun p t => t = "" \/ forall n, m p t <> Some (S n)) prev s.
Proof.
  induction s as [| c s IH]; intros prev H.
  - simpl. auto.
  - simpl in H. split.
    + right. intros n E. rewrite E in H. simpl in H.
      pose proof (sub_go_length m "" s ltac:(simpl; lia) n (Some c)). lia.
    + apply IH.
      destruct (m prev (String c s)) as [[| n] |]; simpl in H; try lia.
      pose proof (sub_go_length m "" s ltac:(simpl; lia) n (Some c)). lia.
Qed.

Lemma search_go_none_intro {A : Type} (m : option ascii -> string -> option A)
      (s : string) :
  forall prev, everywhere (fun p t => m p t = None) prev s ->
               Re.search_go m prev s = None.
Proof.
  induction s as [| c s IH]; intros prev; simpl.
  - intros [-> _]. reflexivity.
  - intros [-> H]. auto.
Qed.

Lemma page_marker_positive (prev : option ascii) (s : string) :
  match Re.page_marker prev s with
  | Some O => False
  | _ => True
  end.
Proof.
  unfold Re.page_marker.
  destruct (strip_prefix "--- Page " s) as [r |]; [| exact I].
  destruct (span is_digit r) as [[| c d] r']; [exact I |].
  destruct (strip_prefix " ---" r'); exact I.
Qed.

Lemma page_marker_absent (s : string) :
  String.length (Re.sub Re.page_marker "" s) = String.length s ->
  Re.search Re.page_marker s = None.
Proof.
  intros H. apply search_go_none_intro.
  apply delete_same_length in H.
  revert H. apply everywhere_impl. intros p t [-> | Ht]; [reflexivity |].
  pose proof (page_marker_positive p t) as Hpos.
  destruct (Re.page_marker p t) as [[| n] |]; [contradiction | | reflexivity].
  exfalso. apply (Ht n). reflexivity.
Qed.

(** If merging the blanks keeps the length, no two blanks were in a
    row. *)
Lemma collapse_same_length (s : string) :
  forall prev,
    String.length (Re.sub_go Re.whitespace_run " " 0 prev s) = String.length s ->
    contains "  " s = false.
Proof.
  induction s as [| c s IH]; intros prev H; [reflexivity |].
  cbn [Re.sub_go] in H. rewrite whitespace_run_head in H.
  destruct (is_space c) eqn:Ec.
  - set (n := String.length (fst (span is_space s))) in *.
    rewrite length_append in H. simpl in H.
    pose proof (sub_go_length Re.whitespace_run " " s ltac:(simpl; lia) n (Some c)) as Hn.
    assert (Hn0 : n = 0%nat).
    { destruct s as [| c' s']; [reflexivity |]. simpl in Hn, H. lia. }
    rewrite Hn0 in H.
    assert (Hs : contains "  " s = false) by (apply (IH (Some c)); lia).
    assert (Hhead : match s with "" => True | String c' _ => is_space c' = false end).
    { destruct s as [| c' s']; [exact I |].
      subst n. simpl in Hn0. destruct (is_space c'); [| reflexivity].
      destruct (span is_space s'). simpl in Hn0. lia. }
    cbn [contains strip_prefix].
    destruct (Ascii.eqb " " c); [| exact Hs].
    destruct s as [| c' s']; [reflexivity |].
    destruct (Ascii.eqb_spec " " c') as [<- | _]; [| exact Hs].
    vm_compute in Hhead. discriminate.
  - simpl in H.
    assert (Hs : contains "  " s = false) by (apply (IH (Some c)); lia).
    cbn [contains strip_prefix].
    destruct (Ascii.eqb_spec " " c) as [<- | _]; [| exact Hs].
    vm_compute in Ec. discriminate.
Qed.

End SubFacts.

(* ===================================================================== *)
(** * Facts about word-wise rewriting                                     *)
(* ===================================================================== *)

Module WordFacts.
Import PyStr Vocabulary SubFacts.

#[local] Arguments String.append !s1 s2 / : simpl nomatch.

Ltac all_characters c :=
  destruct c as [[] [] [] [] [] [] [] []]; vm_compute; reflexivity.

Lemma word_not_space (c : ascii) : is_word c = true -> is_space c = false.
Proof. destruct c as [[] [] [] [] [] [] [] []]; vm_compute; congruence. Qed.

Lemma lower_char_word (c : ascii) : is_word (lower_char c) = is_word c.
Proof. all_characters c. Qed.

Lemma lower_length (s : string) : String.length (lower s) = String.length s.
Proof. unfold lower. induction s as [| c s IH]; simpl; auto. Qed.

Lemma lower_all_word (s : string) :
  all_chars is_word (lower s) = all_chars is_word s.
Proof.
  unfold lower. induction s as [| c s IH]; simpl; [reflexivity |].
  rewrite lower_char_word, IH. reflexivity.
Qed.

(** ** [span] *)

Lemma span_append (p : ascii -> bool) (s : string) :
  fst (span p s) ++ snd (span p s) = s.
Proof.
  induction s as [| c s IH]; simpl; [reflexivity |].
  destruct (p c); [| reflexivity].
  destruct (span p s) as [a b]. simpl in *. rewrite IH. reflexivity.
Qed.

Lemma span_rest_head (p : ascii -> bool) (s : string) :
  match snd (span p s) with
  | "" => True
  | String c _ => p c = false
  end.
Proof.
  induction s as [| c s IH]; simpl; [exact I |].
  destruct (p c) eqn:E; [| simpl; exact E].
  destruct (span p s) as [a b]. simpl in *. exact IH.
Qed.

Lemma span_rest_length (p : ascii -> bool) (s : string) :
  (String.length (snd (span p s)) <= String.length s)%nat.
Proof.
  induction s as [| c s IH]; simpl; [lia |].
  destruct (p c); [| simpl; lia].
  destruct (span p s) as [a b]. simpl in *. lia.
Qed.

Lemma span_cons_true (p : ascii -> bool) (c : ascii) (s : string) :
  p c = true ->
  span p (String c s) = (String c (fst (span p s)), snd (span p s)).
Proof. intros H. simpl. rewrite H. destruct (span p s). reflexivity. Qed.

Lemma span_cons_false (p : ascii -> bool) (c : ascii) (s : string) :
  p c = false -> span p (String c s) = ("", String c s).
Proof. intros H. simpl. rewrite H. reflexivity. Qed.

Lemma span_word_rest_shorter (c : ascii) (s : string) :
  is_word c = true ->
  (String.length (snd (span is_word (String c s))) <= String.length s)%nat.
Proof.
  intros H. rewrite span_cons_true by exact H. simpl. apply span_rest_length.
Qed.

(** A run of [p] followed by a text that does not start with [p]. *)
Lemma span_exact (p : ascii -> bool) (w t : string) :
  all_chars p w = true ->
  match t with "" => True | String c _ => p c = false end ->
  span p (w ++ t) = (w, t).
Proof.
  intros Hw Ht. induction w as [| c w IH]; simpl.
  - destruct t as [| c t]; [reflexivity |]. simpl. rewrite Ht. reflexivity.
  - simpl in Hw. apply andb_true_iff in Hw as [Hc Hw].
    rewrite Hc, (IH Hw). reflexivity.
Qed.

Lemma span_drop (p : ascii -> bool) (s : string) :
  drop (String.length (fst (span p s))) s = snd (span p s).
Proof.
  induction s as [| c s IH]; simpl; [reflexivity |].
  destruct (p c); [| reflexivity].
  destruct (span p s) as [a b]. simpl in *. exact IH.
Qed.

Lemma span_word_wordy (c : ascii) (s : string) :
  is_word c = true -> wordy (fst (span is_word (String c s))).
Proof.
  intros H. split; [apply StrFacts.span_all |].
  rewrite span_cons_true by exact H. discriminate.
Qed.

(** ** The matcher of a number word *)

#[local] Arguments span : simpl never.

Lemma strip_prefix_ci_take (w : string) :
  forall s r, strip_prefix_ci w s = Some r ->
              lower (take (String.length w) s) = w /\ r = drop (String.length w) s.
Proof.
  induction w as [| a w IH]; intros s r; simpl.
  - intros [= <-]. destruct s; auto.
  - destruct s as [| c s]; [discriminate |].
    destruct (Ascii.eqb_spec a (lower_char c)) as [-> | ]; [| discriminate].
    intros H. apply IH in H as [H1 H2]. simpl.
    split; [unfold lower in *; simpl; f_equal; exact H1 | exact H2].
Qed.

Lemma strip_prefix_ci_lower (w rest : string) :
  strip_prefix_ci (lower w) (w ++ rest) = Some rest.
Proof.
  unfold lower. induction w as [| c w IH]; simpl.
  - destruct rest; reflexivity.
  - rewrite Ascii.eqb_refl. exact IH.
Qed.

Lemma prev_at_word (a b : string) :
  all_chars is_word a = true ->
  forall prev, is_word_opt prev = true \/ a <> "" ->
               is_word_opt (prev_at (String.length a) prev (a ++ b)) = true.
Proof.
  induction a as [| c a IH]; intros Ha prev H.
  - destruct H as [H | H]; [| congruence]. simpl. exact H.
  - simpl in Ha. apply andb_true_iff in Ha as [Hc Ha].
    simpl. apply IH; [exact Ha |]. left. exact Hc.
Qed.

Lemma take_length_le (n : nat) : forall s, (String.length (take n s) <= n)%nat.
Proof. induction n as [| n IH]; intros [| c s]; simpl; try lia. specialize (IH s). lia. Qed.

Lemma alternative_word (v : string) (prev : option ascii) (c : ascii) (s : string) :
  wordy v -> is_word c = true ->
  alternative prev (String c s) v
  = if String.eqb (lower (fst (span is_word (String c s)))) v
    then Some (String.length v) else None.
Proof.
  intros [Hv Hne] Hc. unfold alternative.
  pose proof (span_append is_word (String c s)) as Happ.
  pose proof (span_rest_head is_word (String c s)) as Hrest.
  pose proof (span_word_wordy c s Hc) as [Hw Hwne].
  remember (span is_word (String c s)) as sp eqn:Esp.
  destruct sp as [w rest]. cbn [fst snd] in *.
  destruct (String.eqb_spec (lower w) v) as [<- | Hneq].
  - rewrite <- Happ, strip_prefix_ci_lower.
    rewrite lower_length.
    unfold Re.word_boundary. rewrite prev_at_word by auto.
    destruct rest as [| c' rest]; simpl; [reflexivity |].
    rewrite Hrest. reflexivity.
  - destruct (strip_prefix_ci v (String c s)) as [r |] eqn:E; [| reflexivity].
    apply strip_prefix_ci_take in E as [E1 E2].
    set (n := String.length v) in *.
    assert (Hlen : String.length (take n (String c s)) = n).
    { rewrite <- (lower_length (take n (String c s))), E1. reflexivity. }
    assert (Htw : all_chars is_word (take n (String c s)) = true).
    { rewrite <- lower_all_word, E1. exact Hv. }
    assert (Htne : take n (String c s) <> "").
    { intros Heq. rewrite Heq in E1. unfold lower in E1. simpl in E1. congruence. }
    pose proof (take_drop n (String c s)) as Htd. rewrite <- E2 in Htd.
    unfold Re.word_boundary.
    rewrite <- Htd at 1. rewrite <- Hlen at 1.
    rewrite prev_at_word by auto.
    destruct (is_word_opt (head r)) eqn:Eh; [reflexivity |].
    exfalso. apply Hneq.
    assert (Hsp : span is_word (take n (String c s) ++ r) = (take n (String c s), r)).
    { apply span_exact; [exact Htw |]. destruct r; simpl in *; auto. }
    rewrite Htd, <- Esp in Hsp. injection Hsp as -> _. exact E1.
Qed.

Lemma alternative_gap (v : string) (prev : option ascii) (s : string) :
  wordy v -> is_word_opt (head s) = false -> alternative prev s v = None.
Proof.
  intros [Hv Hne] Hs. unfold alternative.
  destruct v as [| a v]; [congruence |].
  destruct s as [| c s]; [reflexivity |]. simpl in *.
  apply andb_true_iff in Hv as [Ha _].
  destruct (Ascii.eqb_spec a (lower_char c)) as [-> |]; [| reflexivity].
  rewrite lower_char_word in Ha. congruence.
Qed.

Section NumberWord.
Variables word digits : string.
Hypothesis word_wordy : wordy word.
Hypothesis digits_wordy : wordy digits.

Local Abbreviation m := (Re.bounded_words true [word; digits]).

Lemma number_word_unfold (prev : option ascii) (s : string) :
  m prev s
  = if Re.word_boundary prev s
    then match alternative prev s word with
         | Some n => Some n
         | None => alternative prev s digits
         end
    else None.
Proof.
  unfold Re.bounded_words, Re.first_some, alternative.
  destruct (Re.word_boundary prev s); [| reflexivity].
  destruct (strip_prefix_ci word s) as [r |].
  - destruct (Re.word_boundary _ r); [reflexivity |].
    destruct (strip_prefix_ci digits s) as [r' |]; [| reflexivity].
    destruct (Re.word_boundary _ r'); reflexivity.
  - destruct (strip_prefix_ci digits s) as [r' |]; [| reflexivity].
    destruct (Re.word_boundary _ r'); reflexivity.
Qed.

(** No match starts at a character that is not a word character, … *)
Lemma number_word_gap (prev : option ascii) (s : string) :
  is_word_opt (head s) = false -> m prev s = None.
Proof.
  intros H. rewrite number_word_unfold.
  rewrite !alternative_gap by assumption.
  destruct (Re.word_boundary prev s); reflexivity.
Qed.

(** … nor inside a word; *)
Lemma number_word_inside (prev : option ascii) (c : ascii) (s : string) :
  is_word_opt prev = true -> is_word c = true -> m prev (String c s) = None.
Proof.
  intros Hp Hc. rewrite number_word_unfold.
  unfold Re.word_boundary. simpl. rewrite Hp, Hc. reflexivity.
Qed.

(** at the start of a word the whole word decides. *)
Lemma number_word_start (prev : option ascii) (c : ascii) (s : string) :
  is_word_opt prev = false -> is_word c = true ->
  m prev (String c s)
  = let w := fst (span is_word (String c s)) in
    if String.eqb (lower w) word || String.eqb (lower w) digits
    then Some (String.length w) else None.
Proof.
  intros Hp Hc. rewrite number_word_unfold.
  unfold Re.word_boundary. simpl head. simpl is_word_opt at 2.
  rewrite Hp, Hc. simpl xorb. cbv iota.
  rewrite !alternative_word by assumption. cbv zeta.
  destruct (String.eqb_spec (lower (fst (span is_word (String c s)))) word) as [E |].
  - cbn [orb]. rewrite <- E at 1. rewrite lower_length. reflexivity.
  - cbn [orb].
    destruct (String.eqb_spec (lower (fst (span is_word (String c s)))) digits) as [E |];
      [| reflexivity].
    rewrite <- E at 1. rewrite lower_length. reflexivity.
Qed.

(** Inside a word the substitution copies up to the end of the word. *)
Lemma sub_go_inside (s : string) :
  forall prev,
    is_word_opt prev = true ->
    Re.sub_go m digits 0 prev s
    = fst (span is_word s)
      ++ Re.sub_go m digits 0
           (prev_at (String.length (fst (span is_word s))) prev s)
           (snd (span is_word s)).
Proof.
  induction s as [| c s IH]; intros prev Hp; [reflexivity |].
  destruct (is_word c) eqn:Hc.
  - rewrite sub_go_no_match by (apply number_word_inside; assumption).
    rewrite span_cons_true by exact Hc. simpl.
    rewrite (IH (Some c)) by exact Hc. reflexivity.
  - rewrite span_cons_false by exact Hc. reflexivity.
Qed.

Lemma sub_is_map_words (fuel : nat) :
  forall s prev,
    (String.length s <= fuel)%nat ->
    Re.sub_go m digits 0 prev s
    = map_words (rewrite_word word digits) fuel (is_word_opt prev) s.
Proof.
  induction fuel as [| fuel IH]; intros s prev Hlen.
  - destruct s; [reflexivity | simpl in Hlen; lia].
  - destruct s as [| c s]; [reflexivity |].
    simpl in Hlen. cbn [map_words].
    destruct (is_word c) eqn:Hc.
    + pose proof (span_word_rest_shorter c s Hc) as Hshort.
      pose proof (span_rest_head is_word (String c s)) as Hrest.
      assert (Hflag : forall p,
                 Re.sub_go m digits 0 p (snd (span is_word (String c s)))
                 = map_words (rewrite_word word digits) fuel false
                             (snd (span is_word (String c s)))).
      { intros p. rewrite (IH _ p) by lia.
        destruct (snd (span is_word (String c s))) as [| c' r]; [destruct fuel; reflexivity |].
        destruct fuel; [reflexivity |]. cbn [map_words]. rewrite Hrest. reflexivity. }
      destruct (is_word_opt prev) eqn:Hp.
      * rewrite sub_go_inside by exact Hp. rewrite Hflag. reflexivity.
      * pose proof (number_word_start prev c s Hp Hc) as Hm. cbv zeta in Hm.
        unfold rewrite_word.
        destruct (String.eqb _ word || String.eqb _ digits).
        -- rewrite span_cons_true in Hm by exact Hc. simpl in Hm.
           rewrite (sub_go_match _ _ _ _ _ _ Hm).
           pose proof (span_drop is_word (String c s)) as Hd.
           rewrite span_cons_true in Hd by exact Hc. simpl in Hd.
           rewrite Hd.
           rewrite span_cons_true in Hflag |- * by exact Hc. simpl in Hflag |- *.
           rewrite Hflag. reflexivity.
        -- rewrite (sub_go_no_match _ _ _ _ _ Hm).
           rewrite sub_go_inside by exact Hc.
           rewrite span_cons_true in Hflag |- * by exact Hc. simpl in Hflag |- *.
           rewrite Hflag. reflexivity.
    + rewrite sub_go_no_match
        by (apply number_word_gap; simpl; exact Hc).
      rewrite (IH s (Some c)) by lia. simpl. rewrite Hc. reflexivity.
Qed.

End NumberWord.

(** ** [strip] *)

Lemma rstrip_cons (c : ascii) (s : string) :
  rstrip (String c s)
  = match rstrip s with
    | "" => if is_space c then "" else String c ""
    | r => String c r
    end.
Proof. reflexivity. Qed.

Lemma rstrip_cons_keep (c : ascii) (s : string) :
  is_space c = false -> rstrip (String c s) = String c (rstrip s).
Proof. intros H. rewrite rstrip_cons, H. destruct (rstrip s); reflexivity. Qed.

Lemma rstrip_after_word (w t : string) :
  all_chars is_word w = true -> rstrip (w ++ t) = w ++ rstrip t.
Proof.
  induction w as [| c w IH]; intros Hw; [reflexivity |].
  simpl in Hw. apply andb_true_iff in Hw as [Hc Hw].
  simpl. rewrite rstrip_cons_keep by (apply word_not_space; exact Hc).
  rewrite IH by exact Hw. reflexivity.
Qed.

Lemma rstrip_head (s : string) :
  match rstrip s with
  | "" => True
  | String c _ => head s = Some c
  end.
Proof.
  destruct s as [| c s]; [exact I |].
  rewrite rstrip_cons. destruct (rstrip s); [destruct (is_space c) |]; simpl; auto.
Qed.

Lemma rstrip_length (s : string) : (String.length (rstrip s) <= String.length s)%nat.
Proof.
  induction s as [| c s IH]; [simpl; lia |].
  rewrite rstrip_cons. destruct (rstrip s); [destruct (is_space c) |]; simpl in *; lia.
Qed.

Lemma rstrip_last (s : string) :
  forall c r, rstrip s = String c r -> rstrip (rstrip s) = rstrip s.
Proof.
  induction s as [| a s IH]; intros c r; [discriminate |].
  rewrite rstrip_cons.
  destruct (rstrip s) as [| b t] eqn:E.
  - destruct (is_space a) eqn:Ea; [discriminate |].
    intros _. rewrite rstrip_cons. simpl. rewrite Ea. reflexivity.
  - intros _. rewrite rstrip_cons. rewrite (IH b t eq_refl). reflexivity.
Qed.

Lemma rstrip_idempotent (s : string) : rstrip (rstrip s) = rstrip s.
Proof.
  destruct (rstrip s) as [| c r] eqn:E; [reflexivity |].
  rewrite <- E. eapply rstrip_last; eauto.
Qed.

Lemma lstrip_head (s : string) :
  match lstrip s with
  | "" => True
  | String c _ => is_space c = false
  end.
Proof.
  induction s as [| c s IH]; [exact I |].
  simpl. destruct (is_space c) eqn:E; [exact IH | exact E].
Qed.

Lemma lstrip_fixed (c : ascii) (s : string) :
  is_space c = false -> lstrip (String c s) = String c s.
Proof. intros H. simpl. rewrite H. reflexivity. Qed.

Lemma lstrip_length (s : string) : (String.length (lstrip s) <= String.length s)%nat.
Proof.
  induction s as [| c s IH]; [simpl; lia |].
  simpl. destruct (is_space c); simpl; lia.
Qed.

Lemma strip_idempotent (s : string) : strip (strip s) = strip s.
Proof.
  unfold strip.
  pose proof (lstrip_head s) as Hl. pose proof (rstrip_head (lstrip s)) as Hr.
  destruct (rstrip (lstrip s)) as [| c r] eqn:E; [reflexivity |].
  destruct (lstrip s) as [| c' t]; [discriminate |].
  simpl in Hr. injection Hr as ->.
  rewrite lstrip_fixed by exact Hl.
  rewrite <- E. apply rstrip_idempotent.
Qed.

Lemma lstrip_all_chars (p : ascii -> bool) (s : string) :
  all_chars p s = true -> all_chars p (lstrip s) = true.
Proof.
  induction s as [| c s IH]; intros H; [reflexivity |].
  simpl. destruct (is_space c); [| exact H].
  simpl in H. apply andb_true_iff in H as [_ H]. auto.
Qed.

Lemma rstrip_all_chars (p : ascii -> bool) (s : string) :
  all_chars p s = true -> all_chars p (rstrip s) = true.
Proof.
  induction s as [| c s IH]; intros H; [reflexivity |].
  simpl in H. apply andb_true_iff in H as [Hc H].
  rewrite rstrip_cons. specialize (IH H).
  destruct (rstrip s); [destruct (is_space c) |]; simpl in *; rewrite ?Hc; auto.
Qed.

Lemma strip_all_chars (p : ascii -> bool) (s : string) :
  all_chars p s = true -> all_chars p (strip s) = true.
Proof. intros H. apply rstrip_all_chars, lstrip_all_chars, H. Qed.

(** ** [map_words] *)

Section MapWords.
Variable f : string -> string.
Hypothesis f_wordy : forall w, wordy w -> wordy (f w).

Lemma map_words_fuel (n1 : nat) :
  forall n2 s b,
    (String.length s <= n1)%nat -> (String.length s <= n2)%nat ->
    map_words f n1 b s = map_words f n2 b s.
Proof.
  induction n1 as [| n1 IH]; intros n2 s b H1 H2.
  - destruct s; [destruct n2; reflexivity | simpl in H1; lia].
  - destruct s as [| c s]; [destruct n2; reflexivity |].
    destruct n2 as [| n2]; [simpl in H2; lia |].
    simpl in H1, H2. cbn [map_words].
    destruct (is_word c) eqn:Hc.
    + pose proof (span_word_rest_shorter c s Hc).
      rewrite (IH n2) by lia. reflexivity.
    + rewrite (IH n2) by lia. reflexivity.
Qed.

Lemma map_words_gap (n : nat) (b : bool) (s : string) :
  match s with "" => True | String c _ => is_word c = false end ->
  match map_words f n b s with "" => True | String c _ => is_word c = false end.
Proof.
  destruct n; [intros _; exact I |].
  destruct s as [| c s]; [intros _; exact I |].
  intros Hc. cbn [map_words]. rewrite Hc. exact Hc.
Qed.

Lemma map_words_nonempty (n : nat) (b : bool) (c : ascii) (s : string) :
  (String.length (String c s) <= n)%nat -> map_words f n b (String c s) <> "".
Proof.
  destruct n; [simpl; lia |]. intros _. cbn [map_words].
  destruct (is_word c) eqn:Hc; [| discriminate].
  pose proof (span_word_wordy c s Hc) as Hw.
  destruct b.
  - destruct Hw as [_ Hne].
    destruct (fst (span is_word (String c s))); [congruence | discriminate].
  - destruct (f_wordy _ Hw) as [_ Hne].
    destruct (f (fst (span is_word (String c s)))); [congruence | discriminate].
Qed.

Lemma written_wordy (b : bool) (w : string) : wordy w -> wordy (written f b w).
Proof. destruct b; simpl; auto. Qed.

Lemma map_words_word (n : nat) (b : bool) (c : ascii) (s : string) :
  is_word c = true ->
  map_words f (S n) b (String c s)
  = written f b (fst (span is_word (String c s)))
    ++ map_words f n false (snd (span is_word (String c s))).
Proof. intros Hc. cbn [map_words]. rewrite Hc. destruct b; reflexivity. Qed.

(** A word followed by a text that starts outside a word. *)
Lemma map_words_word_app (n : nat) (b : bool) (w t : string) :
  wordy w ->
  match t with "" => True | String c _ => is_word c = false end ->
  map_words f (S n) b (w ++ t) = written f b w ++ map_words f n false t.
Proof.
  intros [Hw Hne] Ht.
  pose proof (span_exact is_word w t Hw Ht) as Hsp.
  destruct w as [| c w]; [congruence |].
  simpl in Hw. apply andb_true_iff in Hw as [Hc Hw].
  change (String c w ++ t) with (String c (w ++ t)) in *.
  rewrite map_words_word by exact Hc. rewrite Hsp. reflexivity.
Qed.

Lemma map_words_gap_cons (n : nat) (b : bool) (c : ascii) (s : string) :
  is_word c = false ->
  map_words f (S n) b (String c s) = String c (map_words f n false s).
Proof. intros Hc. cbn [map_words]. rewrite Hc. reflexivity. Qed.

Lemma lstrip_space (c : ascii) (s : string) :
  is_space c = true -> lstrip (String c s) = lstrip s.
Proof. intros H. simpl. rewrite H. reflexivity. Qed.

Lemma map_words_rstrip (n : nat) :
  forall s b,
    (String.length s <= n)%nat ->
    map_words f n b (rstrip s) = rstrip (map_words f n b s).
Proof.
  induction n as [| n IH]; intros s b Hlen.
  - destruct s; [reflexivity | simpl in Hlen; lia].
  - destruct s as [| c s]; [reflexivity |].
    simpl in Hlen.
    destruct (is_word c) eqn:Hc.
    + pose proof (span_word_rest_shorter c s Hc) as Hshort.
      pose proof (span_word_wordy c s Hc) as Hw.
      pose proof (span_rest_head is_word (String c s)) as Hrest.
      pose proof (span_append is_word (String c s)) as Happ.
      rewrite map_words_word by exact Hc.
      rewrite <- Happ at 1.
      rewrite rstrip_after_word by (apply Hw).
      rewrite map_words_word_app; [| exact Hw |].
      * rewrite rstrip_after_word by (apply written_wordy; exact Hw).
        rewrite IH by lia. reflexivity.
      * pose proof (rstrip_head (snd (span is_word (String c s)))) as Hh.
        destruct (rstrip (snd (span is_word (String c s)))) as [| c' r]; [exact I |].
        destruct (snd (span is_word (String c s))); [discriminate |].
        simpl in Hh. injection Hh as ->. exact Hrest.
    + cbn [map_words]. rewrite Hc.
      rewrite !rstrip_cons. rewrite <- (IH s false) by lia.
      destruct (rstrip s) as [| c1 r1] eqn:E.
      * replace (map_words f n false "") with "" by (destruct n; reflexivity).
        destruct (is_space c); [reflexivity |].
        cbn [map_words]. rewrite Hc.
        replace (map_words f n false "") with "" by (destruct n; reflexivity).
        reflexivity.
      * pose proof (rstrip_length s) as Hl. rewrite E in Hl.
        pose proof (map_words_nonempty n false c1 r1 ltac:(lia)) as Hne.
        destruct (map_words f n false (String c1 r1)) as [| c2 r2] eqn:E2;
          [congruence |].
        cbn [map_words]. rewrite Hc. reflexivity.
Qed.

Lemma map_words_lstrip (s : string) :
  forall n,
    (String.length s <= n)%nat ->
    map_words f n false (lstrip s) = lstrip (map_words f n false s).
Proof.
  induction s as [| c s IH]; intros n Hlen; [destruct n; reflexivity |].
  destruct n as [| n]; [simpl in Hlen; lia |]. simpl in Hlen.
  destruct (is_space c) eqn:Es.
  - assert (Hc : is_word c = false).
    { destruct (is_word c) eqn:Hc; [| reflexivity].
      apply word_not_space in Hc. congruence. }
    rewrite map_words_gap_cons by exact Hc.
    rewrite !lstrip_space by exact Es.
    rewrite <- IH by lia.
    pose proof (lstrip_length s).
    apply map_words_fuel; lia.
  - rewrite lstrip_fixed by exact Es.
    destruct (is_word c) eqn:Hc.
    + rewrite map_words_word by exact Hc.
      destruct (written_wordy false _ (span_word_wordy c s Hc)) as [Hw Hne].
      destruct (written f false (fst (span is_word (String c s)))) as [| c0 w0];
        [congruence |].
      simpl in Hw. apply andb_true_iff in Hw as [Hc0 _].
      simpl. rewrite (word_not_space c0 Hc0). reflexivity.
    + cbn [map_words]. rewrite Hc. rewrite lstrip_fixed by exact Es. reflexivity.
Qed.

End MapWords.

Lemma map_words_ext (f g : string -> string) :
  (forall w, wordy w -> f w = g w) ->
  forall n s b, map_words f n b s = map_words g n b s.
Proof.
  intros Hfg. induction n as [| n IH]; intros s b; [reflexivity |].
  destruct s as [| c s]; [reflexivity |].
  cbn [map_words]. destruct (is_word c) eqn:Hc.
  - rewrite IH. destruct b; [reflexivity |].
    rewrite Hfg by (apply span_word_wordy; exact Hc). reflexivity.
  - rewrite IH. reflexivity.
Qed.

Lemma map_words_compose (f g : string -> string) :
  (forall w, wordy w -> wordy (f w)) ->
  forall n1 s b n2,
    (String.length s <= n1)%nat ->
    (String.length (map_words f n1 b s) <= n2)%nat ->
    map_words g n2 b (map_words f n1 b s) = map_words (fun w => g (f w)) n1 b s.
Proof.
  intros Hf. induction n1 as [| n1 IH]; intros s b n2 H1 H2.
  - destruct n2; reflexivity.
  - destruct s as [| c s]; [destruct n2; reflexivity |].
    simpl in H1.
    destruct (is_word c) eqn:Hc.
    + pose proof (span_word_rest_shorter c s Hc) as Hshort.
      pose proof (span_word_wordy c s Hc) as Hw.
      pose proof (span_rest_head is_word (String c s)) as Hrest.
      rewrite !map_words_word in * by exact Hc.
      pose proof (written_wordy f Hf b _ Hw) as Hwr.
      rewrite length_append in H2.
      assert (0 < String.length (written f b (fst (span is_word (String c s)))))%nat.
      { destruct Hwr as [_ Hne]. destruct (written f b _); [congruence | simpl; lia]. }
      destruct n2 as [| n2]; [lia |].
      rewrite map_words_word_app;
        [| exact Hwr | apply map_words_gap; exact Hrest].
      rewrite IH by lia.
      destruct b; reflexivity.
    + cbn [map_words] in *. rewrite Hc in *.
      destruct n2 as [| n2]; [simpl in H2; lia |].
      cbn [map_words]. rewrite Hc. simpl in H2.
      rewrite IH by lia. reflexivity.
Qed.

(** ** The substitutions of [_clean_text] *)

Lemma rewrite_word_wordy (word digits w : string) :
  wordy digits -> wordy w -> wordy (rewrite_word word digits w).
Proof. intros Hd Hw. unfold rewrite_word. destruct (_ || _); assumption. Qed.

Lemma number_sub (word digits s : string) :
  wordy word -> wordy digits ->
  Re.sub (ClauseParser.number_word word digits) digits s
  = word_map (rewrite_word word digits) s.
Proof.
  intros Hw Hd. unfold Re.sub, ClauseParser.number_word, word_map.
  rewrite (sub_is_map_words word digits Hw Hd (String.length s)) by lia.
  reflexivity.
Qed.

Lemma word_map_compose (f g : string -> string) (s : string) :
  (forall w, wordy w -> wordy (f w)) ->
  word_map g (word_map f s) = word_map (fun w => g (f w)) s.
Proof. intros Hf. unfold word_map. apply map_words_compose; auto. Qed.

Lemma word_map_strip (f : string -> string) (s : string) :
  (forall w, wordy w -> wordy (f w)) ->
  word_map f (strip s) = strip (word_map f s).
Proof.
  intros Hf. unfold word_map, strip.
  pose proof (lstrip_length s) as Hl.
  pose proof (rstrip_length (lstrip s)) as Hr.
  rewrite (map_words_fuel f (String.length (rstrip (lstrip s)))
                          (String.length s)) by lia.
  rewrite map_words_rstrip by (auto; lia).
  rewrite map_words_lstrip by (auto; lia).
  reflexivity.
Qed.

Lemma number_words_wordy (w : string) : wordy w -> wordy (number_words w).
Proof.
  intros Hw. unfold number_words.
  repeat (apply rewrite_word_wordy; [split; [reflexivity | discriminate] |]).
  exact Hw.
Qed.

Lemma rewrite_word_hit (word digits w : string) :
  String.eqb (lower w) word || String.eqb (lower w) digits = true ->
  rewrite_word word digits w = digits.
Proof. intros H. unfold rewrite_word. rewrite H. reflexivity. Qed.

Lemma rewrite_word_miss (word digits w : string) :
  String.eqb (lower w) word || String.eqb (lower w) digits = false ->
  rewrite_word word digits w = w.
Proof. intros H. unfold rewrite_word. rewrite H. reflexivity. Qed.

(** The four substitutions turn a word into one of the four numerals or
    leave it as it is, and then none of them applies to it. *)
Lemma number_words_cases (w : string) :
  In (number_words w) ["30"; "60"; "90"; "14"]
  \/ (number_words w = w
      /\ rewrite_word "thirty" "30" w = w /\ rewrite_word "sixty" "60" w = w
      /\ rewrite_word "ninety" "90" w = w /\ rewrite_word "fourteen" "14" w = w).
Proof.
  unfold number_words.
  destruct (String.eqb (lower w) "thirty" || String.eqb (lower w) "30") eqn:E30.
  { rewrite (rewrite_word_hit _ _ _ E30). left. vm_compute. tauto. }
  rewrite (rewrite_word_miss _ _ _ E30).
  destruct (String.eqb (lower w) "sixty" || String.eqb (lower w) "60") eqn:E60.
  { rewrite (rewrite_word_hit _ _ _ E60). left. vm_compute. tauto. }
  rewrite (rewrite_word_miss _ _ _ E60).
  destruct (String.eqb (lower w) "ninety" || String.eqb (lower w) "90") eqn:E90.
  { rewrite (rewrite_word_hit _ _ _ E90). left. vm_compute. tauto. }
  rewrite (rewrite_word_miss _ _ _ E90).
  destruct (String.eqb (lower w) "fourteen" || String.eqb (lower w) "14") eqn:E14.
  { rewrite (rewrite_word_hit _ _ _ E14). left. vm_compute. tauto. }
  rewrite (rewrite_word_miss _ _ _ E14).
  right. auto.
Qed.

(** A word rewritten by the four substitutions is left alone by each of
    them. *)
Lemma number_words_settled (w : string) :
  rewrite_word "thirty" "30" (number_words w) = number_words w
  /\ rewrite_word "sixty" "60" (number_words w) = number_words w
  /\ rewrite_word "ninety" "90" (number_words w) = number_words w
  /\ rewrite_word "fourteen" "14" (number_words w) = number_words w.
Proof.
  destruct (number_words_cases w) as [H | (-> & H30 & H60 & H90 & H14)];
    [| auto].
  simpl in H.
  destruct H as [<- | [<- | [<- | [<- | []]]]]; vm_compute; auto.
Qed.

(** ** Lengths *)

Lemma map_words_length (f : string -> string) :
  (forall w, wordy w -> (String.length (f w) <= String.length w)%nat) ->
  forall n s b, (String.length (map_words f n b s) <= String.length s)%nat.
Proof.
  intros Hf. induction n as [| n IH]; intros s b; [simpl; lia |].
  destruct s as [| c s]; [simpl; lia |].
  destruct (is_word c) eqn:Hc.
  - rewrite map_words_word by exact Hc.
    pose proof (span_append is_word (String c s)) as Happ.
    pose proof (span_word_wordy c s Hc) as Hw.
    pose proof (IH (snd (span is_word (String c s))) false) as Hrest.
    rewrite <- Happ at 3. rewrite !length_append.
    assert (String.length (written f b (fst (span is_word (String c s))))
            <= String.length (fst (span is_word (String c s))))%nat
      by (destruct b; simpl; auto).
    lia.
  - rewrite map_words_gap_cons by exact Hc. simpl. specialize (IH s false). lia.
Qed.

Lemma rewrite_word_length (word digits w : string) :
  (String.length digits <= String.length word)%nat ->
  (String.length (rewrite_word word digits w) <= String.length w)%nat.
Proof.
  intros H. unfold rewrite_word.
  destruct (String.eqb_spec (lower w) word) as [E | _]; simpl.
  - rewrite <- (lower_length w), E. exact H.
  - destruct (String.eqb_spec (lower w) digits) as [E | _]; [| lia].
    rewrite <- (lower_length w), E. lia.
Qed.

Lemma number_words_length (w : string) :
  (String.length (number_words w) <= String.length w)%nat.
Proof.
  unfold number_words.
  pose proof (rewrite_word_length "thirty" "30" w ltac:(simpl; lia)).
  pose proof (rewrite_word_length "sixty" "60"
                (rewrite_word "thirty" "30" w) ltac:(simpl; lia)).
  pose proof (rewrite_word_length "ninety" "90"
                (rewrite_word "sixty" "60" (rewrite_word "thirty" "30" w))
                ltac:(simpl; lia)).
  pose proof (rewrite_word_length "fourteen" "14"
                (rewrite_word "ninety" "90"
                   (rewrite_word "sixty" "60" (rewrite_word "thirty" "30" w)))
                ltac:(simpl; lia)).
  lia.
Qed.

Lemma strip_length (s : string) : (String.length (strip s) <= String.length s)%nat.
Proof.
  unfold strip. pose proof (lstrip_length s). pose proof (rstrip_length (lstrip s)). lia.
Qed.

End WordFacts.

(* ===================================================================== *)
(** * Properties of the comparators                                       *)
(* ===================================================================== *)

Module ComparatorFacts.
Import PyStr PyNum Vocabulary ContradictionDetector.

Ltac run_cmp := unfold bind, put, ret, lift, verdict; simpl.

Lemma compare_verdict (v1 v2 : ClauseValue) (t : string) :
  fst (_compare_clause_values v1 v2 t)
  = verdict (select_comparator t v1 v2 (initial_details v1 v2 t)).
Proof.
  unfold _compare_clause_values, verdict.
  destruct (select_comparator t v1 v2 _) as [[b | e] d]; reflexivity.
Qed.

Lemma extract_number_nonneg (v : ClauseValue) (x : spec_float) :
  extract_number v = Some x -> nonneg x.
Proof.
  unfold extract_number.
  set (cleaned := Re.sub Re.dollar_or_comma "" (py_str v)).
  assert (Hplain : forall y,
             match Re.search Re.plain_number cleaned with
             | Some (ip, fp) => Some (float_of_decimal ip fp)
             | None => None
             end = Some y -> nonneg y).
  { intros y. destruct (Re.search Re.plain_number cleaned) as [[ip fp] |] eqn:E;
      [| discriminate].
    intros [= <-]. apply StrFacts.search_go_some in E as (prev & s & E).
    apply StrFacts.plain_number_digits in E as [Hi Hf].
    apply StrFacts.float_of_decimal_nonneg; assumption. }
  destruct (any_char _ cleaned); [| apply Hplain].
  destruct (Re.search Re.k_number cleaned) as [[ip fp] |] eqn:E; [| apply Hplain].
  intros [= <-]. apply StrFacts.search_go_some in E as (prev & s & E).
  apply StrFacts.k_number_digits in E as [Hi Hf].
  apply (FloatFacts.fmul_nonneg _ f_1000); auto.
  - apply StrFacts.float_of_decimal_nonneg; assumption.
  - exact I.
Qed.

Lemma text_differs_sym (v1 v2 : ClauseValue) :
  text_differs v1 v2 = text_differs v2 v1.
Proof. unfold text_differs. f_equal. apply StrFacts.string_eqb_sym. Qed.

Lemma text_differs_refl (v : ClauseValue) : text_differs v v = false.
Proof. unfold text_differs. rewrite String.eqb_refl. reflexivity. Qed.

Lemma similarity_sym (t1 t2 : string) :
  _calculate_text_similarity t1 t2 = _calculate_text_similarity t2 t1.
Proof.
  unfold _calculate_text_similarity.
  destruct t1 as [| a t1], t2 as [| b t2]; try reflexivity.
  generalize (list_to_set (split (String a t1)) : gset string).
  generalize (list_to_set (split (String b t2)) : gset string).
  intros w2 w1.
  rewrite (union_comm_L w1 w2).
  rewrite (intersection_comm_L w1 w2). reflexivity.
Qed.

Lemma find_conflict_sym (t1 t2 : string) : find_conflict t1 t2 = find_conflict t2 t1.
Proof.
  unfold find_conflict, conflicting_pairs, Re.first_some.
  repeat match goal with
         | |- context [(contains ?a t1 && contains ?b t2) || (contains ?b t1 && contains ?a t2)] =>
             rewrite (orb_comm (contains a t1 && contains b t2));
             rewrite (andb_comm (contains b t1)), (andb_comm (contains a t1))
         end.
  reflexivity.
Qed.

(** ** The boolean result does not depend on the order of the values *)

Section Commutative.
Variables (v1 v2 : ClauseValue) (d d' : Details).

Lemma time_durations_comm :
  verdict (_compare_time_durations v1 v2 d) = verdict (_compare_time_durations v2 v1 d').
Proof.
  unfold _compare_time_durations. run_cmp.
  destruct (parse_duration v1) as [[a |] | e1], (parse_duration v2) as [[b |] | e2];
    simpl; try reflexivity; try apply text_differs_sym.
  rewrite (Z.eqb_sym a b). reflexivity.
Qed.

Lemma time_ranges_comm :
  verdict (_compare_time_ranges v1 v2 d) = verdict (_compare_time_ranges v2 v1 d').
Proof.
  unfold _compare_time_ranges. run_cmp.
  destruct (parse_time_range v1) as [[s1 e1] |], (parse_time_range v2) as [[s2 e2] |];
    simpl; try reflexivity; try apply text_differs_sym.
  rewrite (Z.eqb_sym s1 s2), (Z.eqb_sym e1 e2).
  destruct (negb _); reflexivity.
Qed.

Lemma numeric_values_comm :
  verdict (_compare_numeric_values v1 v2 d) = verdict (_compare_numeric_values v2 v1 d').
Proof.
  unfold _compare_numeric_values. run_cmp.
  destruct (extract_number v1) as [n1 |] eqn:E1,
           (extract_number v2) as [n2 |] eqn:E2;
    simpl; try (rewrite StrFacts.string_eqb_sym; reflexivity).
  apply extract_number_nonneg in E1, E2.
  rewrite (FloatFacts.feqb_sym n2 n1) by assumption.
  destruct (feqb n1 n2) eqn:E; simpl; [reflexivity |].
  unfold fdiv.
  rewrite (FloatFacts.fmax_not_zero n1 n2) by assumption.
  rewrite (FloatFacts.fmax_not_zero n2 n1)
    by (try assumption; rewrite FloatFacts.feqb_sym; assumption).
  reflexivity.
Qed.

Lemma datetime_values_comm :
  verdict (_compare_datetime_values v1 v2 d) = verdict (_compare_datetime_values v2 v1 d').
Proof.
  unfold _compare_datetime_values. run_cmp.
  rewrite StrFacts.string_eqb_sym. reflexivity.
Qed.

Lemma text_exact_comm :
  verdict (_compare_text_exact v1 v2 d) = verdict (_compare_text_exact v2 v1 d').
Proof.
  unfold _compare_text_exact. run_cmp.
  rewrite StrFacts.string_eqb_sym. reflexivity.
Qed.

Lemma date_lists_comm :
  verdict (_compare_date_lists v1 v2 d) = verdict (_compare_date_lists v2 v1 d').
Proof.
  destruct v1 as [s1 | l1] eqn:E1, v2 as [s2 | l2] eqn:E2;
    unfold _compare_date_lists; subst; try apply text_exact_comm.
  - (* both are strings *)
    unfold _compare_text_exact. run_cmp.
    rewrite StrFacts.string_eqb_sym. reflexivity.
  - unfold _compare_text_exact. run_cmp.
    rewrite StrFacts.string_eqb_sym. reflexivity.
  - unfold _compare_text_exact. run_cmp.
    rewrite StrFacts.string_eqb_sym. reflexivity.
  - run_cmp. f_equal. apply bool_decide_ext. split; congruence.
Qed.

Lemma text_semantic_comm :
  verdict (_compare_text_semantic v1 v2 d) = verdict (_compare_text_semantic v2 v1 d').
Proof.
  unfold _compare_text_semantic. run_cmp.
  rewrite (find_conflict_sym (strip (lower (py_str v2)))).
  destruct (find_conflict _ _) as [[a b] |]; simpl; [reflexivity |].
  rewrite similarity_sym. reflexivity.
Qed.

End Commutative.

(** ** Comparing a value with itself *)

Lemma similarity_same (t : string) :
  split t <> [] -> _calculate_text_similarity t t = f_1_0.
Proof.
  intros H. unfold _calculate_text_similarity.
  destruct t as [| c t]; [reflexivity |].
  generalize dependent (split (String c t)). intros l Hl.
  remember (list_to_set l : gset string) as w eqn:Hw.
  rewrite (union_idemp_L w). rewrite (intersection_idemp_L w).
  assert (Hsize : size w <> 0%nat).
  { destruct l as [| x l]; [congruence |].
    intros Hz. apply size_empty_iff in Hz.
    assert (Hx : x ∈ w) by (rewrite Hw; apply elem_of_list_to_set; left).
    apply (proj1 (Hz x)) in Hx. exact (not_elem_of_empty x Hx). }
  destruct (Nat.eqb_spec (size w) 0); [contradiction |].
  apply FloatFacts.float_of_ratio_same. lia.
Qed.

Section Reflexive.
Variables (v : ClauseValue) (d : Details).

Lemma time_durations_refl : verdict (_compare_time_durations v v d) = false.
Proof.
  unfold _compare_time_durations. run_cmp.
  destruct (parse_duration v) as [[a |] | e]; simpl;
    [ rewrite Z.eqb_refl | apply text_differs_refl | ]; reflexivity.
Qed.

Lemma time_ranges_refl : verdict (_compare_time_ranges v v d) = false.
Proof.
  unfold _compare_time_ranges. run_cmp.
  destruct (parse_time_range v) as [[s e] |]; simpl;
    [ rewrite !Z.eqb_refl | apply text_differs_refl ]; reflexivity.
Qed.

Lemma numeric_values_refl : verdict (_compare_numeric_values v v d) = false.
Proof.
  unfold _compare_numeric_values. run_cmp.
  destruct (extract_number v) as [n |] eqn:E; simpl.
  - rewrite (FloatFacts.feqb_refl n) by (eapply extract_number_nonneg; eauto).
    reflexivity.
  - rewrite String.eqb_refl. reflexivity.
Qed.

Lemma datetime_values_refl : verdict (_compare_datetime_values v v d) = false.
Proof.
  unfold _compare_datetime_values. run_cmp. rewrite String.eqb_refl. reflexivity.
Qed.

Lemma text_exact_refl : verdict (_compare_text_exact v v d) = false.
Proof.
  unfold _compare_text_exact. run_cmp. rewrite String.eqb_refl. reflexivity.
Qed.

Lemma date_lists_refl : verdict (_compare_date_lists v v d) = false.
Proof.
  destruct v as [s | l] eqn:E; unfold _compare_date_lists; subst.
  - unfold _compare_text_exact. run_cmp. rewrite String.eqb_refl. reflexivity.
  - run_cmp. rewrite bool_decide_eq_true_2; reflexivity.
Qed.

(** The semantic comparator flags a text against itself exactly when
    one of the antonym pairs is found inside that single text. *)
Lemma text_semantic_same :
  verdict (_compare_text_semantic v v d)
  = match find_conflict (strip (lower (py_str v))) (strip (lower (py_str v))) with
    | Some _ => true
    | None => false
    end.
Proof.
  unfold _compare_text_semantic. run_cmp.
  destruct (find_conflict _ _) as [[a b] |]; simpl; [reflexivity |].
  destruct (strip (lower (py_str v))) as [| c t] eqn:E; [reflexivity |].
  rewrite similarity_same; [reflexivity |].
  rewrite <- E. apply StrFacts.split_strip_nonempty. congruence.
Qed.

End Reflexive.

End ComparatorFacts.

(* ===================================================================== *)
(** * Properties of the ordering step                                     *)
(* ===================================================================== *)

Module SortFacts.
Import Vocabulary ContradictionDetector.

Lemma string_leb_trans (a b c : string) :
  String.leb a b = true -> String.leb b c = true -> String.leb a c = true.
Proof.
  intros H1 H2. apply Is_true_true.
  apply (@transitivity _ String.le _ a b c); apply Is_true_true; assumption.
Qed.

Lemma string_leb_refl (a : string) : String.leb a a = true.
Proof. apply Is_true_true. apply (@reflexivity _ String.le _). Qed.

Lemma key_leb_total (k1 k2 : nat * string) :
  key_leb k1 k2 = false -> key_leb k2 k1 = true.
Proof.
  destruct k1 as [r1 c1], k2 as [r2 c2]. unfold key_leb. simpl.
  intros H. apply orb_false_iff in H as [Hlt H].
  apply Nat.ltb_ge in Hlt.
  destruct (Nat.eqb_spec r1 r2) as [-> | Hne]; simpl in H.
  - rewrite Nat.eqb_refl. simpl.
    destruct (String.leb_total c1 c2) as [Hc | Hc]; [congruence |].
    rewrite Hc. apply orb_true_r.
  - assert (Hlt' : (r2 <? r1)%nat = true) by (apply Nat.ltb_lt; lia).
    rewrite Hlt'. reflexivity.
Qed.

Lemma key_leb_trans (k1 k2 k3 : nat * string) :
  key_leb k1 k2 = true -> key_leb k2 k3 = true -> key_leb k1 k3 = true.
Proof.
  destruct k1 as [r1 c1], k2 as [r2 c2], k3 as [r3 c3]. unfold key_leb. simpl.
  intros H1 H2.
  apply orb_true_iff in H1 as [H1 | H1]; apply orb_true_iff in H2 as [H2 | H2];
    repeat match goal with
           | H : (_ <? _)%nat = true |- _ => apply Nat.ltb_lt in H
           | H : _ && _ = true |- _ => apply andb_true_iff in H as [? ?]
           | H : (_ =? _)%nat = true |- _ => apply Nat.eqb_eq in H
           end; subst.
  - apply orb_true_iff. left. apply Nat.ltb_lt. lia.
  - apply orb_true_iff. left. apply Nat.ltb_lt. lia.
  - apply orb_true_iff. left. apply Nat.ltb_lt. lia.
  - apply orb_true_iff. right. rewrite Nat.eqb_refl. simpl.
    eapply string_leb_trans; eauto.
Qed.

Global Instance priority_le_trans : Transitive priority_le.
Proof. intros x y z. unfold priority_le. apply key_leb_trans. Qed.

Lemma sort_insert_hdrel (x a : Contradiction) (l : list Contradiction) :
  priority_le a x -> HdRel priority_le a l -> HdRel priority_le a (sort_insert x l).
Proof.
  intros Hax Hl. destruct l as [| y l]; simpl.
  - constructor. exact Hax.
  - destruct (key_leb (sort_key x) (sort_key y)); constructor; auto.
    inversion Hl; auto.
Qed.

Lemma sort_insert_sorted (x : Contradiction) (l : list Contradiction) :
  Sorted priority_le l -> Sorted priority_le (sort_insert x l).
Proof.
  induction l as [| y l IH]; simpl; intros Hs.
  - repeat constructor.
  - destruct (key_leb (sort_key x) (sort_key y)) eqn:E.
    + constructor; [exact Hs | constructor; exact E].
    + inversion Hs as [| ? ? Hs' Hhd]; subst.
      constructor; [apply IH; exact Hs' |].
      apply sort_insert_hdrel; [| exact Hhd].
      apply key_leb_total. exact E.
Qed.

Lemma stable_sort_sorted (l : list Contradiction) : Sorted priority_le (stable_sort l).
Proof.
  induction l as [| x l IH]; simpl; [constructor |].
  apply sort_insert_sorted. exact IH.
Qed.

Lemma sort_insert_length (x : Contradiction) (l : list Contradiction) :
  length (sort_insert x l) = S (length l).
Proof.
  induction l as [| y l IH]; simpl; auto.
  destruct (key_leb _ _); simpl; auto.
Qed.

Lemma assign_ids_keys (l : list Contradiction) :
  forall n, map sort_key (assign_ids n l) = map sort_key l.
Proof. induction l as [| x l IH]; intros n; simpl; [| rewrite IH]; reflexivity. Qed.

Lemma assign_ids_ids (l : list Contradiction) :
  forall n, map c_id (assign_ids n l) = map Some (seq n (length l)).
Proof. induction l as [| x l IH]; intros n; simpl; [| rewrite IH]; reflexivity. Qed.

(** Being sorted only depends on the keys. *)
Lemma forall_by_keys (x y : Contradiction) (l1 : list Contradiction) :
  sort_key x = sort_key y ->
  forall l2, map sort_key l1 = map sort_key l2 ->
             Forall (priority_le x) l1 -> Forall (priority_le y) l2.
Proof.
  intros Hxy. induction l1 as [| z l1 IH]; intros [| w l2] Hk Hall;
    try discriminate; constructor.
  - assert (Hzw : sort_key z = sort_key w) by (cbn [map] in Hk; congruence).
    apply Forall_inv in Hall. unfold priority_le in *.
    rewrite <- Hxy, <- Hzw. exact Hall.
  - assert (Hk' : map sort_key l1 = map sort_key l2) by (cbn [map] in Hk; congruence).
    apply IH; [exact Hk' | eapply Forall_inv_tail; exact Hall].
Qed.

Lemma strongly_sorted_by_keys (l1 : list Contradiction) :
  forall l2, map sort_key l1 = map sort_key l2 ->
             StronglySorted priority_le l1 -> StronglySorted priority_le l2.
Proof.
  induction l1 as [| x l1 IH]; intros [| y l2] Hk Hs; try discriminate.
  - constructor.
  - assert (Hxy : sort_key x = sort_key y) by (cbn [map] in Hk; congruence).
    assert (Hk' : map sort_key l1 = map sort_key l2) by (cbn [map] in Hk; congruence).
    apply StronglySorted_inv in Hs as [Hs Hall].
    constructor; [apply IH; assumption |].
    eapply forall_by_keys; eauto.
Qed.

Lemma prioritize_sorted (l : list Contradiction) :
  StronglySorted priority_le (_prioritize_contradictions l).
Proof.
  unfold _prioritize_contradictions.
  apply (strongly_sorted_by_keys (stable_sort l)).
  - symmetry. apply assign_ids_keys.
  - apply Sorted_StronglySorted; [exact priority_le_trans | apply stable_sort_sorted].
Qed.

Lemma prioritize_ids (l : list Contradiction) :
  map c_id (_prioritize_contradictions l)
  = map Some (seq 1 (length (_prioritize_contradictions l))).
Proof.
  unfold _prioritize_contradictions. rewrite assign_ids_ids. 
  f_equal. f_equal. 
  rewrite <- (length_map sort_key (assign_ids 1 _)), assign_ids_keys, length_map.
  reflexivity.
Qed.

End SortFacts.

(* ===================================================================== *)
(** * The detector: claims                                                *)
(* ===================================================================== *)

Module DetectorSpec.
Import PyStr PyNum Vocabulary Examples ContradictionDetector ComparatorFacts.

(** ** Reflexivity (C1) *)

(** Every comparator but the semantic one finds a value equal to
    itself. *)
Lemma comparators_reflexive_but_semantic (v : ClauseValue) (t : string) :
  t <> "text_semantic" -> fst (_compare_clause_values v v t) = false.
Proof.
  intros Ht. rewrite compare_verdict. unfold select_comparator.
  destruct (String.eqb t "time_duration"); [apply time_durations_refl |].
  destruct (String.eqb t "time_range"); [apply time_ranges_refl |].
  destruct (String.eqb t "numeric"); [apply numeric_values_refl |].
  destruct (String.eqb t "datetime"); [apply datetime_values_refl |].
  destruct (String.eqb t "date_list"); [apply date_lists_refl |].
  destruct (String.eqb_spec t "text_semantic"); [contradiction |].
  apply text_exact_refl.
Qed.

(** C1.  The semantic comparator is not reflexive: the text
    [dismissal without cause], compared with itself, differs, because
    [with] is found inside [without]; two documents that carry this same
    clause are reported as contradicting each other. *)
Theorem text_semantic_not_reflexive :
  _compare_clause_values (VStr "dismissal without cause")
                         (VStr "dismissal without cause") "text_semantic"
  = (true,
     [ ("comparison_type", DStr "text_semantic");
       ("value1", DStr "dismissal without cause");
       ("value2", DStr "dismissal without cause");
       ("conflicting_terms", DStrPair "with" "without");
       ("key_terms1", DStrList ["cause"]);
       ("key_terms2", DStrList ["cause"]);
       ("semantic_conflict", DBool true) ])
  /\ map (fun x => (c_clause_type x, severity_and_id x))
         (detect_contradictions identical_documents)
     = [("termination_clause", ("high", Some 1%nat))].
Proof. vm_compute. auto. Qed.

(** ** The numeric fallback (C3) *)

(** What the code does when a side has no number: the stripped texts are
    compared as they are, upper and lower case distinct. *)
Lemma numeric_fallback (v1 v2 : ClauseValue) :
  extract_number v1 = None \/ extract_number v2 = None ->
  fst (_compare_clause_values v1 v2 "numeric")
  = negb (String.eqb (strip (py_str v1)) (strip (py_str v2))).
Proof.
  intros H. rewrite compare_verdict.
  change (select_comparator "numeric") with _compare_numeric_values.
  unfold _compare_numeric_values. run_cmp.
  destruct (extract_number v1), (extract_number v2), H; try discriminate; reflexivity.
Qed.

(** C3.  On [Negotiable] against [negotiable] neither side has a
    number, the numeric comparator reports a difference, and the
    lower-case text comparison of its siblings reports none. *)
Theorem numeric_fallback_is_case_sensitive :
  extract_number (VStr "Negotiable") = None
  /\ extract_number (VStr "negotiable") = None
  /\ fst (_compare_clause_values (VStr "Negotiable") (VStr "negotiable") "numeric")
     = true
  /\ text_differs (VStr "Negotiable") (VStr "negotiable") = false.
Proof. vm_compute. auto. Qed.

(** ** Fewer than two documents (C5) *)

(** C5.  [detect_contradictions] returns the empty list on the empty
    document list and on every one-document list, and calls
    [_compare_clause_values] on nothing. *)
Theorem detect_needs_two_documents :
  detect_contradictions [] = []
  /\ comparisons_performed [] = []
  /\ forall d : Document,
      detect_contradictions [d] = [] /\ comparisons_performed [d] = [].
Proof. repeat split. Qed.

(** ** Exceptions (C6) *)

(** C6.  When the selected comparator raises, [_compare_clause_values]
    returns [false] and the evidence written so far with the text of the
    exception under [error]; being a total function, it lets no
    exception through. *)
Theorem compare_clause_values_catches
        (value1 value2 : ClauseValue) (comparison_type : string)
        (e : py_exception) (details : Details) :
  select_comparator comparison_type value1 value2
                    (initial_details value1 value2 comparison_type)
  = (Raise e, details) ->
  _compare_clause_values value1 value2 comparison_type
  = (false, PyDict.set "error" (DStr (exn_str e)) details)
  /\ PyDict.get "error" (snd (_compare_clause_values value1 value2 comparison_type))
     = Some (DStr (exn_str e)).
Proof.
  intros H. unfold _compare_clause_values. rewrite H. simpl.
  split; [reflexivity | apply DictFacts.dict_get_set_same].
Qed.

Lemma compare_clause_values_catches_witness :
  _compare_clause_values overlong_notice (VStr "30 days") "time_duration"
  = (false,
     PyDict.set "error"
       (DStr ("Exceeds the limit (4300 digits) for integer string conversion: "
              ++ "value has 4301 digits; "
              ++ "use sys.set_int_max_str_digits() to increase the limit"))
       (initial_details overlong_notice (VStr "30 days") "time_duration"))
  /\ PyDict.get "error"
       (snd (_compare_clause_values overlong_notice (VStr "30 days") "time_duration"))
     = Some (DStr ("Exceeds the limit (4300 digits) for integer string conversion: "
                   ++ "value has 4301 digits; "
                   ++ "use sys.set_int_max_str_digits() to increase the limit")).
Proof.
  apply (compare_clause_values_catches
           overlong_notice (VStr "30 days") "time_duration"
           (ValueError
              ("Exceeds the limit (4300 digits) for integer string conversion: "
               ++ "value has 4301 digits; "
               ++ "use sys.set_int_max_str_digits() to increase the limit"))).
  vm_compute. reflexivity.
Defined.

(** ** Commutativity (C7) *)

(** C7.  For every comparison type and every pair of values, the boolean
    result of [_compare_clause_values] is the same in both orders. *)
Theorem compare_clause_values_commutative
        (value1 value2 : ClauseValue) (comparison_type : string) :
  fst (_compare_clause_values value1 value2 comparison_type)
  = fst (_compare_clause_values value2 value1 comparison_type).
Proof.
  rewrite !compare_verdict. unfold select_comparator.
  destruct (String.eqb comparison_type "time_duration"); [apply time_durations_comm |].
  destruct (String.eqb comparison_type "time_range"); [apply time_ranges_comm |].
  destruct (String.eqb comparison_type "numeric"); [apply numeric_values_comm |].
  destruct (String.eqb comparison_type "datetime"); [apply datetime_values_comm |].
  destruct (String.eqb comparison_type "date_list"); [apply date_lists_comm |].
  destruct (String.eqb comparison_type "text_semantic"); [apply text_semantic_comm |].
  apply text_exact_comm.
Qed.

(** ** The salary forms (C9) *)

(** C9.  The numeric comparator reads each of [$75,000], [75000] and
    [75K] as the double 75000.0, and no pair drawn from the three
    differs. *)
Theorem numeric_equivalence_class :
  Forall (fun v => exists x, extract_number v = Some x
                             /\ is_exactly x 75000 1 = true)
         salary_forms
  /\ Forall (fun '(a, b) => fst (_compare_clause_values a b "numeric") = false)
            (list_prod salary_forms salary_forms).
Proof.
  split.
  - repeat constructor; eexists; (split; [vm_compute; reflexivity | reflexivity]).
  - repeat constructor; vm_compute; reflexivity.
Qed.

(** ** Ordering and identifiers (C4) *)

(** C4.  The list [detect_contradictions] returns is sorted by (severity
    rank, clause type) and carries the identifiers 1, 2, ... in that
    order; three contradictions accumulated with severities medium,
    critical, high come out as critical (1), high (2), medium (3), as the
    two sample contracts show. *)
Theorem contradictions_sorted_with_ids :
  (forall documents : list Document,
      StronglySorted
        (fun x y => key_leb (sort_key x) (sort_key y) = true)
        (detect_contradictions documents)
      /\ map c_id (detect_contradictions documents)
         = map Some (seq 1 (length (detect_contradictions documents))))
  /\ (forall a b c : Contradiction,
        c_severity a = "medium" -> c_severity b = "critical" ->
        c_severity c = "high" ->
        _prioritize_contradictions [a; b; c] = assign_ids 1 [b; c; a]
        /\ map severity_and_id (_prioritize_contradictions [a; b; c])
           = [("critical", Some 1%nat); ("high", Some 2%nat); ("medium", Some 3%nat)])
  /\ map c_severity (accumulate_contradictions (_group_clauses_by_type two_contracts))
     = ["medium"; "critical"; "high"]
  /\ map (fun x => (c_clause_type x, severity_and_id x))
         (detect_contradictions two_contracts)
     = [ ("salary", ("critical", Some 1%nat));
         ("notice_period", ("high", Some 2%nat));
         ("working_hours", ("medium", Some 3%nat)) ].
Proof.
  split; [| split; [| split]].
  - intros documents. unfold detect_contradictions.
    destruct (length documents <? 2)%nat.
    + split; [constructor | reflexivity].
    + split; [apply SortFacts.prioritize_sorted | apply SortFacts.prioritize_ids].
  - intros a b c Ha Hb Hc.
    destruct a, b, c. simpl in Ha, Hb, Hc. subst. split; reflexivity.
  - vm_compute. reflexivity.
  - vm_compute. reflexivity.
Qed.

Lemma contradictions_sorted_with_ids_witness :
  _prioritize_contradictions
    [ bare_contradiction "working_hours" "medium";
      bare_contradiction "salary" "critical";
      bare_contradiction "notice_period" "high" ]
  = assign_ids 1 [ bare_contradiction "salary" "critical";
                   bare_contradiction "notice_period" "high";
                   bare_contradiction "working_hours" "medium" ]
  /\ map severity_and_id
       (_prioritize_contradictions
          [ bare_contradiction "working_hours" "medium";
            bare_contradiction "salary" "critical";
            bare_contradiction "notice_period" "high" ])
     = [("critical", Some 1%nat); ("high", Some 2%nat); ("medium", Some 3%nat)].
Proof.
  apply (proj1 (proj2 contradictions_sorted_with_ids)); reflexivity.
Defined.

End DetectorSpec.

(* ===================================================================== *)
(** * The clause parser: claims                                           *)
(* ===================================================================== *)

Module NoticeFacts.
Import PyStr PyNum Vocabulary ClauseParser.

Lemma take_succ (n : nat) :
  forall s c r, drop n s = String c r -> take (S n) s = take n s ++ String c "".
Proof.
  induction n as [| n IH]; intros s c r.
  - simpl. intros ->. reflexivity.
  - destruct s as [| a s]; [discriminate |].
    intros H.
    change (String a (take (S n) s) = String a (take n s ++ String c "")).
    f_equal. apply (IH s c r H).
Qed.

Lemma lower_app (a b : string) : lower (a ++ b) = lower a ++ lower b.
Proof. unfold lower. induction a as [| c a IH]; simpl; [| rewrite IH]; reflexivity. Qed.

Lemma unit_alternative_lower (w s u : string) :
  unit_alternative w s = Some u -> lower u = w \/ lower u = w ++ "s".
Proof.
  unfold unit_alternative.
  destruct (strip_prefix_ci w s) as [r |] eqn:E; [| discriminate].
  apply WordFacts.strip_prefix_ci_take in E as [E1 E2].
  destruct (strip_prefix_ci "s" r) as [r' |] eqn:F.
  - destruct r as [| c r]; [discriminate |].
    cbn [strip_prefix_ci] in F.
    destruct (Ascii.eqb "s" (lower_char c)) eqn:Hc; [| discriminate].
    apply Ascii.eqb_eq in Hc.
    intros Hu.
    assert (Hu' : u = take (S (String.length w)) s) by congruence.
    subst u. right.
    rewrite (take_succ _ _ c r (eq_sym E2)), lower_app, E1.
    unfold lower. simpl. rewrite <- Hc. reflexivity.
  - intros [= <-]. left. exact E1.
Qed.

(** What group 2 of the duration pattern can be, in lower case. *)
Lemma time_unit_lower (s u : string) :
  Re.time_unit s = Some u ->
  In (lower u) ["day"; "days"; "week"; "weeks"; "month"; "months"].
Proof.
  unfold Re.time_unit, Re.first_some.
  fold (unit_alternative "day" s). fold (unit_alternative "week" s).
  fold (unit_alternative "month" s).
  destruct (unit_alternative "day" s) eqn:E1;
    [ intros [= <-]; apply unit_alternative_lower in E1 as [-> | ->]; simpl; tauto |].
  destruct (unit_alternative "week" s) eqn:E2;
    [ intros [= <-]; apply unit_alternative_lower in E2 as [-> | ->]; simpl; tauto |].
  destruct (unit_alternative "month" s) eqn:E3;
    [ intros [= <-]; apply unit_alternative_lower in E3 as [-> | ->]; simpl; tauto |].
  discriminate.
Qed.

Lemma duration_unit (prev : option ascii) (s number unit : string) :
  Re.duration prev s = Some (number, unit) ->
  In (lower unit) ["day"; "days"; "week"; "weeks"; "month"; "months"].
Proof.
  unfold Re.duration.
  destruct (span is_digit s) as [[| c n] r]; [discriminate |].
  destruct (span is_space r) as [[| c' w] r']; [discriminate |].
  destruct (Re.time_unit r') as [u |] eqn:E; [| discriminate].
  intros [= <- <-]. eapply time_unit_lower; eauto.
Qed.

(** What the code does on a match: the digits as matched, the unit in
    the singular, and an [s] exactly when the number exceeds 1. *)
Lemma extract_notice_period_on_match (text number unit : string) (n : Z) :
  Re.search Re.duration text = Some (number, unit) ->
  int_of_digits number = Return n ->
  In (singular unit) ["day"; "week"; "month"]
  /\ _extract_notice_period text
     = Return (number ++ " " ++ singular unit ++ (if (1 <? n)%Z then "s" else "")).
Proof.
  intros Hm Hn. split.
  - apply StrFacts.search_go_some in Hm as (prev & s & Hm).
    apply duration_unit in Hm. unfold singular.
    simpl in Hm.
    repeat (destruct Hm as [<- | Hm]; [vm_compute; tauto |]).
    contradiction.
  - unfold _extract_notice_period. rewrite Hm, Hn. reflexivity.
Qed.

End NoticeFacts.

Module PostProcessFacts.
Import PyStr Vocabulary ClauseParser.

Lemma filter_nonempty_long (l : list string) :
  List.filter (fun v => negb (String.eqb (strip v) "")
                        && (2 <? String.length (strip v))%nat) l
  = List.filter (fun v => (2 <? String.length (strip v))%nat) l.
Proof.
  apply List.filter_ext. intros v.
  destruct (strip v); reflexivity.
Qed.

(** The loop body either leaves the dictionary alone or stores what
    survives of the value under its key. *)
Lemma post_process_entry_surviving processed key value :
  post_process_entry processed key value
  = match surviving value with
    | Some v' => PyDict.set key v' processed
    | None => processed
    end.
Proof.
  destruct value as [s | l]; unfold post_process_entry, surviving.
  - generalize (Re.sub Re.whitespace_run " " (strip s)). intros s'.
    destruct (Nat.ltb_spec (String.length s') 2), (Nat.ltb_spec 200 (String.length s')),
      (Nat.leb_spec 2 (String.length s')), (Nat.leb_spec (String.length s') 200);
      simpl; try reflexivity; lia.
  - rewrite filter_nonempty_long.
    destruct (map strip _); reflexivity.
Qed.

Lemma fold_get_absent (clauses : list (string * ClauseValue)) (k : string) :
  forall processed,
    ~ In k (map fst clauses) ->
    PyDict.get k (fold_left post_process_step clauses processed) = PyDict.get k processed.
Proof.
  induction clauses as [| [k' v'] clauses IH]; intros processed Hk; simpl; auto.
  simpl in Hk. rewrite IH by tauto.
  rewrite post_process_entry_surviving.
  destruct (surviving v'); [| reflexivity].
  apply DictFacts.dict_get_set_other. intros ->. tauto.
Qed.

Lemma fold_get_present (clauses : list (string * ClauseValue)) (k : string) (v : ClauseValue) :
  forall processed,
    List.NoDup (map fst clauses) -> In (k, v) clauses ->
    PyDict.get k processed = None ->
    PyDict.get k (fold_left post_process_step clauses processed) = surviving v.
Proof.
  induction clauses as [| [k' v'] clauses IH]; intros processed Hnd Hin Hnone;
    [contradiction |].
  simpl in Hnd. apply NoDup_cons_iff in Hnd as [Hk' Hnd].
  destruct Hin as [[= -> ->] | Hin].
  - simpl. rewrite fold_get_absent by exact Hk'.
    rewrite post_process_entry_surviving.
    destruct (surviving v); [apply DictFacts.dict_get_set_same | exact Hnone].
  - simpl. apply IH; auto.
    rewrite post_process_entry_surviving.
    destruct (surviving v'); [| exact Hnone].
    rewrite DictFacts.dict_get_set_other; [exact Hnone |].
    intros ->. apply Hk'. apply (in_map fst) in Hin. exact Hin.
Qed.

Lemma surviving_list_long (value : ClauseValue) (l : list string) :
  surviving value = Some (VList l) ->
  l <> [] /\ Forall (fun e => 3 <= String.length e)%nat l.
Proof.
  destruct value as [s | l0]; unfold surviving.
  - destruct (_ && _); discriminate.
  - destruct (map strip _) as [| x l'] eqn:E; [discriminate |].
    intros [= <-]. split; [discriminate |].
    rewrite <- E. apply Forall_map. apply List.Forall_forall.
    intros v Hv. apply List.filter_In in Hv as [_ Hv].
    apply Nat.ltb_lt in Hv. lia.
Qed.

Lemma fold_lists_long (clauses : list (string * ClauseValue)) :
  forall processed, lists_long processed ->
                    lists_long (fold_left post_process_step clauses processed).
Proof.
  induction clauses as [| [k' v'] clauses IH]; intros processed Hp; simpl; auto.
  apply IH. rewrite post_process_entry_surviving.
  destruct (surviving v') as [v'' |] eqn:E; [| exact Hp].
  intros k l. destruct (String.eqb_spec k k') as [-> | Hne].
  - rewrite DictFacts.dict_get_set_same. intros [= ->].
    eapply surviving_list_long; eauto.
  - rewrite DictFacts.dict_get_set_other by exact Hne. apply Hp.
Qed.

End PostProcessFacts.

Module CleanFacts.
Import PyStr Vocabulary ClauseParser SubFacts WordFacts.

Lemma word_constants :
  wordy "thirty" /\ wordy "30" /\ wordy "sixty" /\ wordy "60"
  /\ wordy "ninety" /\ wordy "90" /\ wordy "fourteen" /\ wordy "14".
Proof. repeat split; (reflexivity || discriminate). Qed.

(** [_clean_text] as three passes: blanks, page markers, words. *)
Lemma clean_text_shape (text : string) :
  _clean_text text
  = strip (word_map number_words
             (Re.sub Re.page_marker "" (Re.sub Re.whitespace_run " " text))).
Proof.
  destruct word_constants as (H1 & H2 & H3 & H4 & H5 & H6 & H7 & H8).
  unfold _clean_text.
  rewrite !number_sub by assumption.
  rewrite !word_map_compose
    by (intros w Hw; repeat (apply rewrite_word_wordy; [assumption |]); exact Hw).
  reflexivity.
Qed.

Lemma clean_text_plain_blank (text : string) :
  all_chars plain_blank (_clean_text text) = true.
Proof.
  unfold _clean_text, Re.sub.
  apply strip_all_chars.
  do 5 (apply sub_go_all_chars; [reflexivity |]).
  apply collapse_plain_blank.
Qed.

Lemma number_words_twice (s : string) :
  word_map number_words (word_map number_words s) = word_map number_words s.
Proof.
  rewrite word_map_compose by apply number_words_wordy.
  unfold word_map. apply map_words_ext. intros w _.
  destruct (number_words_settled w) as (H30 & H60 & H90 & H14).
  unfold number_words at 1. rewrite H30, H60, H90, H14. reflexivity.
Qed.

Lemma page_marker_fixed (s : string) :
  Re.search Re.page_marker s = None -> Re.sub Re.page_marker "" s = s.
Proof.
  intros H. apply sub_fixed.
  apply (everywhere_impl (fun p t => Re.page_marker p t = None)).
  - intros p t E n. rewrite E. discriminate.
  - apply search_go_none. exact H.
Qed.

End CleanFacts.

Module ParserSpec.
Import PyStr PyNum Vocabulary Examples ClauseParser.

(** C8.  On the raw match [0 days notice] the number is 0, not 1, and
    the unit is written in the singular: the plural is added only above
    1. *)
Theorem notice_period_zero_is_singular :
  Re.search Re.duration "0 days notice" = Some ("0", "days")
  /\ int_of_digits "0" = Return 0%Z
  /\ _extract_notice_period "0 days notice" = Return "0 day".
Proof. vm_compute. auto. Qed.

(** C10.  In the dictionary [_post_process_clauses] returns, a string
    value is present exactly when its cleaned text has between 2 and 200
    characters, a list keeps only the entries whose stripped text has more
    than 2 characters (and disappears when none is left), and so every
    entry of a list found in the result has at least 3 characters. *)
Theorem post_process_length_filter (clauses : list (string * ClauseValue)) :
  List.NoDup (map fst clauses) ->
  (forall key s,
      In (key, VStr s) clauses ->
      PyDict.get key (_post_process_clauses clauses)
      = let value := Re.sub Re.whitespace_run " " (strip s) in
        if (2 <=? String.length value)%nat && (String.length value <=? 200)%nat
        then Some (VStr value) else None)
  /\ (forall key l,
        In (key, VList l) clauses ->
        PyDict.get key (_post_process_clauses clauses)
        = match map strip
                  (List.filter (fun v => (2 <? String.length (strip v))%nat) l) with
          | [] => None
          | cleaned_list => Some (VList cleaned_list)
          end)
  /\ (forall key l,
        PyDict.get key (_post_process_clauses clauses) = Some (VList l) ->
        l <> [] /\ Forall (fun entry => 3 <= String.length entry)%nat l).
Proof.
  intros Hnd. unfold _post_process_clauses.
  change (fun processed '(key, value) => post_process_entry processed key value)
    with post_process_step.
  split; [| split].
  - intros key s Hin.
    rewrite (PostProcessFacts.fold_get_present clauses key (VStr s)); auto.
  - intros key l Hin.
    rewrite (PostProcessFacts.fold_get_present clauses key (VList l)); auto.
  - apply PostProcessFacts.fold_lists_long. intros k l. discriminate.
Qed.

Lemma post_process_length_filter_witness :
  PyDict.get "salary" (_post_process_clauses short_clauses) = Some (VStr "$5")
  /\ PyDict.get "deadline" (_post_process_clauses short_clauses) = None
  /\ PyDict.get "important_dates" (_post_process_clauses short_clauses)
     = Some (VList ["1/2/24"]).
Proof.
  assert (Hnd : List.NoDup (map fst short_clauses)).
  { repeat constructor; simpl; intuition discriminate. }
  destruct (post_process_length_filter short_clauses Hnd) as (Hs & Hl & _).
  split; [| split].
  - apply (Hs "salary" " $5 "). simpl. tauto.
  - apply (Hs "deadline" "x"). simpl. tauto.
  - apply (Hl "important_dates" ["x1"; " 1/2/24 "; "  "]). simpl. tauto.
Defined.

(** ** Normalising twice (C2) *)

(** The claim as stated fails: removing a page marker leaves the blanks
    on both sides of it, which a second pass then merges. *)
Lemma clean_text_not_idempotent :
  _clean_text (_clean_text "a --- Page 1 --- b") <> _clean_text "a --- Page 1 --- b".
Proof. vm_compute. discriminate. Qed.

(** C2, amended.  Cleaning a cleaned text changes nothing whenever the
    cleaned text holds no page marker and no two blanks in a row. *)
Theorem clean_text_idempotent_when_tidy (text : string) :
  Re.search Re.page_marker (_clean_text text) = None ->
  contains "  " (_clean_text text) = false ->
  _clean_text (_clean_text text) = _clean_text text.
Proof.
  intros Hmarker Hblanks.
  rewrite (CleanFacts.clean_text_shape (_clean_text text)).
  rewrite SubFacts.collapse_fixed
    by (auto using CleanFacts.clean_text_plain_blank).
  rewrite CleanFacts.page_marker_fixed by exact Hmarker.
  rewrite (CleanFacts.clean_text_shape text).
  rewrite WordFacts.word_map_strip by apply WordFacts.number_words_wordy.
  rewrite CleanFacts.number_words_twice.
  apply WordFacts.strip_idempotent.
Qed.

Lemma clean_text_idempotent_when_tidy_witness :
  _clean_text (_clean_text "  Thirty   days notice, --- Page 12 ---SIXTY-ninety fourteenth  ")
  = _clean_text "  Thirty   days notice, --- Page 12 ---SIXTY-ninety fourteenth  ".
Proof.
  apply clean_text_idempotent_when_tidy; vm_compute; reflexivity.
Defined.

End ParserSpec.

(* ===================================================================== *)
(** * Further properties of the comparators                               *)
(* ===================================================================== *)

Module ComparatorSpec.
Import PyStr PyNum Vocabulary Examples ContradictionDetector ComparatorFacts.

Lemma same_value_same_verdict (v : ClauseValue) (t : string) :
  t <> "text_semantic" -> fst (_compare_clause_values v v t) = false.
Proof.
  intros Ht. rewrite compare_verdict. unfold select_comparator.
  destruct (String.eqb t "time_duration"); [apply time_durations_refl |].
  destruct (String.eqb t "time_range"); [apply time_ranges_refl |].
  destruct (String.eqb t "numeric"); [apply numeric_values_refl |].
  destruct (String.eqb t "datetime"); [apply datetime_values_refl |].
  destruct (String.eqb t "date_list"); [apply date_lists_refl |].
  destruct (String.eqb_spec t "text_semantic"); [contradiction |].
  apply text_exact_refl.
Qed.

(** X1.  For every comparison type other than [text_semantic] (unknown
    types included, which fall back on the exact comparison) a value
    compared with itself does not differ. *)
Theorem identical_values_do_not_differ (v : ClauseValue) (comparison_type : string) :
  comparison_type <> "text_semantic" ->
  fst (_compare_clause_values v v comparison_type) = false.
Proof. apply same_value_same_verdict. Qed.

Lemma identical_values_do_not_differ_witness :
  fst (_compare_clause_values (VList ["$75,000"; "75K"]) (VList ["$75,000"; "75K"])
                              "numeric") = false.
Proof. apply identical_values_do_not_differ. discriminate. Defined.

(** X2.  The semantic comparator reports a text as differing from itself
    exactly when, lower-cased and stripped, it contains [without], or
    [no cause], or both [immediate] and [notice], or both [either] and
    [employer only]. *)
Theorem semantic_self_conflict (v : ClauseValue) :
  fst (_compare_clause_values v v "text_semantic")
  = let text := strip (lower (py_str v)) in
    contains "without" text
    || contains "no cause" text
    || (contains "immediate" text && contains "notice" text)
    || (contains "either" text && contains "employer only" text).
Proof.
  rewrite compare_verdict.
  change (select_comparator "text_semantic") with _compare_text_semantic.
  rewrite text_semantic_same. cbv zeta.
  generalize (strip (lower (py_str v))). intros text.
  unfold find_conflict, conflicting_pairs, Re.first_some.
  assert (Hwith : contains "without" text = true -> contains "with" text = true).
  { clear. induction text as [| c text IH]; [discriminate |].
    cbn [contains]. intros H.
    destruct (strip_prefix "without" (String c text)) eqn:E.
    - cbn [strip_prefix] in E |- *.
      repeat match type of E with
             | (if ?b then _ else None) = Some _ =>
                 destruct b; [| discriminate]
             | match ?t with "" => None | String _ _ => _ end = Some _ =>
                 destruct t; [discriminate |]
             end.
      cbn [strip_prefix]. reflexivity.
    - destruct (strip_prefix "with" (String c text)); [reflexivity | auto]. }
  assert (Hcause : contains "no cause" text = true -> contains "cause" text = true).
  { clear. induction text as [| c text IH]; [discriminate |].
    cbn [contains]. intros H.
    destruct (strip_prefix "no cause" (String c text)) eqn:E.
    - cbn [strip_prefix] in E.
      repeat match type of E with
             | (if ?b then _ else None) = Some _ =>
                 let Hb := fresh "Hb" in
                 destruct b eqn:Hb; [apply Ascii.eqb_eq in Hb; subst | discriminate]
             | match ?t with "" => None | String _ _ => _ end = Some _ =>
                 destruct t; [discriminate |]
             end.
      vm_compute. reflexivity.
    - destruct (strip_prefix "cause" (String c text)); [reflexivity | auto]. }
  destruct (contains "with" text) eqn:A1, (contains "without" text) eqn:A2,
           (contains "cause" text) eqn:A3, (contains "no cause" text) eqn:A4,
           (contains "immediate" text) eqn:A5, (contains "notice" text) eqn:A6,
           (contains "either" text) eqn:A7, (contains "employer only" text) eqn:A8;
    simpl; try reflexivity;
    try (specialize (Hwith eq_refl); discriminate);
    try (specialize (Hcause eq_refl); discriminate).
Qed.

(** X3.  When either side has no number, the numeric comparator compares
    the stripped texts as they are written, upper and lower case
    distinct. *)
Theorem numeric_without_number (v1 v2 : ClauseValue) :
  extract_number v1 = None \/ extract_number v2 = None ->
  fst (_compare_clause_values v1 v2 "numeric")
  = negb (String.eqb (strip (py_str v1)) (strip (py_str v2))).
Proof.
  intros H. rewrite compare_verdict.
  change (select_comparator "numeric") with _compare_numeric_values.
  unfold _compare_numeric_values. run_cmp.
  destruct (extract_number v1), (extract_number v2), H; try discriminate; reflexivity.
Qed.

Lemma numeric_without_number_witness :
  fst (_compare_clause_values (VStr " to be agreed ") (VStr "$75,000") "numeric")
  = negb (String.eqb (strip " to be agreed ") (strip "$75,000")).
Proof. apply numeric_without_number. left. vm_compute. reflexivity. Defined.

(** ** What the comparators write and when they fail *)

Lemma untouched_ret {A : Type} (k : string) (a : A) : untouched k (ret a).
Proof. intros d. reflexivity. Qed.

Lemma untouched_lift {A : Type} (k : string) (o : outcome A) : untouched k (lift o).
Proof. intros d. reflexivity. Qed.

Lemma untouched_put (k k' : string) (v : DVal) : k <> k' -> untouched k (put k' v).
Proof. intros H d. apply DictFacts.dict_get_set_other. exact H. Qed.

Lemma untouched_bind {A B : Type} (k : string) (c : Cmp A) (f : A -> Cmp B) :
  untouched k c -> (forall a, untouched k (f a)) -> untouched k (bind c f).
Proof.
  intros Hc Hf d. unfold bind. specialize (Hc d).
  destruct (c d) as [[a | e] d']; simpl in *; [| exact Hc].
  rewrite Hf. exact Hc.
Qed.

Ltac untouched_step Hk :=
  match goal with
  | |- untouched _ (bind _ _) => apply untouched_bind; [| intros ?]
  | |- untouched _ (ret _) => apply untouched_ret
  | |- untouched _ (lift _) => apply untouched_lift
  | |- untouched _ (put _ _) =>
      apply untouched_put; intros ->; apply Hk; simpl; tauto
  | |- untouched _ (match ?x with _ => _ end) => destruct x
  | |- untouched _ (if ?x then _ else _) => destruct x
  end.

Lemma comparators_untouched (k : string) (t : string) (v1 v2 : ClauseValue) :
  ~ In k evidence_keys -> untouched k (select_comparator t v1 v2).
Proof.
  intros Hk. unfold select_comparator.
  assert (Hexact : forall a b, untouched k (_compare_text_exact a b)).
  { intros a b. unfold _compare_text_exact. repeat untouched_step Hk. }
  repeat match goal with
         | |- untouched _ ((if ?b then _ else _) _ _) => destruct b
         end.
  - unfold _compare_time_durations. repeat untouched_step Hk.
  - unfold _compare_time_ranges. repeat untouched_step Hk.
  - unfold _compare_numeric_values. repeat untouched_step Hk.
  - unfold _compare_datetime_values. repeat untouched_step Hk.
  - unfold _compare_date_lists. destruct v1, v2; try apply Hexact.
    repeat untouched_step Hk.
  - unfold _compare_text_semantic. repeat untouched_step Hk.
  - apply Hexact.
Qed.

(** X4.  The evidence [_compare_clause_values] returns always carries
    the comparison type and the two values as text, whatever the
    comparator wrote or raised. *)
Theorem evidence_keeps_inputs (value1 value2 : ClauseValue) (comparison_type : string) :
  let details := snd (_compare_clause_values value1 value2 comparison_type) in
  PyDict.get "comparison_type" details = Some (DStr comparison_type)
  /\ PyDict.get "value1" details = Some (DStr (py_str value1))
  /\ PyDict.get "value2" details = Some (DStr (py_str value2)).
Proof.
  cbv zeta. unfold _compare_clause_values.
  pose proof (comparators_untouched "comparison_type" comparison_type value1 value2
                ltac:(simpl; intuition discriminate)
                (initial_details value1 value2 comparison_type)) as H1.
  pose proof (comparators_untouched "value1" comparison_type value1 value2
                ltac:(simpl; intuition discriminate)
                (initial_details value1 value2 comparison_type)) as H2.
  pose proof (comparators_untouched "value2" comparison_type value1 value2
                ltac:(simpl; intuition discriminate)
                (initial_details value1 value2 comparison_type)) as H3.
  destruct (select_comparator comparison_type value1 value2 _) as [[b | e] d];
    simpl in *.
  - rewrite H1, H2, H3. auto.
  - rewrite !DictFacts.dict_get_set_other by discriminate.
    rewrite H1, H2, H3. auto.
Qed.

Lemma comparators_return (t : string) (v1 v2 : ClauseValue) :
  t <> "time_duration" -> returns (select_comparator t v1 v2).
Proof.
  intros Ht d. unfold select_comparator.
  assert (Hexact : forall a b, exists r, fst (_compare_text_exact a b d) = Return r).
  { intros a b. unfold _compare_text_exact. run_cmp. eexists; reflexivity. }
  destruct (String.eqb_spec t "time_duration"); [contradiction |].
  repeat match goal with
         | |- context [(if ?b then _ else _) _ _ _] => destruct b
         end.
  - unfold _compare_time_ranges. run_cmp.
    destruct (parse_time_range v1) as [[s1 e1] |], (parse_time_range v2) as [[s2 e2] |];
      simpl; try (eexists; reflexivity).
    destruct (negb _); eexists; reflexivity.
  - unfold _compare_numeric_values. run_cmp.
    destruct (extract_number v1) as [n1 |] eqn:E1,
             (extract_number v2) as [n2 |] eqn:E2;
      simpl; try (eexists; reflexivity).
    apply extract_number_nonneg in E1, E2.
    destruct (feqb n1 n2) eqn:E; simpl; [eexists; reflexivity |].
    unfold fdiv. rewrite (FloatFacts.fmax_not_zero n1 n2) by assumption.
    eexists; reflexivity.
  - unfold _compare_datetime_values. run_cmp. eexists; reflexivity.
  - unfold _compare_date_lists. destruct v1, v2; try apply Hexact.
    run_cmp. eexists; reflexivity.
  - unfold _compare_text_semantic. run_cmp.
    destruct (find_conflict _ _) as [[a b] |]; simpl; eexists; reflexivity.
  - apply Hexact.
Qed.

Lemma parse_duration_outcome (v : ClauseValue) :
  if overlong_number v
  then exists e, parse_duration v = Raise e
  else exists days, parse_duration v = Return days.
Proof.
  unfold overlong_number, parse_duration, int_of_digits.
  destruct (Re.search Re.duration (py_str v)) as [[number unit] |];
    [| eexists; reflexivity].
  destruct (int_max_str_digits <? String.length number)%nat; [eexists; reflexivity |].
  repeat match goal with
         | |- context [if ?b then _ else _] => destruct b
         end; eexists; reflexivity.
Qed.

(** X5.  The evidence carries an [error] entry exactly when the
    comparison type is [time_duration] and the number of one of the two
    values has more digits than [int] accepts; no other comparator
    raises, and the numeric one never divides by zero. *)
Theorem error_only_for_overlong_durations
        (value1 value2 : ClauseValue) (comparison_type : string) :
  PyDict.get "error" (snd (_compare_clause_values value1 value2 comparison_type)) <> None
  <-> comparison_type = "time_duration"
      /\ (overlong_number value1 = true \/ overlong_number value2 = true).
Proof.
  unfold _compare_clause_values.
  set (d0 := initial_details value1 value2 comparison_type).
  pose proof (comparators_untouched "error" comparison_type value1 value2
                ltac:(simpl; intuition discriminate) d0) as Hkeep.
  destruct (String.eqb_spec comparison_type "time_duration") as [-> | Ht].
  - change (select_comparator "time_duration") with _compare_time_durations in *.
    unfold _compare_time_durations in *. revert Hkeep. run_cmp.
    pose proof (parse_duration_outcome value1) as H1.
    pose proof (parse_duration_outcome value2) as H2.
    destruct (overlong_number value1).
    { destruct H1 as [e ->]. simpl. intros _. split; [auto | discriminate]. }
    destruct H1 as [days1 ->].
    destruct (overlong_number value2).
    { destruct H2 as [e ->]. simpl. intros _. split; [auto | discriminate]. }
    destruct H2 as [days2 ->]. simpl.
    destruct days1, days2; simpl; intros Hkeep; rewrite ?Hkeep;
      (split; [intros H; exfalso; apply H; reflexivity
              | intros [_ [H | H]]; discriminate]).
  - destruct (comparators_return comparison_type value1 value2 Ht d0) as [b Hb].
    destruct (select_comparator comparison_type value1 value2 d0) as [[b' | e] d];
      simpl in *; [| discriminate].
    rewrite Hkeep. split; [intros H; exfalso; apply H; reflexivity | tauto].
Qed.

Lemma key_is_found {V : Type} (d : list (string * V)) (k : string) :
  In k (PyDict.keys d) -> PyDict.get k d <> None.
Proof.
  unfold PyDict.keys. induction d as [| [k0 v0] d IH]; simpl; [intros [] |].
  intros H. destruct (String.eqb_spec k k0) as [-> | Hne]; [discriminate |].
  destruct H as [-> | H]; [congruence | auto].
Qed.

(** X26.  The evidence dictionary only has keys that the code names:
    [comparison_type], [value1], [value2], [error] and the keys the
    comparators write. *)
Theorem evidence_has_known_keys (value1 value2 : ClauseValue) (comparison_type : string) :
  Forall (fun k => In k ("comparison_type" :: "value1" :: "value2" :: "error"
                          :: evidence_keys))
         (PyDict.keys (snd (_compare_clause_values value1 value2 comparison_type))).
Proof.
  apply List.Forall_forall. intros k Hk. apply key_is_found in Hk.
  destruct (in_dec String.string_dec k
              ("comparison_type" :: "value1" :: "value2" :: "error" :: evidence_keys))
    as [Hin | Hout]; [exact Hin |].
  exfalso. apply Hk. clear Hk.
  assert (Hev : ~ In k evidence_keys) by (intros H; apply Hout; simpl; tauto).
  assert (Hne : k <> "comparison_type" /\ k <> "value1" /\ k <> "value2"
                /\ k <> "error").
  { repeat split; intros ->; apply Hout; simpl; tauto. }
  destruct Hne as (N1 & N2 & N3 & N4).
  pose proof (comparators_untouched k comparison_type value1 value2 Hev
                (initial_details value1 value2 comparison_type)) as Hkeep.
  assert (H0 : PyDict.get k (initial_details value1 value2 comparison_type) = None).
  { unfold initial_details. simpl.
    destruct (String.eqb_spec k "comparison_type"); [contradiction |].
    destruct (String.eqb_spec k "value1"); [contradiction |].
    destruct (String.eqb_spec k "value2"); [contradiction |]. reflexivity. }
  unfold _compare_clause_values.
  destruct (select_comparator comparison_type value1 value2 _) as [[b | e] d];
    simpl in *.
  - congruence.
  - rewrite DictFacts.dict_get_set_other by exact N4. congruence.
Qed.

(** X27.  A number read by [extract_number] is never negative and never
    a NaN: a minus sign in front of the digits is not read. *)
Theorem parsed_numbers_are_not_negative (value : ClauseValue) (x : spec_float) :
  extract_number value = Some x -> nonneg x.
Proof. apply extract_number_nonneg. Qed.

Lemma parsed_numbers_are_not_negative_witness :
  nonneg (float_of_decimal "1500" "50").
Proof.
  apply (parsed_numbers_are_not_negative (VStr "-$1,500.50 per month")).
  vm_compute. reflexivity.
Defined.

(** X28.  Two date lists differ exactly when some date, stripped and
    lower-cased, is in one list and not in the other: order, repetition,
    case and surrounding blanks do not count. *)
Theorem date_lists_compare_as_sets (dates1 dates2 : list string) :
  fst (_compare_clause_values (VList dates1) (VList dates2) "date_list") = false
  <-> forall d, In d (map (fun v => lower (strip v)) dates1)
                <-> In d (map (fun v => lower (strip v)) dates2).
Proof.
  rewrite compare_verdict.
  change (select_comparator "date_list") with _compare_date_lists.
  unfold _compare_date_lists. run_cmp.
  rewrite negb_false_iff, bool_decide_eq_true.
  rewrite set_eq. split; intros H d; specialize (H d);
    rewrite !elem_of_list_to_set, !list_elem_of_In in *; exact H.
Qed.

End ComparatorSpec.

(* ===================================================================== *)
(** * Notice periods, from the parser to the detector                     *)
(* ===================================================================== *)

Module NoticeSpec.
Import PyStr PyNum Vocabulary Examples ContradictionDetector ClauseParser.
Import NoticeFacts.

#[local] Arguments String.append !s1 s2 / : simpl nomatch.

Lemma duration_number (prev : option ascii) (s number unit : string) :
  Re.duration prev s = Some (number, unit) ->
  all_chars is_digit number = true /\ number <> "".
Proof.
  unfold Re.duration.
  pose proof (StrFacts.span_all is_digit s) as Hall.
  destruct (span is_digit s) as [[| c n] r]; [discriminate |].
  destruct (span is_space r) as [[| c' w] r']; [discriminate |].
  destruct (Re.time_unit r') as [u |]; [| discriminate].
  intros [= <- <-]. split; [exact Hall | discriminate].
Qed.

(** The pattern finds a number and a unit written the plain way. *)
Lemma search_plain_duration (number u : string) :
  all_chars is_digit number = true -> number <> "" ->
  In u ["day"; "days"; "week"; "weeks"; "month"; "months"] ->
  Re.search Re.duration (number ++ " " ++ u) = Some (number, u).
Proof.
  intros Hd Hn Hu.
  assert (H : Re.duration None (number ++ " " ++ u) = Some (number, u)).
  { unfold Re.duration.
    rewrite (WordFacts.span_exact is_digit number (" " ++ u) Hd) by reflexivity.
    destruct number as [| c n]; [congruence |].
    simpl in Hu.
    repeat (destruct Hu as [<- | Hu]; [vm_compute; reflexivity |]).
    contradiction. }
  unfold Re.search. destruct number as [| c n]; [congruence |].
  simpl in *. rewrite H. reflexivity.
Qed.

Lemma written_unit (unit : string) (n : Z) :
  In (singular unit) ["day"; "week"; "month"] ->
  In (singular unit ++ (if (1 <? n)%Z then "s" else ""))
     ["day"; "days"; "week"; "weeks"; "month"; "months"].
Proof.
  simpl. intros H.
  repeat (destruct H as [<- | H]; [destruct (1 <? n)%Z; simpl; tauto |]).
  contradiction.
Qed.

Lemma parse_duration_on_match (v : ClauseValue) (number unit : string) (n : Z) :
  Re.search Re.duration (py_str v) = Some (number, unit) ->
  int_of_digits number = Return n ->
  In (singular unit) ["day"; "week"; "month"]
  /\ parse_duration v = Return (Some (n * days_in (singular unit))%Z).
Proof.
  intros Hm Hn.
  pose proof Hm as Hu. apply StrFacts.search_go_some in Hu as (prev & s & Hu).
  apply duration_unit in Hu.
  unfold parse_duration. rewrite Hm, Hn. unfold singular.
  simpl in Hu.
  repeat (destruct Hu as [<- | Hu];
          [ split; [vm_compute; tauto |];
            cbv - [Z.mul]; rewrite ?Z.mul_1_r; reflexivity |]).
  contradiction.
Qed.

(** X6.  Whenever the duration pattern matches, [parse_duration] returns
    a number of days: the matched number, times 7 for weeks and times 30
    for months, unless the number has more digits than [int] accepts. *)
Theorem duration_in_days (v : ClauseValue) (number unit : string) (n : Z) :
  Re.search Re.duration (py_str v) = Some (number, unit) ->
  int_of_digits number = Return n ->
  In (singular unit) ["day"; "week"; "month"]
  /\ parse_duration v = Return (Some (n * days_in (singular unit))%Z).
Proof. apply parse_duration_on_match. Qed.

Lemma duration_in_days_witness :
  In (singular "Weeks") ["day"; "week"; "month"]
  /\ parse_duration (VStr "notice of 2  Weeks in writing")
     = Return (Some (2 * days_in (singular "Weeks"))%Z).
Proof. apply (duration_in_days _ "2"); vm_compute; reflexivity. Defined.

(** X7.  A notice period the parser wrote from a match of the duration
    pattern is read by the detector as the same number of days as the
    text it was extracted from. *)
Theorem notice_period_keeps_days (text out : string) :
  Re.search Re.duration text <> None ->
  _extract_notice_period text = Return out ->
  parse_duration (VStr out) = parse_duration (VStr text).
Proof.
  intros Hm Hout.
  destruct (Re.search Re.duration text) as [[number unit] |] eqn:E; [| congruence].
  destruct (int_of_digits number) as [n | e] eqn:Hn.
  2: { unfold _extract_notice_period in Hout. rewrite E, Hn in Hout. discriminate. }
  destruct (extract_notice_period_on_match text number unit n E Hn) as [Hu Hx].
  assert (Ho : out = number ++ " " ++ singular unit
                              ++ (if (1 <? n)%Z then "s" else "")) by congruence.
  subst out.
  pose proof E as Hd. apply StrFacts.search_go_some in Hd as (prev & s & Hd).
  apply duration_number in Hd as [Hd Hne].
  pose proof (search_plain_duration number _ Hd Hne (written_unit unit n Hu)) as Hs.
  destruct (parse_duration_on_match (VStr text) number unit n E Hn) as [_ H1].
  destruct (parse_duration_on_match
              (VStr (number ++ " " ++ singular unit ++ (if (1 <? n)%Z then "s" else "")))
              number _ n Hs Hn) as [_ H2].
  rewrite H1, H2. do 3 f_equal. simpl in Hu.
  repeat (destruct Hu as [<- | Hu]; [destruct (1 <? n)%Z; vm_compute; reflexivity |]).
  contradiction.
Qed.

Lemma notice_period_keeps_days_witness :
  parse_duration (VStr "1 week") = parse_duration (VStr "notice of 1  Weeks").
Proof.
  apply notice_period_keeps_days; [vm_compute; discriminate | vm_compute; reflexivity].
Defined.

(** ** Extracting twice *)

Lemma settled_on_match (text out : string) :
  Re.search Re.duration text <> None ->
  _extract_notice_period text = Return out ->
  _extract_notice_period out = Return out.
Proof.
  intros Hm Hout.
  destruct (Re.search Re.duration text) as [[number unit] |] eqn:E; [| congruence].
  destruct (int_of_digits number) as [n | e] eqn:Hn.
  2: { unfold _extract_notice_period in Hout. rewrite E, Hn in Hout. discriminate. }
  destruct (extract_notice_period_on_match text number unit n E Hn) as [Hu Hx].
  assert (Ho : out = number ++ " " ++ singular unit
                              ++ (if (1 <? n)%Z then "s" else "")) by congruence.
  subst out.
  pose proof E as Hd. apply StrFacts.search_go_some in Hd as (prev & s & Hd).
  apply duration_number in Hd as [Hd Hne].
  pose proof (search_plain_duration number _ Hd Hne (written_unit unit n Hu)) as Hs.
  destruct (extract_notice_period_on_match _ number _ n Hs Hn) as [_ H2].
  rewrite H2. do 3 f_equal. simpl in Hu.
  repeat (destruct Hu as [<- | Hu]; [destruct (1 <? n)%Z; vm_compute; reflexivity |]).
  contradiction.
Qed.

(** A text is its stripped text between two runs of blanks. *)
Lemma lstrip_decompose (s : string) : exists w, s = w ++ lstrip s.
Proof.
  induction s as [| c s [w IH]]; [exists ""; reflexivity |].
  simpl. destruct (is_space c).
  - exists (String c w). simpl. congruence.
  - exists "". reflexivity.
Qed.

Lemma rstrip_decompose (s : string) : exists w, s = rstrip s ++ w.
Proof.
  induction s as [| c s [w IH]]; [exists ""; reflexivity |].
  rewrite WordFacts.rstrip_cons.
  destruct (rstrip s) as [| a r] eqn:E.
  - destruct (is_space c).
    + exists (String c s). reflexivity.
    + exists w. simpl in *. congruence.
  - exists w. simpl in *. congruence.
Qed.

Lemma strip_decompose (s : string) : exists w1 w2, s = w1 ++ strip s ++ w2.
Proof.
  destruct (lstrip_decompose s) as [w1 H1].
  destruct (rstrip_decompose (lstrip s)) as [w2 H2].
  exists w1, w2. unfold strip. rewrite <- H2. exact H1.
Qed.

Lemma strip_prefix_app (x a r w : string) :
  strip_prefix x a = Some r -> strip_prefix x (a ++ w) = Some (r ++ w).
Proof.
  revert a. induction x as [| c x IH]; intros a; simpl.
  - intros [= <-]. reflexivity.
  - destruct a as [| d a]; [discriminate |]. simpl.
    destruct (Ascii.eqb c d); [apply IH | discriminate].
Qed.

Lemma strip_prefix_ci_app (x a r w : string) :
  strip_prefix_ci x a = Some r -> strip_prefix_ci x (a ++ w) = Some (r ++ w).
Proof.
  revert a. induction x as [| c x IH]; intros a; simpl.
  - intros [= <-]. reflexivity.
  - destruct a as [| d a]; [discriminate |]. simpl.
    destruct (Ascii.eqb c (lower_char d)); [apply IH | discriminate].
Qed.

Lemma contains_tail (x : string) (c : ascii) (s : string) :
  contains x s = true -> contains x (String c s) = true.
Proof.
  intros H. cbn [contains]. destruct (strip_prefix x (String c s)); auto.
Qed.

Lemma contains_app_r (x a b : string) :
  contains x b = true -> contains x (a ++ b) = true.
Proof.
  intros H. induction a as [| c a IH]; [exact H |].
  simpl. apply contains_tail. exact IH.
Qed.

Lemma contains_app_l (x a w : string) :
  contains x a = true -> contains x (a ++ w) = true.
Proof.
  induction a as [| c a IH].
  - destruct x as [| d x]; [| discriminate]. intros _. destruct w; reflexivity.
  - cbn [contains].
    destruct (strip_prefix x (String c a)) as [r |] eqn:E.
    + intros _. change (String c a ++ w) with (String c (a ++ w)).
      cbn [contains].
      change (String c (a ++ w)) with (String c a ++ w).
      rewrite (strip_prefix_app _ _ _ w E). reflexivity.
    + intros H. change (String c a ++ w) with (String c (a ++ w)).
      apply contains_tail. apply IH. exact H.
Qed.

(** What is found in the stripped text is found in the text. *)
Lemma contains_lower_strip (x text : string) :
  contains x (lower (strip text)) = true -> contains x (lower text) = true.
Proof.
  intros H. destruct (strip_decompose text) as (w1 & w2 & E).
  rewrite E at 1. rewrite !lower_app.
  apply contains_app_r, contains_app_l. exact H.
Qed.

Lemma span_app (p : ascii -> bool) (s w : string) :
  snd (span p s) <> "" ->
  span p (s ++ w) = (fst (span p s), snd (span p s) ++ w).
Proof.
  induction s as [| c s IH]; simpl; [congruence |].
  destruct (p c) eqn:E; [| reflexivity].
  destruct (span p s) as [a b] eqn:Es. simpl in *. intros H.
  rewrite (IH H). reflexivity.
Qed.

Lemma time_unit_extends (s w : string) :
  Re.time_unit s <> None -> Re.time_unit (s ++ w) <> None.
Proof.
  unfold Re.time_unit, Re.first_some.
  destruct (strip_prefix_ci "day" s) as [r |] eqn:E1.
  { intros _. rewrite (strip_prefix_ci_app _ _ _ w E1).
    destruct (strip_prefix_ci "s" (r ++ w)); discriminate. }
  destruct (strip_prefix_ci "day" (s ++ w)) as [r |].
  { intros _. destruct (strip_prefix_ci "s" r); discriminate. }
  destruct (strip_prefix_ci "week" s) as [r |] eqn:E2.
  { intros _. rewrite (strip_prefix_ci_app _ _ _ w E2).
    destruct (strip_prefix_ci "s" (r ++ w)); discriminate. }
  destruct (strip_prefix_ci "week" (s ++ w)) as [r |].
  { intros _. destruct (strip_prefix_ci "s" r); discriminate. }
  destruct (strip_prefix_ci "month" s) as [r |] eqn:E3; [| congruence].
  intros _. rewrite (strip_prefix_ci_app _ _ _ w E3).
  destruct (strip_prefix_ci "s" (r ++ w)); discriminate.
Qed.

(** A match of the duration pattern does not depend on what follows the
    text. *)
Lemma duration_extends (s w : string) :
  Re.duration None (s ++ w) = None -> Re.duration None s = None.
Proof.
  unfold Re.duration.
  destruct (span is_digit s) as [[| c number] r] eqn:E1; [reflexivity |].
  destruct (span is_space r) as [[| c' blanks] r'] eqn:E2; [reflexivity |].
  destruct (Re.time_unit r') as [unit |] eqn:E3; [| reflexivity].
  intros H. exfalso.
  assert (Hr' : r' <> "") by (intros ->; discriminate E3).
  assert (Hr : r <> "") by (intros ->; discriminate E2).
  pose proof (span_app is_digit s w) as S1. rewrite E1 in S1. cbn [fst snd] in S1.
  rewrite (S1 Hr) in H.
  pose proof (span_app is_space r w) as S2. rewrite E2 in S2. cbn [fst snd] in S2.
  rewrite (S2 Hr') in H.
  apply (time_unit_extends r' w); [congruence |].
  destruct (Re.time_unit (r' ++ w)); [discriminate | reflexivity].
Qed.

Lemma search_none_suffix (a b : string) :
  forall prev, Re.search_go Re.duration prev (a ++ b) = None ->
               Re.search_go Re.duration None b = None.
Proof.
  induction a as [| c a IH]; intros prev H.
  - destruct b; exact H.
  - simpl in H. destruct (Re.duration prev (String c (a ++ b))); [discriminate |].
    apply (IH (Some c)). exact H.
Qed.

Lemma search_none_prefix (b w : string) :
  forall prev, Re.search_go Re.duration prev (b ++ w) = None ->
               Re.search_go Re.duration prev b = None.
Proof.
  induction b as [| c b IH]; intros prev H.
  - assert (Hw : Re.duration None ("" ++ w) = None).
    { destruct w; simpl in H |- *;
        [exact H | destruct (Re.duration prev (String a w)) eqn:E; [discriminate | exact E]]. }
    apply duration_extends in Hw. exact Hw.
  - change (String c b ++ w) with (String c (b ++ w)) in H.
    cbn [Re.search_go] in H |- *.
    destruct (Re.duration prev (String c (b ++ w))) eqn:E; [discriminate |].
    change (Re.duration prev (String c (b ++ w)))
      with (Re.duration None (String c b ++ w)) in E.
    apply duration_extends in E.
    change (Re.duration prev (String c b)) with (Re.duration None (String c b)).
    rewrite E. apply IH. exact H.
Qed.

(** No duration in the text, none in the stripped text. *)
Lemma no_duration_in_strip (text : string) :
  Re.search Re.duration text = None -> Re.search Re.duration (strip text) = None.
Proof.
  unfold Re.search. intros H.
  destruct (strip_decompose text) as (w1 & w2 & E). rewrite E in H.
  apply search_none_suffix in H. apply search_none_prefix in H. exact H.
Qed.

Lemma no_written_notice_in_strip (text : string) :
  written_notice text = None -> written_notice (strip text) = None.
Proof.
  unfold written_notice, written_numbers, Re.first_some. intros H.
  repeat match goal with
         | |- context [contains ?x (lower (strip text))] =>
             let E := fresh "E" in
             destruct (contains x (lower (strip text))) eqn:E;
             [apply contains_lower_strip in E; rewrite E in H |]
         end;
    try reflexivity; exfalso;
    repeat match type of H with
           | context [contains ?x (lower text)] => destruct (contains x (lower text))
           end; discriminate H.
Qed.

Lemma written_notice_settled (text r : string) :
  written_notice text = Some r -> _extract_notice_period r = Return r.
Proof.
  unfold written_notice, written_numbers, Re.first_some.
  repeat match goal with
         | |- context [contains ?x (lower text)] => destruct (contains x (lower text))
         end;
    intros H; try discriminate H; injection H as <-; vm_compute; reflexivity.
Qed.

(** X8.  [_extract_notice_period] is idempotent: whatever it returns,
    from a match of the duration pattern, from a written number or as
    the stripped text, it returns unchanged when applied again. *)
Theorem notice_period_idempotent (text out : string) :
  _extract_notice_period text = Return out ->
  _extract_notice_period out = Return out.
Proof.
  intros Hout.
  destruct (Re.search Re.duration text) as [[number unit] |] eqn:E.
  - apply (settled_on_match text); [congruence | exact Hout].
  - unfold _extract_notice_period in Hout. rewrite E in Hout.
    destruct (written_notice text) as [r |] eqn:W.
    + injection Hout as <-. apply (written_notice_settled text). exact W.
    + injection Hout as <-. unfold _extract_notice_period.
      rewrite (no_duration_in_strip text E), (no_written_notice_in_strip text W).
      rewrite WordFacts.strip_idempotent. reflexivity.
Qed.

Lemma notice_period_idempotent_witness :
  _extract_notice_period "as agreed with the employer"
  = Return "as agreed with the employer".
Proof.
  apply (notice_period_idempotent "  as agreed with the employer ").
  vm_compute. reflexivity.
Defined.

End NoticeSpec.

(* ===================================================================== *)
(** * Grouping, detection and ordering                                    *)
(* ===================================================================== *)

Module GroupFacts.
Import PyStr PyNum Vocabulary ContradictionDetector.

Lemma group_append_get (k : string) (x : ClauseInstance)
      (groups : list (string * list ClauseInstance)) (k' : string) :
  PyDict.get k' (group_append k x groups)
  = if String.eqb k' k
    then Some (default [] (PyDict.get k groups) ++ [x])%list
    else PyDict.get k' groups.
Proof.
  induction groups as [| [k0 l] groups IH]; simpl.
  - destruct (String.eqb k' k); reflexivity.
  - destruct (String.eqb_spec k k0) as [-> | Hk]; simpl.
    + destruct (String.eqb_spec k' k0); reflexivity.
    + destruct (String.eqb_spec k' k0) as [-> | Hk'].
      * destruct (String.eqb_spec k0 k); [congruence | reflexivity].
      * exact IH.
Qed.

Lemma group_append_keys (k : string) (x : ClauseInstance)
      (groups : list (string * list ClauseInstance)) (k' : string) :
  In k' (PyDict.keys (group_append k x groups))
  <-> k' = k \/ In k' (PyDict.keys groups).
Proof.
  unfold PyDict.keys. induction groups as [| [k0 l] groups IH]; simpl.
  - intuition.
  - destruct (String.eqb_spec k k0) as [-> | Hk]; simpl.
    + intuition.
    + rewrite IH. intuition.
Qed.

Lemma group_append_nodup (k : string) (x : ClauseInstance)
      (groups : list (string * list ClauseInstance)) :
  List.NoDup (PyDict.keys groups) ->
  List.NoDup (PyDict.keys (group_append k x groups)).
Proof.
  unfold PyDict.keys. induction groups as [| [k0 l] groups IH]; simpl; intros H.
  - constructor; [intros [] | constructor].
  - apply List.NoDup_cons_iff in H as [Hin Hnd].
    destruct (String.eqb_spec k k0) as [-> | Hk]; simpl.
    + constructor; assumption.
    + constructor; [| auto].
      intros Hc. apply (group_append_keys k x groups k0) in Hc as [Hc | Hc];
        [congruence | contradiction].
Qed.

(** The groups hold the instances [insts], each under its clause type
    and in order. *)
Lemma group_step (groups : list (string * list ClauseInstance))
      (insts : list ClauseInstance) (x : ClauseInstance) :
  (forall k, PyDict.get k groups
             = match List.filter (of_type k) insts with
               | [] => None
               | l => Some l
               end) ->
  forall k, PyDict.get k (group_append (clause_type x) x groups)
            = match List.filter (of_type k) (insts ++ [x]) with
              | [] => None
              | l => Some l
              end.
Proof.
  intros H k. rewrite group_append_get, List.filter_app. simpl.
  unfold of_type at 2.
  destruct (String.eqb_spec k (clause_type x)) as [-> | Hk].
  - rewrite H. destruct (List.filter _ insts); reflexivity.
  - rewrite app_nil_r. apply H.
Qed.

Lemma group_document (doc : Document) :
  forall (clauses : list (string * ClauseValue))
         (groups : list (string * list ClauseInstance))
         (insts : list ClauseInstance),
    let add :=
      fun clause_groups '(clause_type, clause_value) =>
        group_append clause_type
          {| filename := default "unknown" (doc_filename doc);
             doc_id := doc_doc_id doc;
             file_path := doc_file_path doc;
             value := clause_value;
             clause_type := clause_type |}
          clause_groups in
    let made :=
      map (fun '(clause_type, clause_value) =>
             {| filename := default "unknown" (doc_filename doc);
                doc_id := doc_doc_id doc;
                file_path := doc_file_path doc;
                value := clause_value;
                clause_type := clause_type |}) clauses in
    List.NoDup (PyDict.keys groups) ->
    (forall k, PyDict.get k groups
               = match List.filter (of_type k) insts with
                 | [] => None
                 | l => Some l
                 end) ->
    List.NoDup (PyDict.keys (fold_left add clauses groups))
    /\ forall k, PyDict.get k (fold_left add clauses groups)
                 = match List.filter (of_type k) (insts ++ made) with
                   | [] => None
                   | l => Some l
                   end.
Proof.
  induction clauses as [| [ct v] clauses IH]; intros groups insts add made Hnd H.
  - simpl. subst made. simpl. rewrite app_nil_r. auto.
  - subst made. cbn [fold_left map].
    set (x := {| filename := default "unknown" (doc_filename doc);
                 doc_id := doc_doc_id doc; file_path := doc_file_path doc;
                 value := v; clause_type := ct |}).
    replace (insts ++ x :: map _ clauses)%list
      with ((insts ++ [x]) ++ map
              (fun '(clause_type, clause_value) =>
                 {| filename := default "unknown" (doc_filename doc);
                    doc_id := doc_doc_id doc;
                    file_path := doc_file_path doc;
                    value := clause_value;
                    clause_type := clause_type |}) clauses)%list
      by (rewrite <- app_assoc; reflexivity).
    apply IH.
    + subst add. cbn beta iota. apply group_append_nodup. exact Hnd.
    + subst add. cbn beta iota. apply (group_step groups insts x H).
Qed.

Lemma group_documents (documents : list Document) :
  forall (groups : list (string * list ClauseInstance))
         (insts : list ClauseInstance),
    List.NoDup (PyDict.keys groups) ->
    (forall k, PyDict.get k groups
               = match List.filter (of_type k) insts with
                 | [] => None
                 | l => Some l
                 end) ->
    let result :=
      fold_left
        (fun clause_groups doc =>
           let filename := default "unknown" (doc_filename doc) in
           let clauses := default [] (doc_clauses doc) in
           fold_left
             (fun clause_groups '(clause_type, clause_value) =>
                group_append clause_type
                  {| filename := filename;
                     doc_id := doc_doc_id doc;
                     file_path := doc_file_path doc;
                     value := clause_value;
                     clause_type := clause_type |}
                  clause_groups)
             clauses clause_groups)
        documents groups in
    List.NoDup (PyDict.keys result)
    /\ forall k, PyDict.get k result
                 = match List.filter (of_type k) (insts ++ all_instances documents) with
                   | [] => None
                   | l => Some l
                   end.
Proof.
  induction documents as [| doc documents IH]; intros groups insts Hnd H result.
  - subst result. simpl. rewrite app_nil_r. auto.
  - subst result. cbn [fold_left all_instances flat_map].
    rewrite app_assoc.
    destruct (group_document doc (default [] (doc_clauses doc)) groups insts Hnd H)
      as [Hnd' H'].
    apply IH; assumption.
Qed.

Lemma groups_characterised (documents : list Document) :
  List.NoDup (PyDict.keys (_group_clauses_by_type documents))
  /\ forall k, PyDict.get k (_group_clauses_by_type documents)
               = match List.filter (of_type k) (all_instances documents) with
                 | [] => None
                 | l => Some l
                 end.
Proof.
  apply (group_documents documents [] []); [constructor | reflexivity].
Qed.

Lemma dict_get_member {V : Type} (d : list (string * V)) (k : string) (v : V) :
  List.NoDup (PyDict.keys d) -> In (k, v) d -> PyDict.get k d = Some v.
Proof.
  unfold PyDict.keys. induction d as [| [k0 v0] d IH]; simpl; intros Hnd Hin;
    [contradiction |].
  apply List.NoDup_cons_iff in Hnd as [Hk Hnd].
  destruct Hin as [[= -> ->] | Hin].
  - rewrite String.eqb_refl. reflexivity.
  - destruct (String.eqb_spec k k0) as [-> | Hne]; [| auto].
    exfalso. apply Hk. apply in_map_iff. exists (k0, v). auto.
Qed.

(** Every group lists instances of the documents, all of its type. *)
Lemma group_members (documents : list Document) (k : string)
      (l : list ClauseInstance) :
  In (k, l) (_group_clauses_by_type documents) ->
  l = List.filter (of_type k) (all_instances documents).
Proof.
  intros Hin. destruct (groups_characterised documents) as [Hnd H].
  apply (dict_get_member _ _ _ Hnd) in Hin. rewrite H in Hin.
  destruct (List.filter _ _); congruence.
Qed.

End GroupFacts.

Module DetectFacts.
Import PyStr PyNum Vocabulary ContradictionDetector.

Lemma in_index_pairs {A : Type} (l : list A) (a b : A) :
  In (a, b) (index_pairs l) -> In a l /\ In b l.
Proof.
  induction l as [| x l IH]; simpl; [contradiction |].
  intros H. apply in_app_or in H as [H | H].
  - apply in_map_iff in H as (y & [= <- <-] & Hy). auto.
  - apply IH in H. tauto.
Qed.

(** What [_detect_clause_contradictions] writes for a pair it reports. *)
Lemma detected_shape (k : string) (l : list ClauseInstance) (c : Contradiction) :
  In c (_detect_clause_contradictions k l) ->
  exists clause1 clause2,
    In clause1 l /\ In clause2 l
    /\ _compare_clause_values (value clause1) (value clause2)
                              (comparison_type (rule_for k))
       = (true, c_details c)
    /\ c_clause_type c = k
    /\ c_severity c = rule_severity (rule_for k)
    /\ c_description c = rule_description (rule_for k)
    /\ c_documents c = [reference clause1; reference clause2]
    /\ c_summary c = _generate_contradiction_summary clause1 clause2 k
    /\ c_id c = None.
Proof.
  unfold _detect_clause_contradictions. fold (rule_for k).
  intros H. apply in_flat_map in H as ([clause1 clause2] & Hp & H).
  apply in_index_pairs in Hp as [H1 H2].
  exists clause1, clause2.
  destruct (_compare_clause_values _ _ _) as [[|] details] eqn:E;
    [| contradiction].
  destruct H as [<- | []]. simpl. repeat split; auto.
Qed.

Lemma rule_severities (k : string) :
  In (rule_severity (rule_for k)) ["critical"; "high"; "medium"].
Proof.
  unfold rule_for, contradiction_rules. simpl.
  repeat match goal with
         | |- context [String.eqb k ?s] => destruct (String.eqb k s)
         end; simpl; tauto.
Qed.

Lemma semantic_rule (k : string) :
  comparison_type (rule_for k) = "text_semantic" -> k = "termination_clause".
Proof.
  unfold rule_for, contradiction_rules. simpl.
  destruct (String.eqb k "notice_period"); [discriminate |].
  destruct (String.eqb k "working_hours"); [discriminate |].
  destruct (String.eqb_spec k "termination_clause"); [auto |].
  repeat match goal with
         | |- context [String.eqb k ?s] => destruct (String.eqb k s)
         end; discriminate.
Qed.

Lemma sort_insert_permutation (x : Contradiction) (l : list Contradiction) :
  Permutation (sort_insert x l) (x :: l).
Proof.
  induction l as [| y l IH]; simpl; [reflexivity |].
  destruct (key_leb _ _); [reflexivity |].
  rewrite IH. apply perm_swap.
Qed.

Lemma stable_sort_permutation (l : list Contradiction) :
  Permutation (stable_sort l) l.
Proof.
  induction l as [| x l IH]; simpl; [reflexivity |].
  rewrite sort_insert_permutation, IH. reflexivity.
Qed.

Lemma assign_ids_without_id (l : list Contradiction) :
  forall n, map without_id (assign_ids n l) = map without_id l.
Proof. induction l as [| x l IH]; intros n; simpl; [| rewrite IH]; reflexivity. Qed.

Lemma assign_ids_length (l : list Contradiction) :
  forall n, length (assign_ids n l) = length l.
Proof. induction l as [| x l IH]; intros n; simpl; [| rewrite IH]; reflexivity. Qed.

(** A property of a contradiction that does not look at its id holds of
    the prioritised list when it holds of the list given. *)
Lemma prioritize_forall (P : Contradiction -> Prop) (l : list Contradiction) :
  Forall (fun c => P (without_id c)) l ->
  Forall (fun c => P (without_id c)) (_prioritize_contradictions l).
Proof.
  intros H. unfold _prioritize_contradictions.
  assert (Hs : Forall (fun c => P (without_id c)) (stable_sort l)).
  { rewrite stable_sort_permutation. exact H. }
  clear H. generalize 1%nat. induction Hs as [| x s Hx Hs IH]; intros n; simpl;
    constructor; auto.
Qed.

Lemma accumulated_shape (documents : list Document) (c : Contradiction) :
  In c (accumulate_contradictions (_group_clauses_by_type documents)) ->
  exists clause1 clause2,
    In clause1 (all_instances documents) /\ In clause2 (all_instances documents)
    /\ clause_type clause1 = c_clause_type c
    /\ clause_type clause2 = c_clause_type c
    /\ _compare_clause_values (value clause1) (value clause2)
                              (comparison_type (rule_for (c_clause_type c)))
       = (true, c_details c)
    /\ c_severity c = rule_severity (rule_for (c_clause_type c))
    /\ c_description c = rule_description (rule_for (c_clause_type c))
    /\ c_documents c = [reference clause1; reference clause2]
    /\ c_summary c
       = _generate_contradiction_summary clause1 clause2 (c_clause_type c).
Proof.
  unfold accumulate_contradictions. intros H.
  apply in_flat_map in H as ([k l] & Hg & H).
  destruct (2 <=? length l)%nat; [| contradiction].
  apply GroupFacts.group_members in Hg.
  apply detected_shape in H
    as (clause1 & clause2 & H1 & H2 & Hc & Hk & Hs & Hd & Hr & Hsum & _).
  rewrite Hg in H1, H2. apply filter_In in H1 as [H1 T1], H2 as [H2 T2].
  unfold of_type in T1, T2. apply String.eqb_eq in T1, T2.
  exists clause1, clause2. rewrite Hk. repeat split; auto.
Qed.

Lemma reported_contradictions_shape (documents : list Document) :
  Forall
    (fun c =>
       exists clause1 clause2,
         In clause1 (all_instances documents)
         /\ In clause2 (all_instances documents)
         /\ clause_type clause1 = c_clause_type c
         /\ clause_type clause2 = c_clause_type c
         /\ _compare_clause_values (value clause1) (value clause2)
                                   (comparison_type (rule_for (c_clause_type c)))
            = (true, c_details c)
         /\ c_severity c = rule_severity (rule_for (c_clause_type c))
         /\ c_description c = rule_description (rule_for (c_clause_type c))
         /\ c_documents c = [reference clause1; reference clause2]
         /\ c_summary c
            = _generate_contradiction_summary clause1 clause2 (c_clause_type c))
    (detect_contradictions documents).
Proof.
  unfold detect_contradictions.
  destruct (length documents <? 2)%nat; [constructor |].
  apply (prioritize_forall
           (fun c =>
              exists clause1 clause2,
                In clause1 (all_instances documents)
                /\ In clause2 (all_instances documents)
                /\ clause_type clause1 = c_clause_type c
                /\ clause_type clause2 = c_clause_type c
                /\ _compare_clause_values (value clause1) (value clause2)
                     (comparison_type (rule_for (c_clause_type c)))
                   = (true, c_details c)
                /\ c_severity c = rule_severity (rule_for (c_clause_type c))
                /\ c_description c = rule_description (rule_for (c_clause_type c))
                /\ c_documents c = [reference clause1; reference clause2]
                /\ c_summary c
                   = _generate_contradiction_summary clause1 clause2 (c_clause_type c))).
  apply List.Forall_forall. intros c Hc. apply accumulated_shape in Hc. exact Hc.
Qed.

End DetectFacts.

Module PipelineSpec.
Import PyStr PyNum Vocabulary Examples ContradictionDetector.
Import GroupFacts DetectFacts.

(** X9.  [_group_clauses_by_type] lists every clause type once, and under
    a clause type exactly the instances of that type, in the order of the
    documents and of their clauses; a type no document has is absent. *)
Theorem clauses_grouped_by_type (documents : list Document) :
  List.NoDup (PyDict.keys (_group_clauses_by_type documents))
  /\ forall k, PyDict.get k (_group_clauses_by_type documents)
               = match List.filter (of_type k) (all_instances documents) with
                 | [] => None
                 | l => Some l
                 end.
Proof. apply groups_characterised. Qed.

(** X10.  Every contradiction [detect_contradictions] reports is backed
    by a comparison that returned [True]: its two [documents] entries
    are clause instances of the documents given, both of the reported
    clause type, compared under the rule of that type, and the evidence,
    severity, description and summary are those of that comparison. *)
Theorem reported_contradictions_are_backed (documents : list Document) :
  Forall
    (fun c =>
       exists clause1 clause2,
         In clause1 (all_instances documents)
         /\ In clause2 (all_instances documents)
         /\ clause_type clause1 = c_clause_type c
         /\ clause_type clause2 = c_clause_type c
         /\ _compare_clause_values (value clause1) (value clause2)
                                   (comparison_type (rule_for (c_clause_type c)))
            = (true, c_details c)
         /\ c_severity c = rule_severity (rule_for (c_clause_type c))
         /\ c_description c = rule_description (rule_for (c_clause_type c))
         /\ c_documents c = [reference clause1; reference clause2]
         /\ c_summary c
            = _generate_contradiction_summary clause1 clause2 (c_clause_type c))
    (detect_contradictions documents).
Proof. apply reported_contradictions_shape. Qed.

(** X11.  A reported contradiction is critical, high or medium: the
    rank kept for [low] and for unknown severities is never used. *)
Theorem severity_is_never_low (documents : list Document) :
  Forall (fun c => In (c_severity c) ["critical"; "high"; "medium"])
         (detect_contradictions documents).
Proof.
  unfold detect_contradictions.
  destruct (length documents <? 2)%nat; [constructor |].
  apply (prioritize_forall
           (fun c => In (c_severity c) ["critical"; "high"; "medium"])).
  apply List.Forall_forall. intros c Hc.
  apply accumulated_shape in Hc
    as (clause1 & clause2 & _ & _ & _ & _ & _ & Hs & _).
  cbn [without_id c_severity]. rewrite Hs. apply rule_severities.
Qed.

Lemma detected_count (k : string) (l : list (ClauseInstance * ClauseInstance)) :
  length
    (flat_map
       (fun '(clause1, clause2) =>
          let '(is_contradiction, details) :=
            _compare_clause_values (value clause1) (value clause2)
                                   (comparison_type (rule_for k)) in
          if is_contradiction
          then [ {| c_clause_type := k;
                    c_severity := rule_severity (rule_for k);
                    c_description := rule_description (rule_for k);
                    c_documents :=
                      [ {| ref_filename := filename clause1;
                           ref_doc_id := doc_id clause1;
                           ref_value := value clause1 |};
                        {| ref_filename := filename clause2;
                           ref_doc_id := doc_id clause2;
                           ref_value := value clause2 |} ];
                    c_details := details;
                    c_summary := _generate_contradiction_summary clause1 clause2 k;
                    c_id := None |} ]
          else []) l)
  = length
      (List.filter differs
         (map (fun '(clause1, clause2) =>
                 (value clause1, value clause2, comparison_type (rule_for k))) l)).
Proof.
  induction l as [| [clause1 clause2] l IH]; [reflexivity |].
  cbn [flat_map map List.filter]. rewrite length_app, IH.
  unfold differs at 2.
  destruct (_compare_clause_values _ _ _) as [[|] details]; reflexivity.
Qed.

(** X12.  [detect_contradictions] reports one contradiction for each
    comparison it makes that returns [True], and nothing else. *)
Theorem one_contradiction_per_differing_pair (documents : list Document) :
  length (detect_contradictions documents)
  = length (List.filter differs (comparisons_performed documents)).
Proof.
  unfold detect_contradictions, comparisons_performed.
  destruct (length documents <? 2)%nat; [reflexivity |].
  unfold _prioritize_contradictions.
  rewrite assign_ids_length, (Permutation_length (stable_sort_permutation _)).
  unfold accumulate_contradictions.
  induction (_group_clauses_by_type documents) as [| [k l] groups IH];
    [reflexivity |].
  cbn [flat_map]. rewrite length_app, List.filter_app, length_app, IH. f_equal.
  destruct (2 <=? length l)%nat; [| reflexivity].
  unfold _detect_clause_contradictions. fold (rule_for k).
  apply detected_count.
Qed.

(** X13.  [_prioritize_contradictions] only reorders and numbers: apart
    from the ids, its result is a permutation of the list given. *)
Theorem prioritize_is_a_permutation (contradictions : list Contradiction) :
  Permutation (map without_id (_prioritize_contradictions contradictions))
              (map without_id contradictions).
Proof.
  unfold _prioritize_contradictions. rewrite assign_ids_without_id.
  apply Permutation_map. apply stable_sort_permutation.
Qed.

Lemma has_key_sort_key (k : nat * string) (x : Contradiction) :
  has_key k x = true -> sort_key x = k.
Proof.
  unfold has_key. intros H. apply andb_true_iff in H as [H1 H2].
  apply Nat.eqb_eq in H1. apply String.eqb_eq in H2.
  destruct k, (sort_key x). simpl in *. congruence.
Qed.

Lemma sort_insert_filter (k : nat * string) (x : Contradiction)
      (l : list Contradiction) :
  List.filter (has_key k) (sort_insert x l) = List.filter (has_key k) (x :: l).
Proof.
  induction l as [| y l IH]; [reflexivity |].
  cbn [sort_insert].
  destruct (key_leb (sort_key x) (sort_key y)) eqn:E; [reflexivity |].
  cbn [List.filter] in *. rewrite IH.
  destruct (has_key k x) eqn:Hx, (has_key k y) eqn:Hy; try reflexivity.
  apply has_key_sort_key in Hx, Hy. rewrite Hx, Hy in E.
  unfold key_leb in E. rewrite Nat.eqb_refl, SortFacts.string_leb_refl in E.
  rewrite orb_true_r in E. discriminate.
Qed.

Lemma assign_ids_filter (k : nat * string) (l : list Contradiction) :
  forall n, map without_id (List.filter (has_key k) (assign_ids n l))
            = map without_id (List.filter (has_key k) l).
Proof.
  induction l as [| x l IH]; intros n; [reflexivity |].
  cbn [assign_ids List.filter].
  change (has_key k {| c_clause_type := c_clause_type x;
                       c_severity := c_severity x;
                       c_description := c_description x;
                       c_documents := c_documents x;
                       c_details := c_details x;
                       c_summary := c_summary x;
                       c_id := Some n |}) with (has_key k x).
  destruct (has_key k x); cbn [map]; rewrite IH; reflexivity.
Qed.

(** X14.  The ordering is stable: contradictions of the same severity
    rank and clause type come out in the order they were found. *)
Theorem prioritize_is_stable (contradictions : list Contradiction) (k : nat * string) :
  map without_id (List.filter (has_key k) (_prioritize_contradictions contradictions))
  = map without_id (List.filter (has_key k) contradictions).
Proof.
  unfold _prioritize_contradictions. rewrite assign_ids_filter. f_equal.
  induction contradictions as [| x l IH]; [reflexivity |].
  cbn [stable_sort]. rewrite sort_insert_filter.
  cbn [List.filter]. rewrite IH. reflexivity.
Qed.

(** X15.  When the documents agree on every clause type (instances of
    one type all carry the same value), the only contradictions reported
    are on [termination_clause], the one type compared semantically. *)
Theorem agreeing_documents_differ_only_on_termination (documents : list Document) :
  (forall x y, In x (all_instances documents) -> In y (all_instances documents) ->
               clause_type x = clause_type y -> value x = value y) ->
  Forall (fun c => c_clause_type c = "termination_clause")
         (detect_contradictions documents).
Proof.
  intros Hagree.
  pose proof (reported_contradictions_shape documents) as H.
  revert H. apply List.Forall_impl. intros c (x & y & Hx & Hy & Tx & Ty & Hc & _).
  apply semantic_rule.
  destruct (String.eqb_spec (comparison_type (rule_for (c_clause_type c)))
                            "text_semantic") as [E | E]; [exact E |].
  rewrite (Hagree x y Hx Hy) in Hc by congruence.
  pose proof (ComparatorSpec.same_value_same_verdict (value y) _ E) as Hr.
  rewrite Hc in Hr. discriminate.
Qed.

Lemma agreeing_documents_differ_only_on_termination_witness :
  Forall (fun c => c_clause_type c = "termination_clause")
         (detect_contradictions identical_documents).
Proof.
  apply agreeing_documents_differ_only_on_termination.
  simpl. intros x y [<- | [<- | []]] [<- | [<- | []]] _; reflexivity.
Defined.

(** X16.  When no clause type occurs twice among the documents, nothing
    is compared and no contradiction is reported. *)
Theorem lone_clauses_never_contradict (documents : list Document) :
  (forall k, length (List.filter (of_type k) (all_instances documents)) < 2)%nat ->
  detect_contradictions documents = []
  /\ comparisons_performed documents = [].
Proof.
  intros Hlone. unfold detect_contradictions, comparisons_performed.
  destruct (length documents <? 2)%nat; [split; reflexivity |].
  assert (Hg : Forall (fun '(k, l) => (2 <=? length l)%nat = false)
                      (_group_clauses_by_type documents)).
  { apply List.Forall_forall. intros [k l] Hin.
    apply group_members in Hin. subst l.
    apply Nat.leb_gt. apply Hlone. }
  unfold accumulate_contradictions.
  induction Hg as [| [k l] groups Hk Hg [IH1 IH2]]; [split; reflexivity |].
  cbn [flat_map]. rewrite Hk. split; [exact IH1 | exact IH2].
Qed.

Lemma lone_clauses_never_contradict_witness :
  detect_contradictions unrelated_documents = []
  /\ comparisons_performed unrelated_documents = [].
Proof.
  apply lone_clauses_never_contradict. intros k. simpl. unfold of_type. simpl.
  destruct (String.eqb k "salary") eqn:E1, (String.eqb k "working_hours") eqn:E2;
    simpl; try lia.
  apply String.eqb_eq in E1, E2. congruence.
Defined.

End PipelineSpec.

(* ===================================================================== *)
(** * The report                                                          *)
(* ===================================================================== *)

Module ReportFacts.
Import PyStr PyNum Vocabulary ContradictionDetector.

Lemma count_up_get (k k' : string) (counts : list (string * nat)) :
  PyDict.get k' (count_up k counts)
  = if String.eqb k' k
    then Some (default 0 (PyDict.get k counts) + 1)%nat
    else PyDict.get k' counts.
Proof.
  unfold count_up. destruct (String.eqb_spec k' k) as [-> | Hk].
  - apply DictFacts.dict_get_set_same.
  - apply DictFacts.dict_get_set_other. exact Hk.
Qed.

Lemma read_count_value (k : string) (counts : list (string * nat)) :
  fst (read_count k counts) = default 0%nat (PyDict.get k counts).
Proof. unfold read_count. destruct (PyDict.get k counts); reflexivity. Qed.

Lemma read_count_get (k k' : string) (counts : list (string * nat)) :
  PyDict.get k' (snd (read_count k counts))
  = if String.eqb k' k
    then Some (default 0%nat (PyDict.get k counts))
    else PyDict.get k' counts.
Proof.
  unfold read_count. destruct (PyDict.get k counts) as [n |] eqn:E; simpl.
  - destruct (String.eqb_spec k' k) as [-> | Hk]; [exact E | reflexivity].
  - destruct (String.eqb_spec k' k) as [-> | Hk].
    + apply DictFacts.dict_get_set_same.
    + apply DictFacts.dict_get_set_other. exact Hk.
Qed.

(** The two counters of the loop do not depend on each other. *)
Lemma counting_loop (l : list Contradiction) :
  forall by_severity by_clause_type,
    fold_left
      (fun '(by_severity, by_clause_type) contradiction =>
         (count_up (c_severity contradiction) by_severity,
          count_up (c_clause_type contradiction) by_clause_type))
      l (by_severity, by_clause_type)
    = (fold_left (fun counts x => count_up (c_severity x) counts) l by_severity,
       fold_left (fun counts x => count_up (c_clause_type x) counts) l by_clause_type).
Proof. induction l as [| x l IH]; intros bs bc; simpl; [| rewrite IH]; reflexivity. Qed.

Lemma counted (f : Contradiction -> string) (k : string) (l : list Contradiction) :
  forall counts,
    PyDict.get k (fold_left (fun counts x => count_up (f x) counts) l counts)
    = match length (List.filter (fun x => String.eqb k (f x)) l) with
      | O => PyDict.get k counts
      | n => Some (default 0 (PyDict.get k counts) + n)%nat
      end.
Proof.
  induction l as [| x l IH]; intros counts; [reflexivity |].
  cbn [fold_left List.filter]. rewrite IH, count_up_get.
  destruct (String.eqb_spec k (f x)) as [-> | Hk]; [| reflexivity].
  cbn [length default].
  destruct (length (List.filter _ l)); f_equal; simpl; lia.
Qed.

Lemma counted_from_empty (f : Contradiction -> string) (k : string)
      (l : list Contradiction) :
  PyDict.get k (fold_left (fun counts x => count_up (f x) counts) l [])
  = counter_entry false (length (List.filter (fun x => String.eqb k (f x)) l)).
Proof.
  rewrite counted. unfold counter_entry.
  destruct (length _); reflexivity.
Qed.

Lemma positive_count {A : Type} (p : A -> bool) (l : list A) :
  (0 <? length (List.filter p l))%nat = existsb p l.
Proof.
  induction l as [| x l IH]; [reflexivity |].
  simpl. destruct (p x); [reflexivity | exact IH].
Qed.

Lemma counter_entry_default (read : bool) (n : nat) :
  default 0%nat (counter_entry read n) = n.
Proof. unfold counter_entry. destruct read, n; reflexivity. Qed.

(** The report of a non-empty list, with the counters named. *)
Lemma report_of_nonempty (first : Contradiction) (rest : list Contradiction) :
  let contradictions := first :: rest in
  let by_severity :=
    fold_left (fun counts x => count_up (c_severity x) counts) contradictions [] in
  let by_clause_type :=
    fold_left (fun counts x => count_up (c_clause_type x) counts) contradictions [] in
  let recommend (n : nat) (text : string) : list string :=
    if (0 <? n)%nat then [text] else [] in
  generate_contradiction_report contradictions
  = {| r_summary :=
         "Found " ++ of_nat (length contradictions)
         ++ " contradiction(s) across documents";
       r_total_contradictions := length contradictions;
       r_by_severity :=
         snd (read_count "high" (snd (read_count "critical" by_severity)));
       r_by_clause_type :=
         snd (read_count "working_hours"
                         (snd (read_count "notice_period" by_clause_type)));
       r_recommendations :=
         (recommend (fst (read_count "critical" by_severity))
                    "Address critical contradictions immediately, especially salary or legal terms"
          ++ recommend (fst (read_count "high" (snd (read_count "critical" by_severity))))
                       "Review high-priority contradictions that may affect contract validity"
          ++ recommend (fst (read_count "notice_period" by_clause_type))
                       "Standardize notice period requirements across all documents"
          ++ recommend (fst (read_count "working_hours"
                                        (snd (read_count "notice_period" by_clause_type))))
                       "Align working hours specifications in all relevant documents")%list;
       r_most_critical := Some first |}.
Proof.
  intros contradictions by_severity by_clause_type recommend.
  unfold generate_contradiction_report. subst contradictions.
  rewrite counting_loop. fold by_severity. fold by_clause_type.
  destruct (read_count "critical" by_severity) as [critical s1].
  cbn [fst snd].
  destruct (read_count "high" s1) as [high s2].
  destruct (read_count "notice_period" by_clause_type) as [notice t1].
  cbn [fst snd].
  destruct (read_count "working_hours" t1) as [hours t2].
  reflexivity.
Qed.

Lemma report_counters_at (first : Contradiction) (rest : list Contradiction)
      (k : string) :
  PyDict.get k (r_by_severity (generate_contradiction_report (first :: rest)))
  = counter_entry (String.eqb k "critical" || String.eqb k "high")
                  (length (List.filter (with_severity k) (first :: rest)))
  /\ PyDict.get k (r_by_clause_type (generate_contradiction_report (first :: rest)))
     = counter_entry (String.eqb k "notice_period" || String.eqb k "working_hours")
                     (length (List.filter (with_clause_type k) (first :: rest))).
Proof.
  rewrite report_of_nonempty. cbn [r_by_severity r_by_clause_type].
  rewrite !read_count_get.
  rewrite !(counted_from_empty c_severity), !(counted_from_empty c_clause_type).
  split.
  - destruct (String.eqb_spec k "high") as [-> | Hh].
    + rewrite orb_true_r. cbn [String.eqb Ascii.eqb Bool.eqb andb].
      rewrite counter_entry_default. reflexivity.
    + rewrite orb_false_r.
      destruct (String.eqb_spec k "critical") as [-> | Hc].
      * rewrite counter_entry_default. reflexivity.
      * reflexivity.
  - destruct (String.eqb_spec k "working_hours") as [-> | Hw].
    + rewrite orb_true_r. cbn [String.eqb Ascii.eqb Bool.eqb andb].
      rewrite counter_entry_default. reflexivity.
    + rewrite orb_false_r.
      destruct (String.eqb_spec k "notice_period") as [-> | Hn].
      * rewrite counter_entry_default. reflexivity.
      * reflexivity.
Qed.

End ReportFacts.

Module ReportSpec.
Import PyStr PyNum Vocabulary Examples ContradictionDetector ReportFacts.

(** X17.  In the report of a non-empty list, [by_severity] answers for
    a severity the number of contradictions that have it; [critical] and
    [high] are listed even with the count 0, because the code reads them
    from the [defaultdict], and any other severity only when it occurs.
    The same holds of [by_clause_type], with [notice_period] and
    [working_hours] as the keys always listed. *)
Theorem report_counters (first : Contradiction) (rest : list Contradiction)
        (k : string) :
  let contradictions := first :: rest in
  let report := generate_contradiction_report contradictions in
  PyDict.get k (r_by_severity report)
  = counter_entry (String.eqb k "critical" || String.eqb k "high")
                  (length (List.filter (with_severity k) contradictions))
  /\ PyDict.get k (r_by_clause_type report)
     = counter_entry (String.eqb k "notice_period" || String.eqb k "working_hours")
                     (length (List.filter (with_clause_type k) contradictions)).
Proof. cbv zeta. apply report_counters_at. Qed.

(** X18.  The recommendations of a report depend only on which kinds of
    contradiction occur: one for a critical contradiction, one for a
    high one, one for a notice period and one for working hours, in
    that order; the empty list gets none. *)
Theorem report_recommendations (contradictions : list Contradiction) :
  r_recommendations (generate_contradiction_report contradictions)
  = ((if existsb (with_severity "critical") contradictions
      then ["Address critical contradictions immediately, especially salary or legal terms"]
      else [])
     ++ (if existsb (with_severity "high") contradictions
         then ["Review high-priority contradictions that may affect contract validity"]
         else [])
     ++ (if existsb (with_clause_type "notice_period") contradictions
         then ["Standardize notice period requirements across all documents"]
         else [])
     ++ (if existsb (with_clause_type "working_hours") contradictions
         then ["Align working hours specifications in all relevant documents"]
         else []))%list.
Proof.
  destruct contradictions as [| first rest]; [reflexivity |].
  rewrite report_of_nonempty. cbn [r_recommendations].
  rewrite !read_count_value, !read_count_get.
  rewrite !(counted_from_empty c_severity), !(counted_from_empty c_clause_type).
  cbn [String.eqb Ascii.eqb Bool.eqb andb].
  rewrite !counter_entry_default.
  fold (with_severity "critical") (with_severity "high")
       (with_clause_type "notice_period") (with_clause_type "working_hours").
  rewrite !positive_count. reflexivity.
Qed.

(** X19.  The report counts every contradiction once under its severity
    and once under its clause type, and [total_contradictions] is the
    length of the list. *)
Theorem report_totals (contradictions : list Contradiction) :
  let report := generate_contradiction_report contradictions in
  r_total_contradictions report = length contradictions
  /\ (forall k, default 0%nat (PyDict.get k (r_by_severity report))
                = length (List.filter (with_severity k) contradictions))
  /\ (forall k, default 0%nat (PyDict.get k (r_by_clause_type report))
                = length (List.filter (with_clause_type k) contradictions)).
Proof.
  cbv zeta. destruct contradictions as [| first rest].
  - repeat split.
  - split; [rewrite report_of_nonempty; reflexivity |].
    split; intros k.
    + rewrite (proj1 (report_counters_at first rest k)).
      apply counter_entry_default.
    + rewrite (proj2 (report_counters_at first rest k)).
      apply counter_entry_default.
Qed.


End ReportSpec.

(* ===================================================================== *)
(** * Further properties of the text normaliser                           *)
(* ===================================================================== *)

Module CleanSpec.
Import PyStr PyNum Vocabulary Examples ClauseParser.

(** X21.  If cleaning a cleaned text changes nothing, then the cleaned
    text holds no page marker and no two blanks in a row: the
    condition that makes [_clean_text] idempotent is also necessary. *)
Theorem clean_text_idempotent_only_when_tidy (text : string) :
  _clean_text (_clean_text text) = _clean_text text ->
  Re.search Re.page_marker (_clean_text text) = None
  /\ contains "  " (_clean_text text) = false.
Proof.
  intros Hfixed.
  pose proof (CleanFacts.clean_text_plain_blank text) as Hblank.
  pose proof (f_equal String.length Hfixed) as Hlen.
  rewrite (CleanFacts.clean_text_shape (_clean_text text)) in Hlen.
  set (y := _clean_text text) in *.
  pose proof (WordFacts.strip_length
                (word_map number_words
                   (Re.sub Re.page_marker "" (Re.sub Re.whitespace_run " " y)))) as L1.
  pose proof (WordFacts.map_words_length number_words
                (fun w _ => WordFacts.number_words_length w)
                (String.length (Re.sub Re.page_marker ""
                                  (Re.sub Re.whitespace_run " " y)))
                (Re.sub Re.page_marker "" (Re.sub Re.whitespace_run " " y))
                false) as L2.
  fold (word_map number_words
          (Re.sub Re.page_marker "" (Re.sub Re.whitespace_run " " y))) in L2.
  pose proof (SubFacts.sub_go_length Re.page_marker ""
                (Re.sub Re.whitespace_run " " y) ltac:(simpl; lia) 0%nat None) as L3.
  fold (Re.sub Re.page_marker "" (Re.sub Re.whitespace_run " " y)) in L3.
  pose proof (SubFacts.sub_go_length Re.whitespace_run " " y
                ltac:(simpl; lia) 0%nat None) as L4.
  fold (Re.sub Re.whitespace_run " " y) in L4.
  assert (Hd : contains "  " y = false).
  { apply (SubFacts.collapse_same_length y None).
    fold (Re.sub Re.whitespace_run " " y). lia. }
  split; [| exact Hd].
  rewrite (SubFacts.collapse_fixed y Hblank Hd) in *.
  apply SubFacts.page_marker_absent. lia.
Qed.

Lemma clean_text_idempotent_only_when_tidy_witness :
  Re.search Re.page_marker (_clean_text "Thirty   days  notice ") = None
  /\ contains "  " (_clean_text "Thirty   days  notice ") = false.
Proof.
  apply clean_text_idempotent_only_when_tidy. vm_compute. reflexivity.
Defined.

(** X22.  A cleaned text has no whitespace character other than the
    plain space and neither starts nor ends with one: stripping it
    changes nothing. *)
Theorem clean_text_is_trimmed (text : string) :
  all_chars plain_blank (_clean_text text) = true
  /\ strip (_clean_text text) = _clean_text text.
Proof.
  split; [apply CleanFacts.clean_text_plain_blank |].
  unfold _clean_text. apply WordFacts.strip_idempotent.
Qed.

Lemma settled_word (word digits : string) (f : string -> string) (s : string) :
  wordy word -> wordy digits ->
  (forall w, wordy w -> wordy (f w)) ->
  (forall w, rewrite_word word digits (f w) = f w) ->
  Re.sub (number_word word digits) digits (strip (word_map f s))
  = strip (word_map f s).
Proof.
  intros Hw Hd Hf Hfix.
  rewrite WordFacts.number_sub by assumption.
  rewrite WordFacts.word_map_strip by (intros w; apply WordFacts.rewrite_word_wordy; assumption).
  rewrite WordFacts.word_map_compose by exact Hf.
  f_equal. unfold word_map. apply WordFacts.map_words_ext.
  intros w _. apply Hfix.
Qed.

(** X23.  No number word is left in a cleaned text: each of the four
    substitutions of [_clean_text], applied to a cleaned text, changes
    nothing. *)
Theorem clean_text_has_no_number_word (text : string) :
  Forall (fun '(word, digits) =>
            Re.sub (number_word word digits) digits (_clean_text text)
            = _clean_text text)
         [ ("thirty", "30"); ("sixty", "60"); ("ninety", "90"); ("fourteen", "14") ].
Proof.
  destruct CleanFacts.word_constants as (H1 & H2 & H3 & H4 & H5 & H6 & H7 & H8).
  rewrite CleanFacts.clean_text_shape.
  repeat constructor;
    apply settled_word; try assumption; try apply WordFacts.number_words_wordy;
    intros w; apply (WordFacts.number_words_settled w).
Qed.

End CleanSpec.

(* ===================================================================== *)
(** * Working hours, from the parser to the detector                      *)
(* ===================================================================== *)

Module HoursFacts.
Import PyStr PyNum Vocabulary ContradictionDetector ClauseParser.

#[local] Arguments String.append !s1 s2 / : simpl nomatch.

Lemma first_some_member {A B : Type} (f : A -> option B) (l : list A) (y : B) :
  Re.first_some f l = Some y -> exists x, In x l /\ f x = Some y.
Proof.
  induction l as [| a l IH]; simpl; [discriminate |].
  destruct (f a) as [b |] eqn:E.
  - intros [= <-]. exists a. auto.
  - intros H. destruct (IH H) as (x & Hx & Hf). exists x. auto.
Qed.

(** The texts [\d{1,2}] can match: one digit or two. *)
Lemma hour_shape (s h r : string) :
  In (h, r) (Re.one_or_two_digits s) ->
  (exists a, h = String a "" /\ is_digit a = true)
  \/ (exists a b, h = String a (String b "")
                  /\ is_digit a = true /\ is_digit b = true).
Proof.
  unfold Re.one_or_two_digits.
  destruct s as [| a [| b s]]; [intros [] | |].
  - destruct (is_digit a) eqn:Ha; [| intros []].
    intros [[= <- <-] | []]. left. exists a. auto.
  - destruct (is_digit a) eqn:Ha; [| intros []].
    destruct (is_digit b) eqn:Hb; simpl.
    + intros [[= <- <-] | [[= <- <-] | []]].
      * right. exists a, b. auto.
      * left. exists a. auto.
    + intros [[= <- <-] | []]. left. exists a. auto.
Qed.

Lemma letter_a (c : ascii) :
  Ascii.eqb "a" (lower_char c) = true -> lower_char c = "a"%char /\ upper_ascii c = "A"%char.
Proof. destruct c as [[] [] [] [] [] [] [] []]; vm_compute; intros H; auto; discriminate. Qed.

Lemma letter_p (c : ascii) :
  Ascii.eqb "p" (lower_char c) = true -> lower_char c = "p"%char /\ upper_ascii c = "P"%char.
Proof. destruct c as [[] [] [] [] [] [] [] []]; vm_compute; intros H; auto; discriminate. Qed.

Lemma letter_m (c : ascii) :
  Ascii.eqb "m" (lower_char c) = true -> lower_char c = "m"%char /\ upper_ascii c = "M"%char.
Proof. destruct c as [[] [] [] [] [] [] [] []]; vm_compute; intros H; auto; discriminate. Qed.

(** The texts [(am|pm)] can match under [re.IGNORECASE]. *)
Lemma period_shape (s p r : string) :
  Re.literal_ci ["am"; "pm"] s = Some (p, r) ->
  (lower p = "am" /\ map_chars upper_ascii p = "AM")
  \/ (lower p = "pm" /\ map_chars upper_ascii p = "PM").
Proof.
  unfold Re.literal_ci, Re.first_some.
  destruct s as [| c1 [| c2 s]].
  - simpl. intros H. discriminate H.
  - cbn [strip_prefix_ci].
    destruct (Ascii.eqb "a" (lower_char c1)), (Ascii.eqb "p" (lower_char c1));
      intros H; discriminate H.
  - cbn [strip_prefix_ci String.length take].
    destruct (Ascii.eqb "a" (lower_char c1)) eqn:Ea.
    + destruct (Ascii.eqb "m" (lower_char c2)) eqn:Em.
      * intros [= <- <-]. left.
        destruct (letter_a c1 Ea) as [L1 U1], (letter_m c2 Em) as [L2 U2].
        unfold lower. cbn [map_chars]. rewrite L1, L2, U1, U2. auto.
      * destruct (Ascii.eqb "p" (lower_char c1)) eqn:Ep;
          [| intros H; discriminate H].
        apply letter_a in Ea as [Ea _]. apply letter_p in Ep as [Ep _]. congruence.
    + destruct (Ascii.eqb "p" (lower_char c1)) eqn:Ep; [| intros H; discriminate H].
      destruct (Ascii.eqb "m" (lower_char c2)) eqn:Em; [| intros H; discriminate H].
      intros [= <- <-]. right.
      destruct (letter_p c1 Ep) as [L1 U1], (letter_m c2 Em) as [L2 U2].
      unfold lower. cbn [map_chars]. rewrite L1, L2, U1, U2. auto.
Qed.

(** The groups of a match of the time-range pattern. *)
Lemma time_range_groups (prev : option ascii) (s h1 p1 h2 p2 : string) :
  Re.time_range prev s = Some (h1, p1, h2, p2) ->
  ((exists a, h1 = String a "" /\ is_digit a = true)
   \/ (exists a b, h1 = String a (String b "")
                   /\ is_digit a = true /\ is_digit b = true))
  /\ ((exists a, h2 = String a "" /\ is_digit a = true)
      \/ (exists a b, h2 = String a (String b "")
                      /\ is_digit a = true /\ is_digit b = true))
  /\ ((lower p1 = "am" /\ map_chars upper_ascii p1 = "AM")
      \/ (lower p1 = "pm" /\ map_chars upper_ascii p1 = "PM"))
  /\ ((lower p2 = "am" /\ map_chars upper_ascii p2 = "AM")
      \/ (lower p2 = "pm" /\ map_chars upper_ascii p2 = "PM")).
Proof.
  unfold Re.time_range. intros H.
  apply first_some_member in H as ([h r1] & Hh1 & H).
  destruct (Re.literal_ci ["am"; "pm"] _) as [[q1 r2] |] eqn:E1; [| discriminate].
  destruct (Re.literal_ci ["to"; "-"] _) as [[sep r3] |]; [| discriminate].
  apply first_some_member in H as ([h' r4] & Hh2 & H).
  destruct (Re.literal_ci ["am"; "pm"] (snd (span is_space r4)))
    as [[q2 r5] |] eqn:E2; [| discriminate].
  injection H as <- <- <- <-.
  apply hour_shape in Hh1, Hh2. apply period_shape in E1, E2. auto.
Qed.

Lemma digit_not_space (c : ascii) : is_digit c = true -> is_space c = false.
Proof. destruct c as [[] [] [] [] [] [] [] []]; vm_compute; congruence. Qed.

Lemma first_some_cons {A B : Type} (f : A -> option B) (x : A) (l : list A) :
  Re.first_some f (x :: l)
  = match f x with Some r => Some r | None => Re.first_some f l end.
Proof. reflexivity. Qed.

Lemma hour_then_blank (h r : string) :
  ((exists a, h = String a "" /\ is_digit a = true)
   \/ (exists a b, h = String a (String b "")
                   /\ is_digit a = true /\ is_digit b = true)) ->
  exists rest, Re.one_or_two_digits (h ++ String " " r) = (h, String " " r) :: rest.
Proof.
  intros [(a & -> & Ha) | (a & b & -> & Ha & Hb)];
    cbn [String.append]; unfold Re.one_or_two_digits.
  - rewrite Ha. replace (is_digit " ") with false by reflexivity.
    eexists. reflexivity.
  - rewrite Ha, Hb. eexists. reflexivity.
Qed.

Lemma blank_then (c : ascii) (r : string) :
  is_space c = false -> snd (span is_space (String " " (String c r))) = String c r.
Proof.
  intros H. rewrite WordFacts.span_cons_true by reflexivity.
  rewrite WordFacts.span_cons_false by exact H. reflexivity.
Qed.

Lemma blank_then_hour (h r : string) :
  ((exists a, h = String a "" /\ is_digit a = true)
   \/ (exists a b, h = String a (String b "")
                   /\ is_digit a = true /\ is_digit b = true)) ->
  snd (span is_space (String " " (h ++ r))) = h ++ r.
Proof.
  intros [(a & -> & Ha) | (a & b & -> & Ha & Hb)]; cbn [String.append];
    apply blank_then, digit_not_space, Ha.
Qed.

Lemma period_found (p r : string) :
  In p ["AM"; "PM"] -> Re.literal_ci ["am"; "pm"] (p ++ r) = Some (p, r).
Proof. intros [<- | [<- | []]]; reflexivity. Qed.

Lemma period_first (p r : string) :
  In p ["AM"; "PM"] ->
  exists c r', p ++ r = String c r' /\ is_space c = false.
Proof. intros [<- | [<- | []]]; eexists _, _; split; reflexivity. Qed.

Lemma plain_range_match (h1 p1 h2 p2 : string) :
  ((exists a, h1 = String a "" /\ is_digit a = true)
   \/ (exists a b, h1 = String a (String b "")
                   /\ is_digit a = true /\ is_digit b = true)) ->
  ((exists a, h2 = String a "" /\ is_digit a = true)
   \/ (exists a b, h2 = String a (String b "")
                   /\ is_digit a = true /\ is_digit b = true)) ->
  In p1 ["AM"; "PM"] -> In p2 ["AM"; "PM"] ->
  Re.time_range None
    (h1 ++ String " " (p1 ++ String " " (String "t" (String "o"
       (String " " (h2 ++ String " " p2))))))
  = Some (h1, p1, h2, p2).
Proof.
  intros H1 H2 P1 P2. unfold Re.time_range.
  destruct (hour_then_blank h1
              (p1 ++ String " " (String "t" (String "o"
                 (String " " (h2 ++ String " " p2))))) H1) as [rest1 ->].
  rewrite first_some_cons.
  destruct (period_first p1
              (String " " (String "t" (String "o"
                 (String " " (h2 ++ String " " p2))))) P1) as (c1 & r1 & E1 & S1).
  rewrite E1, (blank_then c1 r1 S1), <- E1, (period_found p1 _ P1).
  rewrite (blank_then "t") by reflexivity.
  change (Re.literal_ci ["to"; "-"]
            (String "t" (String "o" (String " " (h2 ++ String " " p2)))))
    with (Some ("to", String " " (h2 ++ String " " p2))).
  cbv iota beta.
  rewrite (blank_then_hour h2 (String " " p2) H2).
  destruct (hour_then_blank h2 p2 H2) as [rest2 ->].
  rewrite first_some_cons.
  destruct (period_first p2 "" P2) as (c2 & r2 & E2 & S2).
  rewrite SubFacts.append_nil_r in E2.
  rewrite E2, (blank_then c2 r2 S2), <- E2.
  rewrite <- (SubFacts.append_nil_r p2) at 1.
  rewrite (period_found p2 "" P2). reflexivity.
Qed.

(** The pattern finds the four groups in working hours written the
    plain way. *)
Lemma search_plain_range (h1 p1 h2 p2 : string) :
  ((exists a, h1 = String a "" /\ is_digit a = true)
   \/ (exists a b, h1 = String a (String b "")
                   /\ is_digit a = true /\ is_digit b = true)) ->
  ((exists a, h2 = String a "" /\ is_digit a = true)
   \/ (exists a b, h2 = String a (String b "")
                   /\ is_digit a = true /\ is_digit b = true)) ->
  In p1 ["AM"; "PM"] -> In p2 ["AM"; "PM"] ->
  Re.search Re.time_range (h1 ++ " " ++ p1 ++ " to " ++ h2 ++ " " ++ p2)
  = Some (h1, p1, h2, p2).
Proof.
  intros H1 H2 P1 P2.
  pose proof (plain_range_match h1 p1 h2 p2 H1 H2 P1 P2) as Hm.
  change (h1 ++ " " ++ p1 ++ " to " ++ h2 ++ " " ++ p2)
    with (h1 ++ String " " (p1 ++ String " " (String "t" (String "o"
            (String " " (h2 ++ String " " p2)))))).
  unfold Re.search.
  destruct H1 as [(a & -> & Ha) | (a & b & -> & Ha & Hb)];
    cbn [String.append Re.search_go] in *; rewrite Hm; reflexivity.
Qed.

(** ** Matches and the text around them *)

Lemma search_go_some_at {A : Type} (m : option ascii -> string -> option A)
      (s : string) :
  forall prev r, Re.search_go m prev s = Some r ->
                 exists pre s' prev', s = pre ++ s' /\ m prev' s' = Some r.
Proof.
  induction s as [| c s IH]; intros prev r; simpl.
  - destruct (m prev "") eqn:E; [| discriminate].
    intros [= <-]. exists "", "", prev. auto.
  - destruct (m prev (String c s)) eqn:E.
    + intros [= <-]. exists "", (String c s), prev. auto.
    + intros H. apply IH in H as (pre & s' & prev' & -> & H).
      exists (String c pre), s', prev'. auto.
Qed.

Section Infix.
Context {A : Type}.
Variable m : option ascii -> string -> option A.
Hypothesis blind : forall p s, m p s = m None s.
Hypothesis extends : forall s w, m None (s ++ w) = None -> m None s = None.

Lemma search_go_none_here (s : string) (prev : option ascii) :
  Re.search_go m prev s = None -> m None s = None.
Proof.
  rewrite <- (blind prev).
  destruct s; simpl; destruct (m prev _); congruence.
Qed.

Lemma search_go_blind (s : string) (prev prev' : option ascii) :
  Re.search_go m prev s = Re.search_go m prev' s.
Proof. destruct s; simpl; rewrite (blind prev), (blind prev'); reflexivity. Qed.

Lemma search_none_after (b : string) :
  forall pre prev, Re.search_go m prev (pre ++ b) = None ->
                   forall prev', Re.search_go m prev' b = None.
Proof.
  induction pre as [| c pre IH]; intros prev H prev'.
  - rewrite (search_go_blind b prev' prev). exact H.
  - cbn [String.append Re.search_go] in H.
    destruct (m prev (String c (pre ++ b))); [discriminate |].
    apply (IH (Some c)). exact H.
Qed.

Lemma search_none_before (w : string) :
  forall b prev, Re.search_go m prev (b ++ w) = None ->
                 Re.search_go m prev b = None.
Proof.
  induction b as [| c b IH]; intros prev H.
  - apply search_go_none_here in H. apply (extends "" w) in H.
    simpl. rewrite (blind prev), H. reflexivity.
  - pose proof (search_go_none_here _ _ H) as Hc. apply extends in Hc.
    cbn [String.append Re.search_go] in H |- *.
    destruct (m prev (String c (b ++ w))); [discriminate |].
    rewrite (blind prev), Hc. apply IH. exact H.
Qed.

(** No match in a text, none in a part of it. *)
Lemma search_none_infix (a b c : string) :
  Re.search m (a ++ b ++ c) = None -> Re.search m b = None.
Proof.
  unfold Re.search. intros H.
  apply (search_none_after (b ++ c) a None) with (prev' := None) in H.
  apply search_none_before in H. exact H.
Qed.

End Infix.

Lemma hour_split (s h r : string) :
  In (h, r) (Re.one_or_two_digits s) -> s = h ++ r.
Proof.
  unfold Re.one_or_two_digits.
  destruct s as [| a [| b s]]; [intros [] | |].
  - destruct (is_digit a); [| intros []]. intros [[= <- <-] | []]. reflexivity.
  - destruct (is_digit a); [| intros []].
    destruct (is_digit b); simpl.
    + intros [[= <- <-] | [[= <- <-] | []]]; reflexivity.
    + intros [[= <- <-] | []]. reflexivity.
Qed.

Lemma hour_options_app (s w : string) :
  (2 <= String.length s)%nat ->
  Re.one_or_two_digits (s ++ w)
  = map (fun '(h, r) => (h, r ++ w)) (Re.one_or_two_digits s).
Proof.
  destruct s as [| a [| b s]]; simpl; try lia. intros _.
  destruct (is_digit a), (is_digit b); reflexivity.
Qed.

Lemma first_some_found {A B : Type} (f : A -> option B) (l : list A) (x : A) :
  In x l -> f x <> None -> Re.first_some f l <> None.
Proof.
  induction l as [| a l IH]; [intros [] |].
  intros [-> | Hin] Hx; rewrite first_some_cons.
  - destruct (f x); congruence.
  - destruct (f a); [discriminate | auto].
Qed.

(** A continuation that still succeeds when text is added succeeds on
    one of the ways to read the hour of the longer text. *)
Lemma hour_extends {B : Type} (f : string * string -> option B) (s w : string) :
  (forall h r, f (h, r) <> None -> r <> "" /\ f (h, r ++ w) <> None) ->
  Re.first_some f (Re.one_or_two_digits s) <> None ->
  Re.first_some f (Re.one_or_two_digits (s ++ w)) <> None.
Proof.
  intros Hf H.
  destruct (Re.first_some f (Re.one_or_two_digits s)) as [y |] eqn:E; [| congruence].
  apply first_some_member in E as ([h r] & Hin & Hy).
  destruct (Hf h r ltac:(congruence)) as [Hr Hw].
  pose proof (hour_split s h r Hin) as Hs.
  pose proof (hour_shape s h r Hin) as Hh.
  assert (Hlen : (2 <= String.length s)%nat).
  { rewrite Hs, SubFacts.length_append.
    destruct r as [| c0 r0]; [congruence |].
    destruct Hh as [(a & -> & _) | (a & b & -> & _)]; simpl; lia. }
  rewrite (hour_options_app s w Hlen).
  apply (first_some_found f _ (h, r ++ w)); [| exact Hw].
  apply (in_map (fun '(h, r) => (h, r ++ w)) _ (h, r)). exact Hin.
Qed.

Lemma blanks_app (r w : string) :
  snd (span is_space r) <> "" ->
  snd (span is_space (r ++ w)) = snd (span is_space r) ++ w.
Proof. intros H. rewrite (NoticeSpec.span_app is_space r w H). reflexivity. Qed.

Lemma period_app (s p r w : string) :
  Re.literal_ci ["am"; "pm"] s = Some (p, r) ->
  Re.literal_ci ["am"; "pm"] (s ++ w) = Some (p, r ++ w).
Proof.
  unfold Re.literal_ci, Re.first_some.
  destruct s as [| c1 [| c2 s]];
    cbn [strip_prefix_ci take String.length String.append];
    repeat match goal with
           | |- context [Ascii.eqb ?a (lower_char ?c)] =>
               destruct (Ascii.eqb_spec a (lower_char c))
           end;
    intros H; try discriminate H; try congruence;
    injection H as <- <-; reflexivity.
Qed.

Lemma separator_app (s p r w : string) :
  Re.literal_ci ["to"; "-"] s = Some (p, r) ->
  Re.literal_ci ["to"; "-"] (s ++ w) = Some (p, r ++ w).
Proof.
  unfold Re.literal_ci, Re.first_some.
  destruct s as [| c1 [| c2 s]];
    cbn [strip_prefix_ci take String.length String.append];
    repeat match goal with
           | |- context [Ascii.eqb ?a (lower_char ?c)] =>
               destruct (Ascii.eqb_spec a (lower_char c))
           end;
    intros H; try discriminate H; try congruence;
    try (injection H as <- <-; reflexivity).
Qed.

Lemma literal_needs_text {alts : list string} (s : string) (g : string * string) :
  Re.literal_ci alts s = Some g -> ~ In "" alts -> s <> "".
Proof.
  intros H Halts ->. unfold Re.literal_ci in H.
  apply first_some_member in H as (x & Hx & H).
  destruct x; [contradiction | discriminate H].
Qed.

(** A match of the 12-hour pattern does not depend on what follows the
    text. *)
Lemma time_range_extends (s w : string) :
  Re.time_range None (s ++ w) = None -> Re.time_range None s = None.
Proof.
  intros H. destruct (Re.time_range None s) as [g |] eqn:E; [exfalso | reflexivity].
  revert H. unfold Re.time_range in *.
  apply hour_extends; [| congruence].
  clear E g. intros h1 r1 HF.
  destruct (Re.literal_ci ["am"; "pm"] (snd (span is_space r1)))
    as [[p1 r2] |] eqn:L1; [| congruence].
  assert (N1 : snd (span is_space r1) <> "").
  { apply (literal_needs_text _ _ L1). simpl. intuition discriminate. }
  split; [intros ->; apply N1; reflexivity |].
  rewrite (blanks_app r1 w N1), (period_app _ _ _ w L1).
  destruct (Re.literal_ci ["to"; "-"] (snd (span is_space r2)))
    as [[sep r3] |] eqn:L2; [| congruence].
  assert (N2 : snd (span is_space r2) <> "").
  { apply (literal_needs_text _ _ L2). simpl. intuition discriminate. }
  rewrite (blanks_app r2 w N2), (separator_app _ _ _ w L2).
  assert (N3 : snd (span is_space r3) <> "").
  { intros E. rewrite E in HF. apply HF. reflexivity. }
  rewrite (blanks_app r3 w N3).
  apply hour_extends; [| exact HF].
  intros h2 r4 HG.
  destruct (Re.literal_ci ["am"; "pm"] (snd (span is_space r4)))
    as [[p2 r5] |] eqn:L3; [| congruence].
  assert (N4 : snd (span is_space r4) <> "").
  { apply (literal_needs_text _ _ L3). simpl. intuition discriminate. }
  split; [intros ->; apply N4; reflexivity |].
  rewrite (blanks_app r4 w N4), (period_app _ _ _ w L3). discriminate.
Qed.

(** ** The 24-hour pattern *)

Lemma clock_time_shape (s : string) (n : nat) (r : string) :
  Re.clock_time s = Some (n, r) ->
  exists h a b,
    hour_text h /\ is_digit a = true /\ is_digit b = true
    /\ s = h ++ String ":" (String a (String b r))
    /\ n = (String.length h + 3)%nat.
Proof.
  unfold Re.clock_time. intros H.
  apply first_some_member in H as ([h r0] & Hin & H).
  pose proof (hour_split s h r0 Hin) as Hs.
  pose proof (hour_shape s h r0 Hin) as Hh.
  destruct r0 as [| colon [| a [| b r']]]; try discriminate H.
  destruct (Ascii.eqb_spec colon ":") as [-> | _]; [| discriminate H].
  destruct (is_digit a) eqn:Ha; [| discriminate H].
  destruct (is_digit b) eqn:Hb; [| discriminate H].
  injection H as <- <-. exists h, a, b. auto.
Qed.

Lemma clock_time_plain (h : string) (a b : ascii) (r : string) :
  hour_text h -> is_digit a = true -> is_digit b = true ->
  Re.clock_time (h ++ String ":" (String a (String b r)))
  = Some ((String.length h + 3)%nat, r).
Proof.
  intros [(x & -> & Hx) | (x & y & -> & Hx & Hy)] Ha Hb;
    unfold Re.clock_time; cbn [String.append]; unfold Re.one_or_two_digits.
  - rewrite Hx. replace (is_digit ":") with false by reflexivity.
    cbn [app]. rewrite first_some_cons.
    replace (Ascii.eqb ":" ":") with true by reflexivity.
    rewrite Ha, Hb. reflexivity.
  - rewrite Hx, Hy. cbn [app]. rewrite first_some_cons.
    replace (Ascii.eqb ":" ":") with true by reflexivity.
    rewrite Ha, Hb. reflexivity.
Qed.

Lemma strip_prefix_split (x s r : string) :
  strip_prefix x s = Some r -> s = x ++ r.
Proof.
  revert s. induction x as [| c x IH]; intros s; simpl.
  - intros [= <-]. reflexivity.
  - destruct s as [| d s]; [discriminate |].
    destruct (Ascii.eqb_spec c d) as [<- | _]; [| discriminate].
    intros H. rewrite (IH s H). reflexivity.
Qed.

Lemma separator_shape (s sep r : string) :
  Re.literal ["to"; "-"] s = Some (sep, r) ->
  s = sep ++ r /\ In sep ["to"; "-"].
Proof.
  unfold Re.literal. intros H.
  apply first_some_member in H as (x & Hx & H).
  destruct (strip_prefix x s) as [r' |] eqn:E; [| discriminate H].
  injection H as <- <-. split; [apply strip_prefix_split; exact E | exact Hx].
Qed.

Lemma separator_plain (sep r : string) :
  In sep ["to"; "-"] -> Re.literal ["to"; "-"] (sep ++ r) = Some (sep, r).
Proof. intros [<- | [<- | []]]; reflexivity. Qed.

Lemma take_app (a b : string) (n : nat) :
  take (String.length a + n) (a ++ b) = a ++ take n b.
Proof. induction a as [| c a IH]; simpl; [| rewrite IH]; reflexivity. Qed.

Lemma blanks_then (w r : string) :
  all_chars is_space w = true ->
  match r with "" => True | String c _ => is_space c = false end ->
  span is_space (w ++ r) = (w, r).
Proof. apply WordFacts.span_exact. Qed.

Lemma span_split (p : ascii -> bool) (s a b : string) :
  span p s = (a, b) ->
  s = a ++ b /\ all_chars p a = true
  /\ match b with "" => True | String c _ => p c = false end.
Proof.
  intros E.
  pose proof (WordFacts.span_append p s) as H1.
  pose proof (StrFacts.span_all p s) as H2.
  pose proof (WordFacts.span_rest_head p s) as H3.
  rewrite E in H1, H2, H3. simpl in *. auto.
Qed.

(** The text matched by the 24-hour pattern: a prefix of the text, and
    found again whatever follows it. *)
Lemma clock_range_stable (prev : option ascii) (s m : string) :
  Re.clock_range prev s = Some m ->
  m <> ""
  /\ exists rest, s = m ++ rest
                  /\ forall x, Re.clock_range None (m ++ x) = Some m.
Proof.
  unfold Re.clock_range.
  destruct (Re.clock_time s) as [[n1 r1] |] eqn:C1; [| discriminate].
  destruct (span is_space r1) as [w1 r2] eqn:S1.
  destruct (Re.literal ["to"; "-"] r2) as [[sep r3] |] eqn:L; [| discriminate].
  destruct (span is_space r3) as [w2 r4] eqn:S2.
  destruct (Re.clock_time r4) as [[n2 r5] |] eqn:C2; [| discriminate].
  intros [= <-].
  apply clock_time_shape in C1 as (h1 & a & b & H1 & Ha & Hb & -> & ->).
  apply clock_time_shape in C2 as (h2 & c & d & H2 & Hc & Hd & -> & ->).
  apply span_split in S1 as (-> & W1 & _).
  apply span_split in S2 as (-> & W2 & _).
  apply separator_shape in L as [-> Hsep].
  set (tail := fun x => w1 ++ sep ++ w2 ++ h2 ++ String ":" (String c (String d x))).
  assert (Htake : forall x,
             take (String.length h1 + 3 + String.length w1 + String.length sep
                   + String.length w2 + (String.length h2 + 3))
                  (h1 ++ String ":" (String a (String b (tail x))))
             = h1 ++ String ":" (String a (String b (tail "")))).
  { intros x.
    replace (String.length h1 + 3 + String.length w1 + String.length sep
             + String.length w2 + (String.length h2 + 3))%nat
      with (String.length h1
            + (3 + (String.length w1
                    + (String.length sep
                       + (String.length w2 + (String.length h2 + 3))))))%nat by lia.
    rewrite take_app. cbn [take plus]. unfold tail.
    rewrite !take_app. reflexivity. }
  assert (Hm : forall x,
             h1 ++ String ":" (String a (String b (tail x)))
             = (h1 ++ String ":" (String a (String b (tail "")))) ++ x).
  { intros x. unfold tail.
    do 3 (rewrite ?SubFacts.append_assoc; cbn [String.append]). reflexivity. }
  fold (tail r5). rewrite (Htake r5).
  split.
  { destruct H1 as [(x & -> & _) | (x & y & -> & _)]; discriminate. }
  exists r5. split; [apply Hm |].
  intros x. rewrite <- Hm.
  rewrite (clock_time_plain h1 a b (tail x) H1 Ha Hb).
  assert (Hsep_head : forall y, match sep ++ y with
                                | "" => True
                                | String e _ => is_space e = false
                                end).
  { intros y. destruct Hsep as [<- | [<- | []]]; reflexivity. }
  unfold tail at 1.
  rewrite (blanks_then w1 _ W1 (Hsep_head _)).
  rewrite (separator_plain sep _ Hsep).
  assert (Hhour_head : forall y, match h2 ++ y with
                                 | "" => True
                                 | String e _ => is_space e = false
                                 end).
  { intros y. destruct H2 as [(e & -> & He) | (e & f & -> & He & _)];
      apply digit_not_space, He. }
  rewrite (blanks_then w2 _ W2 (Hhour_head _)).
  rewrite (clock_time_plain h2 c d x H2 Hc Hd).
  apply f_equal. apply Htake.
Qed.

Lemma clock_range_extends (s w : string) :
  Re.clock_range None (s ++ w) = None -> Re.clock_range None s = None.
Proof.
  intros H. destruct (Re.clock_range None s) as [m |] eqn:E; [| reflexivity].
  apply clock_range_stable in E as (_ & rest & -> & Hm).
  rewrite SubFacts.append_assoc, Hm in H. discriminate H.
Qed.

End HoursFacts.

Module HoursSpec.
Import PyStr PyNum Vocabulary Examples ContradictionDetector ClauseParser.
Import HoursFacts.

(** What [_extract_working_hours] writes on a 12-hour match, and the
    pattern finding it again. *)
Lemma working_hours_on_match (text h1 p1 h2 p2 : string) :
  Re.search Re.time_range text = Some (h1, p1, h2, p2) ->
  let out := h1 ++ " " ++ map_chars upper_ascii p1
             ++ " to " ++ h2 ++ " " ++ map_chars upper_ascii p2 in
  _extract_working_hours text = out
  /\ Re.search Re.time_range out
     = Some (h1, map_chars upper_ascii p1, h2, map_chars upper_ascii p2)
  /\ lower (map_chars upper_ascii p1) = lower p1
  /\ lower (map_chars upper_ascii p2) = lower p2
  /\ map_chars upper_ascii (map_chars upper_ascii p1) = map_chars upper_ascii p1
  /\ map_chars upper_ascii (map_chars upper_ascii p2) = map_chars upper_ascii p2.
Proof.
  intros Hm out. subst out.
  pose proof Hm as Hg. apply StrFacts.search_go_some in Hg as (prev & s & Hg).
  apply time_range_groups in Hg as (H1 & H2 & P1 & P2).
  split; [unfold _extract_working_hours; rewrite Hm; reflexivity |].
  split.
  - apply search_plain_range; auto.
    + destruct P1 as [[_ ->] | [_ ->]]; simpl; auto.
    + destruct P2 as [[_ ->] | [_ ->]]; simpl; auto.
  - destruct P1 as [[L1 ->] | [L1 ->]], P2 as [[L2 ->] | [L2 ->]];
      rewrite L1, L2; repeat split; reflexivity.
Qed.

(** X24.  [_extract_working_hours] is idempotent: whatever it returns,
    from a match of the 12-hour pattern, from a match of the 24-hour
    pattern or as the stripped text, it returns unchanged when applied
    again. *)
Theorem working_hours_idempotent (text : string) :
  _extract_working_hours (_extract_working_hours text) = _extract_working_hours text.
Proof.
  destruct (Re.search Re.time_range text) as [[[[h1 p1] h2] p2] |] eqn:E.
  - destruct (working_hours_on_match text h1 p1 h2 p2 E)
      as (Hout & Hs & _ & _ & U1 & U2).
    rewrite Hout. unfold _extract_working_hours at 1. rewrite Hs, U1, U2.
    reflexivity.
  - unfold _extract_working_hours at 2 3. rewrite E.
    destruct (Re.search Re.clock_range text) as [m |] eqn:C.
    + unfold Re.search in C.
      apply search_go_some_at in C as (pre & s & prev & Htext & C).
      apply clock_range_stable in C as (Hne & rest & -> & Hm).
      subst text.
      apply (search_none_infix Re.time_range (fun _ _ => eq_refl)
                               time_range_extends pre m rest) in E.
      unfold _extract_working_hours. rewrite E.
      assert (Hfound : Re.search Re.clock_range m = Some m).
      { unfold Re.search. specialize (Hm ""). rewrite SubFacts.append_nil_r in Hm.
        destruct m as [| c m']; [congruence |].
        cbn [Re.search_go]. rewrite Hm. reflexivity. }
      rewrite Hfound. reflexivity.
    + destruct (NoticeSpec.strip_decompose text) as (w1 & w2 & Htext).
      rewrite Htext in E, C.
      apply (search_none_infix Re.time_range (fun _ _ => eq_refl)
                               time_range_extends) in E.
      apply (search_none_infix Re.clock_range (fun _ _ => eq_refl)
                               clock_range_extends) in C.
      unfold _extract_working_hours. rewrite E, C.
      apply WordFacts.strip_idempotent.
Qed.

(** X25.  Working hours that [_extract_working_hours] wrote from a
    match of the 12-hour pattern are read by the detector's
    [parse_time_range] as the same pair of hours as the text they were
    extracted from. *)
Theorem working_hours_keep_range (text : string) :
  Re.search Re.time_range text <> None ->
  parse_time_range (VStr (_extract_working_hours text))
  = parse_time_range (VStr text).
Proof.
  intros Hm.
  destruct (Re.search Re.time_range text) as [[[[h1 p1] h2] p2] |] eqn:E;
    [| congruence].
  destruct (working_hours_on_match text h1 p1 h2 p2 E)
    as (Hout & Hs & L1 & L2 & _ & _).
  unfold parse_time_range. cbn [py_str]. rewrite Hout, Hs, E.
  unfold to_24_hour. rewrite L1, L2. reflexivity.
Qed.

Lemma working_hours_keep_range_witness :
  parse_time_range (VStr (_extract_working_hours "Office hours: 9am - 5 pm daily"))
  = parse_time_range (VStr "Office hours: 9am - 5 pm daily").
Proof. apply working_hours_keep_range. vm_compute. discriminate. Defined.

End HoursSpec.

(* ===================================================================== *)
(** * Post-processing twice                                               *)
(* ===================================================================== *)

Module CollapseFacts.
Import PyStr PyNum Vocabulary SubFacts WordFacts.

#[local] Arguments String.append !s1 s2 / : simpl nomatch.

(** [re.sub(r'\s+', ' ', s)], one step: a run of blanks becomes one
    space, any other character is kept. *)
Lemma collapse_unfold (prev : option ascii) (c : ascii) (s : string) :
  exists prev',
    Re.sub_go Re.whitespace_run " " 0 prev (String c s)
    = if is_space c
      then String " " (Re.sub_go Re.whitespace_run " " 0 prev'
                                 (snd (span is_space s)))
      else String c (Re.sub_go Re.whitespace_run " " 0 (Some c) s).
Proof.
  destruct (is_space c) eqn:Ec.
  - exists (prev_at (String.length (fst (span is_space s))) (Some c) s).
    rewrite (sub_go_match Re.whitespace_run " " prev c s
                          (String.length (fst (span is_space s)))).
    + rewrite span_drop. reflexivity.
    + rewrite whitespace_run_head, Ec. reflexivity.
  - exists None. apply sub_go_no_match.
    rewrite whitespace_run_head, Ec. reflexivity.
Qed.

Lemma collapse_head (prev : option ascii) (c : ascii) (s : string) :
  exists t, Re.sub_go Re.whitespace_run " " 0 prev (String c s)
            = String (if is_space c then " "%char else c) t.
Proof.
  destruct (collapse_unfold prev c s) as [prev' ->].
  destruct (is_space c); eexists; reflexivity.
Qed.

Lemma double_blank_cons (c : ascii) (s : string) :
  contains "  " (String c s)
  = match s with
    | String c' _ => (Ascii.eqb " " c && Ascii.eqb " " c') || contains "  " s
    | "" => false
    end.
Proof.
  cbn [contains strip_prefix].
  destruct s as [| c' s']; [destruct (Ascii.eqb " " c); reflexivity |].
  destruct (Ascii.eqb " " c); [| reflexivity].
  destruct (Ascii.eqb " " c'); reflexivity.
Qed.

(** No two blanks in a row are left. *)
Lemma collapse_no_double (n : nat) :
  forall s prev, (String.length s <= n)%nat ->
                 contains "  " (Re.sub_go Re.whitespace_run " " 0 prev s) = false.
Proof.
  induction n as [| n IH]; intros [| c s] prev Hn; try reflexivity;
    [simpl in Hn; lia |].
  simpl in Hn.
  destruct (collapse_unfold prev c s) as [prev' ->].
  destruct (is_space c) eqn:Ec.
  - pose proof (span_rest_length is_space s) as Hl.
    pose proof (span_rest_head is_space s) as Hh.
    rewrite double_blank_cons.
    destruct (snd (span is_space s)) as [| c' r] eqn:Er; [reflexivity |].
    pose proof (IH (String c' r) prev' ltac:(lia)) as Hr.
    destruct (collapse_head prev' c' r) as [t Ht].
    cbn beta iota in Hh. rewrite Hh in Ht. rewrite Ht in *. rewrite Hr.
    destruct (Ascii.eqb_spec " " c') as [<- | _]; [discriminate Hh | reflexivity].
  - rewrite double_blank_cons.
    pose proof (IH s (Some c) ltac:(lia)) as Hs.
    destruct (Re.sub_go _ _ _ _ s) as [| c' t]; [reflexivity |].
    rewrite Hs.
    destruct (Ascii.eqb_spec " " c) as [<- | _]; [discriminate Ec | reflexivity].
Qed.

Lemma rstrip_fixed_tail (c : ascii) (s : string) :
  rstrip (String c s) = String c s ->
  (s = "" /\ is_space c = false) \/ (rstrip s = s /\ s <> "").
Proof.
  rewrite rstrip_cons. destruct (rstrip s) as [| a r] eqn:E.
  - destruct (is_space c); [discriminate |]. intros [= <-]. auto.
  - intros [= <-]. right. split; [reflexivity | discriminate].
Qed.

Lemma rstrip_fixed_span (s : string) :
  rstrip s = s -> s <> "" ->
  rstrip (snd (span is_space s)) = snd (span is_space s)
  /\ snd (span is_space s) <> "".
Proof.
  induction s as [| c s IH]; intros Hr Hne; [congruence |].
  destruct (is_space c) eqn:Ec.
  - rewrite span_cons_true by exact Ec. cbn [snd].
    apply rstrip_fixed_tail in Hr as [[_ Hc] | [Hr Hs]]; [congruence | auto].
  - rewrite span_cons_false by exact Ec. cbn [snd]. auto.
Qed.

(** A text that does not end with a blank still does not after the
    blanks are merged. *)
Lemma collapse_rstrip (n : nat) :
  forall s prev, (String.length s <= n)%nat -> rstrip s = s ->
                 rstrip (Re.sub_go Re.whitespace_run " " 0 prev s)
                 = Re.sub_go Re.whitespace_run " " 0 prev s.
Proof.
  induction n as [| n IH]; intros [| c s] prev Hn Hr; try reflexivity;
    [simpl in Hn; lia |].
  simpl in Hn.
  destruct (collapse_unfold prev c s) as [prev' ->].
  destruct (is_space c) eqn:Ec.
  - apply rstrip_fixed_tail in Hr as [[_ Hc] | [Hr Hs]]; [congruence |].
    destruct (rstrip_fixed_span s Hr Hs) as [Hr' Hne].
    pose proof (span_rest_length is_space s) as Hl.
    pose proof (IH (snd (span is_space s)) prev' ltac:(lia) Hr') as Hfix.
    rewrite rstrip_cons, Hfix.
    destruct (snd (span is_space s)) as [| c' r]; [congruence |].
    destruct (collapse_head prev' c' r) as [t ->]. reflexivity.
  - rewrite rstrip_cons_keep by exact Ec. f_equal.
    apply IH; [lia |].
    rewrite rstrip_cons_keep in Hr by exact Ec. congruence.
Qed.

Lemma strip_head (s : string) :
  match strip s with
  | "" => True
  | String c _ => is_space c = false
  end.
Proof.
  unfold strip. pose proof (lstrip_head s) as Hl.
  pose proof (rstrip_head (lstrip s)) as Hr.
  destruct (rstrip (lstrip s)) as [| c r]; [exact I |].
  destruct (lstrip s) as [| c' t]; [discriminate |].
  simpl in Hr. congruence.
Qed.

(** Cleaning a string value of a clause a second time changes
    nothing. *)
Lemma cleaned_string_settled (s : string) :
  let s' := Re.sub Re.whitespace_run " " (strip s) in
  Re.sub Re.whitespace_run " " (strip s') = s'.
Proof.
  cbv zeta.
  assert (Hstrip : strip (Re.sub Re.whitespace_run " " (strip s))
                   = Re.sub Re.whitespace_run " " (strip s)).
  { unfold Re.sub.
    pose proof (strip_head s) as Hh.
    assert (Hr : rstrip (strip s) = strip s) by apply rstrip_idempotent.
    unfold strip at 1.
    destruct (strip s) as [| c t] eqn:E; [reflexivity |].
    destruct (collapse_head None c t) as [u Hu].
    rewrite Hh in Hu.
    rewrite Hu at 1. rewrite lstrip_fixed by exact Hh. rewrite <- Hu.
    apply (collapse_rstrip (String.length (String c t))); [lia | exact Hr]. }
  rewrite Hstrip. apply collapse_fixed.
  - apply collapse_plain_blank.
  - apply (collapse_no_double (String.length (strip s))). lia.
Qed.

End CollapseFacts.

Module ReplayFacts.
Import PyStr PyNum Vocabulary ClauseParser PostProcessFacts.

(** What survived the post-processing survives it again, unchanged. *)
Lemma surviving_settled (value value' : ClauseValue) :
  surviving value = Some value' -> surviving value' = Some value'.
Proof.
  destruct value as [s | l]; unfold surviving.
  - destruct (_ && _) eqn:E; [| discriminate]. intros [= <-].
    rewrite CollapseFacts.cleaned_string_settled, E. reflexivity.
  - set (kept := map strip (List.filter (fun v => (2 <? String.length (strip v))%nat) l)).
    assert (Hkept : Forall (fun e => strip e = e /\ (2 <? String.length e)%nat = true) kept).
    { subst kept. apply Forall_map. apply List.Forall_forall. intros v Hv.
      apply List.filter_In in Hv as [_ Hv].
      rewrite WordFacts.strip_idempotent. auto. }
    assert (Hsame : map strip (List.filter (fun v => (2 <? String.length (strip v))%nat)
                                           kept) = kept).
    { clear - Hkept. induction Hkept as [| e k [He Hl] _ IH]; [reflexivity |].
      cbn [List.filter]. rewrite He, Hl. cbn [map]. rewrite He, IH. reflexivity. }
    destruct kept as [| e k] eqn:E; [discriminate |].
    intros [= <-]. rewrite Hsame. reflexivity.
Qed.

Lemma set_fresh {V : Type} (k : string) (v : V) (d : list (string * V)) :
  ~ In k (PyDict.keys d) -> PyDict.set k v d = (d ++ [(k, v)])%list.
Proof.
  unfold PyDict.keys. induction d as [| [k0 v0] d IH]; simpl; intros H;
    [reflexivity |].
  destruct (String.eqb_spec k k0) as [-> | Hne]; [tauto |].
  rewrite IH by tauto. reflexivity.
Qed.

Lemma set_keys {V : Type} (k : string) (v : V) (d : list (string * V)) (k' : string) :
  In k' (PyDict.keys (PyDict.set k v d)) <-> k' = k \/ In k' (PyDict.keys d).
Proof.
  unfold PyDict.keys. induction d as [| [k0 v0] d IH]; simpl.
  - intuition.
  - destruct (String.eqb_spec k k0) as [-> | Hne]; simpl.
    + intuition.
    + rewrite IH. intuition.
Qed.

(** A dictionary: distinct keys, here with values in final form. *)
Lemma set_keeps_settled (k : string) (v : ClauseValue)
      (d : list (string * ClauseValue)) :
  List.NoDup (PyDict.keys d) ->
  Forall (fun '(_, v) => surviving v = Some v) d ->
  surviving v = Some v ->
  List.NoDup (PyDict.keys (PyDict.set k v d))
  /\ Forall (fun '(_, v) => surviving v = Some v) (PyDict.set k v d).
Proof.
  unfold PyDict.keys. intros Hnd Hall Hv.
  induction d as [| [k0 v0] d IH]; simpl.
  - split; [constructor; [intros [] | constructor] | constructor; auto].
  - simpl in Hnd. apply List.NoDup_cons_iff in Hnd as [Hk0 Hnd].
    apply Forall_cons in Hall as [Hv0 Hall].
    destruct (String.eqb_spec k k0) as [-> | Hne]; simpl.
    + split; [constructor; assumption | constructor; assumption].
    + destruct (IH Hnd Hall) as [Hnd' Hall'].
      split; [| constructor; assumption].
      constructor; [| exact Hnd'].
      intros Hc. apply (set_keys k v d k0) in Hc as [Hc | Hc]; [congruence | tauto].
Qed.

Lemma first_pass (clauses : list (string * ClauseValue)) :
  forall processed,
    List.NoDup (PyDict.keys processed) ->
    Forall (fun '(_, v) => surviving v = Some v) processed ->
    List.NoDup (PyDict.keys (fold_left post_process_step clauses processed))
    /\ Forall (fun '(_, v) => surviving v = Some v)
              (fold_left post_process_step clauses processed).
Proof.
  induction clauses as [| [k v] clauses IH]; intros processed Hnd Hall; [auto |].
  cbn [fold_left post_process_step]. rewrite post_process_entry_surviving.
  destruct (surviving v) as [v' |] eqn:E; [| auto].
  destruct (set_keeps_settled k v' processed Hnd Hall (surviving_settled v v' E)).
  apply IH; assumption.
Qed.

Lemma second_pass (d : list (string * ClauseValue)) :
  forall processed,
    List.NoDup (PyDict.keys (processed ++ d)) ->
    Forall (fun '(_, v) => surviving v = Some v) d ->
    fold_left post_process_step d processed = (processed ++ d)%list.
Proof.
  induction d as [| [k v] d IH]; intros processed Hnd Hall;
    [rewrite app_nil_r; reflexivity |].
  apply Forall_cons in Hall as [Hv Hall].
  cbn [fold_left post_process_step]. rewrite post_process_entry_surviving, Hv.
  assert (Hfresh : ~ In k (PyDict.keys processed)).
  { unfold PyDict.keys in *. rewrite map_app in Hnd. cbn [map fst] in Hnd.
    apply List.NoDup_remove_2 in Hnd. intros H. apply Hnd.
    apply in_or_app. auto. }
  rewrite (set_fresh k v processed Hfresh).
  rewrite IH; [rewrite <- app_assoc; reflexivity | | exact Hall].
  rewrite <- app_assoc. exact Hnd.
Qed.

End ReplayFacts.

Module PostProcessSpec.
Import PyStr PyNum Vocabulary Examples ClauseParser.

(** X29.  [_post_process_clauses] is idempotent: the clauses it returns
    are in final form, and post-processing them again returns the same
    dictionary, keys in the same order. *)
Theorem post_process_idempotent (clauses : list (string * ClauseValue)) :
  _post_process_clauses (_post_process_clauses clauses)
  = _post_process_clauses clauses.
Proof.
  unfold _post_process_clauses.
  change (fun processed '(key, value) => post_process_entry processed key value)
    with post_process_step.
  destruct (ReplayFacts.first_pass clauses [] ltac:(constructor) ltac:(constructor))
    as [Hnd Hall].
  apply (ReplayFacts.second_pass _ [] Hnd Hall).
Qed.

End PostProcessSpec.

(* ===================================================================== *)
(** * The order of the documents                                          *)
(* ===================================================================== *)

Module OrderFacts.
Import PyStr PyNum Vocabulary ContradictionDetector ComparatorFacts.
Import GroupFacts DetectFacts.

Lemma instances_differ_sym (k : string) (x y : ClauseInstance) :
  instances_differ k x y = instances_differ k y x.
Proof.
  unfold instances_differ. rewrite !compare_verdict. unfold select_comparator.
  generalize (comparison_type (rule_for k)). intros t.
  destruct (String.eqb t "time_duration"); [apply time_durations_comm |].
  destruct (String.eqb t "time_range"); [apply time_ranges_comm |].
  destruct (String.eqb t "numeric"); [apply numeric_values_comm |].
  destruct (String.eqb t "datetime"); [apply datetime_values_comm |].
  destruct (String.eqb t "date_list"); [apply date_lists_comm |].
  destruct (String.eqb t "text_semantic"); [apply text_semantic_comm |].
  apply text_exact_comm.
Qed.

Lemma differing_pairs_cons (k : string) (x : ClauseInstance) (l : list ClauseInstance) :
  differing_pairs k (x :: l)
  = (length (List.filter (instances_differ k x) l) + differing_pairs k l)%nat.
Proof.
  unfold differing_pairs. cbn [index_pairs].
  rewrite List.filter_app, length_app. f_equal.
  induction l as [| y l IH]; [reflexivity |].
  cbn [map List.filter]. destruct (instances_differ k x y); cbn [length]; rewrite IH;
    reflexivity.
Qed.

Lemma filter_length_permutation {A : Type} (p : A -> bool) (l l' : list A) :
  Permutation l l' -> length (List.filter p l) = length (List.filter p l').
Proof.
  induction 1 as [| x l l' _ IH | x y l | l l' l'' _ IH1 _ IH2]; cbn [List.filter].
  - reflexivity.
  - destruct (p x); cbn [length]; rewrite IH; reflexivity.
  - destruct (p x), (p y); reflexivity.
  - congruence.
Qed.

Lemma filter_permutation {A : Type} (p : A -> bool) (l l' : list A) :
  Permutation l l' -> Permutation (List.filter p l) (List.filter p l').
Proof.
  induction 1 as [| x l l' _ IH | x y l | l l' l'' _ IH1 _ IH2]; cbn [List.filter].
  - constructor.
  - destruct (p x); [constructor |]; exact IH.
  - destruct (p x), (p y); try reflexivity. apply perm_swap.
  - eapply perm_trans; eauto.
Qed.

(** The number of differing pairs of a group does not depend on the
    order of its instances, the comparison being symmetric. *)
Lemma differing_pairs_permutation (k : string) (l l' : list ClauseInstance) :
  Permutation l l' -> differing_pairs k l = differing_pairs k l'.
Proof.
  induction 1 as [| x l l' H IH | x y l | l l' l'' _ IH1 _ IH2].
  - reflexivity.
  - rewrite !differing_pairs_cons, IH.
    rewrite (filter_length_permutation _ l l' H). reflexivity.
  - rewrite !differing_pairs_cons. cbn [List.filter].
    rewrite (instances_differ_sym k y x).
    destruct (instances_differ k x y); cbn [length]; lia.
  - congruence.
Qed.

Lemma detected_length (k : string) (l : list ClauseInstance) :
  length (_detect_clause_contradictions k l) = differing_pairs k l.
Proof.
  unfold _detect_clause_contradictions, differing_pairs. fold (rule_for k).
  induction (index_pairs l) as [| [x y] pairs IH]; [reflexivity |].
  cbn [flat_map List.filter]. rewrite length_app, IH.
  unfold instances_differ at 2.
  destruct (_compare_clause_values _ _ _) as [[|] details]; reflexivity.
Qed.

Lemma accumulated_length (groups : list (string * list ClauseInstance)) :
  length (accumulate_contradictions groups)
  = list_sum (map (fun '(k, l) => differing_pairs k l) groups).
Proof.
  unfold accumulate_contradictions.
  induction groups as [| [k l] groups IH]; [reflexivity |].
  cbn [flat_map map]. rewrite length_app, IH.
  transitivity (differing_pairs k l
                + list_sum (map (fun '(k, l) => differing_pairs k l) groups))%nat;
    [| reflexivity].
  f_equal.
  destruct (Nat.leb_spec 2 (length l)) as [_ | Hshort]; [apply detected_length |].
  destruct l as [| x [| y l]]; [reflexivity | reflexivity | simpl in Hshort; lia].
Qed.

Lemma key_found_iff {V : Type} (d : list (string * V)) (k : string) :
  In k (PyDict.keys d) <-> PyDict.get k d <> None.
Proof.
  unfold PyDict.keys. induction d as [| [k0 v0] d IH]; simpl; [tauto |].
  destruct (String.eqb_spec k k0) as [-> | Hne].
  - split; [discriminate | auto].
  - rewrite <- IH. split; [intros [-> | H]; [congruence | exact H] | auto].
Qed.

(** The number of contradictions found in given documents, by clause
    type. *)
Lemma accumulated_by_type (documents : list Document) :
  length (accumulate_contradictions (_group_clauses_by_type documents))
  = list_sum
      (map (fun k => differing_pairs k (List.filter (of_type k) (all_instances documents)))
           (PyDict.keys (_group_clauses_by_type documents))).
Proof.
  rewrite accumulated_length. unfold PyDict.keys. rewrite map_map.
  f_equal. apply map_ext_in. intros [k l] Hin.
  apply group_members in Hin. subst l. reflexivity.
Qed.

Lemma keys_permutation (documents documents' : list Document) :
  Permutation documents documents' ->
  Permutation (PyDict.keys (_group_clauses_by_type documents))
              (PyDict.keys (_group_clauses_by_type documents')).
Proof.
  intros Hp.
  destruct (groups_characterised documents) as [Hnd Hget].
  destruct (groups_characterised documents') as [Hnd' Hget'].
  apply Stdlib.Sorting.Permutation.NoDup_Permutation; [exact Hnd | exact Hnd' |].
  intros k. rewrite !key_found_iff, Hget, Hget'.
  assert (Hf : Permutation (List.filter (of_type k) (all_instances documents))
                           (List.filter (of_type k) (all_instances documents'))).
  { apply filter_permutation. unfold all_instances.
    apply Permutation_flat_map. exact Hp. }
  destruct (List.filter (of_type k) (all_instances documents)) as [| x l],
           (List.filter (of_type k) (all_instances documents')) as [| x' l'];
    try tauto.
  - apply Permutation_nil in Hf. discriminate.
  - symmetry in Hf. apply Permutation_nil in Hf. discriminate.
  - split; discriminate.
Qed.

Lemma detection_length (documents : list Document) :
  length (detect_contradictions documents)
  = if (length documents <? 2)%nat then 0%nat
    else length (accumulate_contradictions (_group_clauses_by_type documents)).
Proof.
  unfold detect_contradictions. destruct (length documents <? 2)%nat; [reflexivity |].
  unfold _prioritize_contradictions.
  rewrite assign_ids_length. apply Permutation_length, stable_sort_permutation.
Qed.

End OrderFacts.

Module OrderSpec.
Import PyStr PyNum Vocabulary Examples ContradictionDetector.
Import GroupFacts DetectFacts OrderFacts.

(** X30.  The number of contradictions [detect_contradictions] reports
    does not depend on the order in which the documents are given. *)
Theorem detection_count_ignores_document_order (documents documents' : list Document) :
  Permutation documents documents' ->
  length (detect_contradictions documents)
  = length (detect_contradictions documents').
Proof.
  intros Hp. rewrite !detection_length.
  rewrite (Permutation_length Hp).
  destruct (length documents' <? 2)%nat; [reflexivity |].
  rewrite !accumulated_by_type.
  rewrite (Permutation_list_sum
             (Permutation_map _ (keys_permutation documents documents' Hp))).
  f_equal. apply map_ext. intros k.
  apply differing_pairs_permutation, filter_permutation.
  unfold all_instances. apply Permutation_flat_map. exact Hp.
Qed.

Lemma detection_count_ignores_document_order_witness :
  length (detect_contradictions two_contracts)
  = length (detect_contradictions (rev two_contracts)).
Proof.
  apply detection_count_ignores_document_order. apply Permutation_rev.
Defined.

End OrderSpec.
